(** * CHNA -> CRA dashboard (app.js): evidence extraction, finding
    aggregation, materiality scoring, opportunity synthesis, tier gate and
    the financial projection engine.

    Conventions of the embedding.

    - Page texts, trigger phrases and snippets are JavaScript strings that
      the code indexes and slices: they are lists of UTF-16 code units
      ([text]).  Identifier-like strings (keys, labels, segment names,
      document names, evidence references) are only concatenated and
      compared: they are kept as [string].
    - JavaScript numbers are taken with exact arithmetic.  Quantities of the
      scoring chain are always finite (both extractors return null on NaN
      and capture a decimal literal), so they are rationals [Q]; integers
      produced by [Math.round] are [Z]; counters are [nat].  The projection
      engine reads numbers from form fields, where NaN and the infinities
      do arise: it works on [num], the rationals extended with the three
      non-finite values.  Rounding to binary64 and signed zeros are not
      modelled.
    - The global [state] object is an explicit record threaded through the
      functions that mutate it. *)

From Stdlib Require Import ZArith NArith QArith Qround Qminmax Qpower.
From Stdlib Require Import List String Ascii Bool Lia Lqa Permutation Sorted.
From stdpp Require Import gmap strings pretty.
Import ListNotations.

Local Open Scope Q_scope.

(* ================================================================== *)
(** ** Numbers *)
(* ================================================================== *)

Module JsNum.

(** [a > b] and [a >= b] on finite numbers. *)
Definition Qgtb (a b : Q) : bool := negb (Qle_bool a b).
Definition Qgeb (a b : Q) : bool := Qle_bool b a.

(** [function clamp(n, min, max){ return Math.max(min, Math.min(max, n)); }]
    on finite numbers, and on the integers [Math.round] produces. *)
Definition clamp (n lo hi : Q) : Q := Qmax lo (Qmin hi n).
Definition clampZ (n lo hi : Z) : Z := Z.max lo (Z.min hi n).

(** [Math.round]: the nearest integer, halves going up. *)
Definition round (x : Q) : Z := Qfloor (x + (1 # 2)).

(** A JavaScript number that may fail to be finite. *)
Inductive num : Type :=
| Fin (q : Q)
| PInf
| NInf
| NaN.

Definition isNaN (x : num) : bool :=
  match x with NaN => true | _ => false end.

Definition isFinite (x : num) : bool :=
  match x with Fin _ => true | _ => false end.

(** Sign of a rational: [Lt], [Eq] or [Gt] against zero. *)
Definition sgn (q : Q) : comparison := q ?= 0.

Definition neg (x : num) : num :=
  match x with
  | Fin q => Fin (- q)
  | PInf => NInf
  | NInf => PInf
  | NaN => NaN
  end.

Definition add (x y : num) : num :=
  match x, y with
  | NaN, _ | _, NaN => NaN
  | Fin a, Fin b => Fin (a + b)
  | PInf, NInf | NInf, PInf => NaN
  | PInf, _ | _, PInf => PInf
  | NInf, _ | _, NInf => NInf
  end.

Definition sub (x y : num) : num := add x (neg y).

(** An infinity scaled by a finite factor. *)
Definition scale_inf (pos : bool) (q : Q) : num :=
  match sgn q with
  | Eq => NaN
  | Gt => if pos then PInf else NInf
  | Lt => if pos then NInf else PInf
  end.

Definition mul (x y : num) : num :=
  match x, y with
  | NaN, _ | _, NaN => NaN
  | Fin a, Fin b => Fin (a * b)
  | Fin a, PInf | PInf, Fin a => scale_inf true a
  | Fin a, NInf | NInf, Fin a => scale_inf false a
  | PInf, PInf | NInf, NInf => PInf
  | PInf, NInf | NInf, PInf => NInf
  end.

(** Division; a zero divisor is taken as +0. *)
Definition div (x y : num) : num :=
  match x, y with
  | NaN, _ | _, NaN => NaN
  | Fin a, Fin b =>
      match sgn b with
      | Eq => match sgn a with Eq => NaN | Gt => PInf | Lt => NInf end
      | _ => Fin (a / b)
      end
  | Fin _, _ => Fin 0
  | PInf, Fin b => match sgn b with Lt => NInf | _ => PInf end
  | NInf, Fin b => match sgn b with Lt => PInf | _ => NInf end
  | _, _ => NaN
  end.

(** [x > y]; false as soon as one side is NaN. *)
Definition gtb (x y : num) : bool :=
  match x, y with
  | NaN, _ | _, NaN => false
  | Fin a, Fin b => Qgtb a b
  | PInf, PInf | NInf, NInf => false
  | PInf, _ | _, NInf => true
  | _, _ => false
  end.

(** [x === 0]. *)
Definition is_zero (x : num) : bool :=
  match x with Fin q => Qeq_bool q 0 | _ => false end.

Definition max (x y : num) : num :=
  match x, y with
  | NaN, _ | _, NaN => NaN
  | _, _ => if gtb y x then y else x
  end.

Definition min (x y : num) : num :=
  match x, y with
  | NaN, _ | _, NaN => NaN
  | _, _ => if gtb x y then y else x
  end.

(** [clamp] on numbers that may be non-finite. *)
Definition nclamp (n lo hi : num) : num := max lo (min hi n).

(** [x || d] on numbers: 0 and NaN are falsy. *)
Definition or_default (x d : num) : num :=
  match x with
  | NaN => d
  | Fin q => if Qeq_bool q 0 then d else x
  | _ => x
  end.

(** Strict equality of numbers ([===]): NaN differs from itself. *)
Definition num_eq (x y : num) : Prop :=
  match x, y with
  | Fin a, Fin b => a == b
  | PInf, PInf | NInf, NInf => True
  | _, _ => False
  end.

Definition of_Z (z : Z) : num := Fin (inject_Z z).

End JsNum.

Import JsNum.

(* ================================================================== *)
(** ** Strings *)
(* ================================================================== *)

(** A string as a sequence of UTF-16 code units. *)
Definition text : Type := list N.

(** The code units of an ASCII literal. *)
Definition lit (s : string) : text :=
  List.map N_of_ascii (list_ascii_of_string s).

Definition is_digit (c : N) : bool := (48 <=? c)%N && (c <=? 57)%N.

(** The class [\s] of a JavaScript regular expression, which is also the
    white space [parseFloat] and [parseInt] strip. *)
Definition is_space (c : N) : bool :=
  ((9 <=? c)%N && (c <=? 13)%N) || (c =? 32)%N || (c =? 160)%N
  || (c =? 5760)%N || ((8192 <=? c)%N && (c <=? 8202)%N)
  || (c =? 8232)%N || (c =? 8233)%N || (c =? 8239)%N || (c =? 8287)%N
  || (c =? 12288)%N || (c =? 65279)%N.

(** [String.prototype.toLowerCase], as far as a search for a Basic Latin
    phrase can tell: exact on Basic Latin and on the two code points beyond
    it whose lower case contains a Basic Latin letter (U+0130 and the Kelvin
    sign U+212A); any other code unit is kept, where the real function
    yields code units outside Basic Latin as well. *)
Definition lower_unit (c : N) : text :=
  if (65 <=? c)%N && (c <=? 90)%N then [(c + 32)%N]
  else if (c =? 304)%N then [105%N; 775%N]
  else if (c =? 8490)%N then [107%N]
  else [c].

Definition toLowerCase (s : text) : text := flat_map lower_unit s.

(** Case folding of the [i] flag (without the [u] flag) for the patterns
    of this program, whose literals are Basic Latin: a Basic Latin letter
    matches both of its cases, any other literal unit matches itself only,
    and no code unit from 128 up folds into Basic Latin. *)
Definition fold_unit (c : N) : N :=
  if (97 <=? c)%N && (c <=? 122)%N then (c - 32)%N else c.

Definition ci_eq (p c : N) : bool := (fold_unit p =? fold_unit c)%N.

(** [p] is a prefix of [s], code unit by code unit. *)
Fixpoint starts_with (p s : text) : bool :=
  match p, s with
  | [], _ => true
  | _ :: _, [] => false
  | a :: p', b :: s' => (a =? b)%N && starts_with p' s'
  end.

(** [s.indexOf(p)], with [None] for -1. *)
Fixpoint indexOf (s p : text) : option nat :=
  if starts_with p s then Some 0%nat
  else match s with
       | [] => None
       | _ :: s' => option_map S (indexOf s' p)
       end.

(** [s.includes(p)]. *)
Definition includes (s p : text) : bool :=
  match indexOf s p with Some _ => true | None => false end.

(** [s.slice(a, b)] for [0 <= a] and [0 <= b]. *)
Definition slice (s : text) (a b : nat) : text :=
  firstn (b - a) (skipn a s).

(** [s.replace(/\s+/g, ' ')]: every maximal run of white space becomes one
    space. *)
Fixpoint squeeze_spaces (s : text) : text :=
  match s with
  | [] => []
  | c :: s' =>
      if is_space c
      then match s' with
           | d :: _ => if is_space d then squeeze_spaces s'
                       else 32%N :: squeeze_spaces s'
           | [] => [32%N]
           end
      else c :: squeeze_spaces s'
  end.

Fixpoint drop_spaces (s : text) : text :=
  match s with
  | c :: s' => if is_space c then drop_spaces s' else s
  | [] => []
  end.

(** [s.trim()]. *)
Definition trim (s : text) : text :=
  rev (drop_spaces (rev (drop_spaces s))).

(** The longest run of decimal digits at the head of [s], and the rest. *)
Fixpoint span_digits (s : text) : text * text :=
  match s with
  | c :: s' =>
      if is_digit c
      then let '(ds, r) := span_digits s' in (c :: ds, r)
      else ([], s)
  | [] => ([], [])
  end.

(** The natural number a run of decimal digits denotes. *)
Definition digits_value (ds : text) : N :=
  fold_left (fun acc c => (10 * acc + (c - 48))%N) ds 0%N.

(** [parseFloat]: leading white space, an optional sign, then the longest
    prefix that is [Infinity] or a decimal literal (digits, an optional
    fraction, an optional exponent). *)
Definition parse_sign (s : text) : bool * text :=
  match s with
  | 43%N :: r => (false, r)
  | 45%N :: r => (true, r)
  | _ => (false, s)
  end.

Definition parse_exponent (s : text) : Z :=
  match s with
  | c :: r =>
      if (c =? 101)%N || (c =? 69)%N then
        let '(negative, r1) := parse_sign r in
        match span_digits r1 with
        | ([], _) => 0%Z
        | (ds, _) =>
            if negative then (- Z.of_N (digits_value ds))%Z
            else Z.of_N (digits_value ds)
        end
      else 0%Z
  | [] => 0%Z
  end.

Definition parse_unsigned (s : text) : num :=
  if starts_with (lit "Infinity") s then PInf
  else
    let '(ip, r1) := span_digits s in
    let '(fp, r2) :=
      match r1 with
      | 46%N :: r => span_digits r
      | _ => ([], r1)
      end in
    match ip ++ fp with
    | [] => NaN
    | ds =>
        let e := (parse_exponent r2 - Z.of_nat (length fp))%Z in
        Fin (Qred (inject_Z (Z.of_N (digits_value ds)) * Qpower 10 e))
    end.

Definition parseFloat (s : text) : num :=
  let '(negative, r) := parse_sign (drop_spaces s) in
  if negative then neg (parse_unsigned r) else parse_unsigned r.

(** [parseInt(s, 10)]. *)
Definition parseInt (s : text) : num :=
  let '(negative, r) := parse_sign (drop_spaces s) in
  match span_digits r with
  | ([], _) => NaN
  | (ds, _) =>
      if negative then of_Z (- Z.of_N (digits_value ds))
      else of_Z (Z.of_N (digits_value ds))
  end.

(** [value || d] on the string value of a form field. *)
Definition or_text (value d : text) : text :=
  match value with [] => d | _ => value end.

(* ================================================================== *)
(** ** The two bounded-window patterns *)
(* ================================================================== *)

Module Regex.

(** A literal under the [i] flag; the rest of the input on success. *)
Fixpoint match_ci (p s : text) : option text :=
  match p with
  | [] => Some s
  | a :: p' =>
      match s with
      | b :: s' => if ci_eq a b then match_ci p' s' else None
      | [] => None
      end
  end.

(** [(?:\.\d+)?%]: the text the optional group takes, and what follows the
    percent sign.  [\d+] is greedy; giving digits back cannot help, since
    the unit after a shorter run is a digit and not the percent sign, and
    skipping the group cannot help when the head is a dot. *)
Definition match_fraction_percent (s : text) : option (text * text) :=
  match s with
  | 46%N :: s1 =>
      let '(ds, r) := span_digits s1 in
      match ds, r with
      | _ :: _, 37%N :: r' => Some (46%N :: ds, r')
      | _, _ => None
      end
  | 37%N :: r' => Some ([], r')
  | _ => None
  end.

(** [(\d{1,2}(?:\.\d+)?)%]: the captured group and what follows the match.
    [\d{1,2}] takes two digits when it can; falling back to one cannot help,
    since the next unit is then a digit. *)
Definition match_percent (s : text) : option (text * text) :=
  match s with
  | d1 :: s1 =>
      if is_digit d1 then
        match s1 with
        | d2 :: s2 =>
            if is_digit d2
            then match match_fraction_percent s2 with
                 | Some (f, r) => Some (d1 :: d2 :: f, r)
                 | None => None
                 end
            else match match_fraction_percent s1 with
                 | Some (f, r) => Some (d1 :: f, r)
                 | None => None
                 end
        | [] => None
        end
      else None
  | [] => None
  end.

(** [[\s\S]{0,n}?] followed by [k]: the shortest gap first. *)
Fixpoint lazy_gap {A : Type} (n : nat) (k : text -> option A) (s : text)
  : option A :=
  match k s with
  | Some r => Some r
  | None =>
      match n, s with
      | S n', _ :: s' => lazy_gap n' k s'
      | _, _ => None
      end
  end.

(** [[\s\S]{0,n}] followed by [k]: the longest gap first. *)
Fixpoint greedy_gap {A : Type} (n : nat) (k : text -> option A) (s : text)
  : option A :=
  match n, s with
  | S n', _ :: s' =>
      match greedy_gap n' k s' with
      | Some r => Some r
      | None => k s
      end
  | _, _ => k s
  end.

(** [String.prototype.match] without the [g] flag: the leftmost position at
    which the pattern [k] matches; returns the input from that position on
    together with the result of [k]. *)
Fixpoint search {A : Type} (k : text -> option A) (s : text)
  : option (text * A) :=
  match k s with
  | Some r => Some (s, r)
  | None =>
      match s with
      | [] => None
      | _ :: s' => search k s'
      end
  end.

(** [m[0]]: what was consumed between the start [s] and the rest [r]. *)
Definition matched (s r : text) : text :=
  firstn (length s - length r) s.

(** [keyword[\s\S]{0,160}?(\d{1,2}(?:\.\d+)?)%], flag [i]; [keyword] is a
    literal (the callers pass letters and spaces, or escape it). *)
Definition percent_near (keyword : text) (s : text) : option (text * text) :=
  match match_ci keyword s with
  | Some s1 => lazy_gap 160 match_percent s1
  | None => None
  end.

Definition is_dash (c : N) : bool := (c =? 45)%N || (c =? 8211)%N.

(** [65\s*[-–]\s*74[\s\S]{0,160}transportation[\s\S]{0,80}?(\d{1,2}(?:\.\d+)?)%],
    flag [i].  [\s*] is greedy and giving white space back cannot help. *)
Definition age6574_transport (s : text) : option (text * text) :=
  match match_ci (lit "65") s with
  | Some s1 =>
      match drop_spaces s1 with
      | c :: s2 =>
          if is_dash c then
            match match_ci (lit "74") (drop_spaces s2) with
            | Some s3 =>
                greedy_gap 160
                  (fun s4 =>
                     match match_ci (lit "transportation") s4 with
                     | Some s5 => lazy_gap 80 match_percent s5
                     | None => None
                     end) s3
            | None => None
            end
          else None
      | [] => None
      end
  | None => None
  end.

End Regex.

(** What the two finders return: [{val, snippet}]. *)
Record hit : Type := { val : Q; snippet : text }.

(** [parseFloat(m[1])] followed by the [isNaN] test; the captured group is
    a decimal literal, so the value is always finite. *)
Definition hit_of (m : option (text * (text * text))) : option hit :=
  match m with
  | Some (s, (m1, rest)) =>
      match parseFloat m1 with
      | Fin v => Some {| val := v; snippet := slice (Regex.matched s rest) 0 280 |}
      | _ => None
      end
  | None => None
  end.

Definition findPercentNear (t keyword : text) : option hit :=
  hit_of (Regex.search (Regex.percent_near keyword) t).

Definition findAge6574Transport (t : text) : option hit :=
  hit_of (Regex.search Regex.age6574_transport t).

(* ================================================================== *)
(** ** Run state *)
(* ================================================================== *)

Module Doc.
Record t : Type :=
  { name : string; type : string; pages : nat; textByPage : list text }.
End Doc.

Module Evidence.
Record t : Type :=
  { disparity : string; snippet : text; doc : string; page : nat }.
End Evidence.

Module Finding.
Record t : Type :=
  { id : string;
    key : string;
    disparity : string;
    segment : string;
    magnitude : Q;
    prominence : nat;
    concentration : Q;
    score : Z;
    recommend : string;
    evidenceRef : string }.

Definition has_id (i : string) (x : t) : bool := String.eqb (id x) i.
Definition has_key (k : string) (x : t) : bool := String.eqb (key x) k.
End Finding.

Module Opportunity.
Record t : Type :=
  { opp : string;
    kind : string;
    tests : string;
    criterion : string;
    strength : string;
    score : Z;
    scope : string;
    checklist : string }.
End Opportunity.

Module Transport.
Record t : Type := { overall : option Q; age6574 : option Q }.
Definition empty : t := {| overall := None; age6574 := None |}.
End Transport.

(** One row of a checklist block: [{id, label, present, trigger, snippet}]. *)
Module ElementHit.
Record t : Type :=
  { id : string; label : string; present : bool; trigger : text;
    snippet : text }.
End ElementHit.

Module ChnaEval.
Record t : Type :=
  { doc : string;
    isCHNA : bool;
    isIS : bool;
    chnaScore : Z;
    isScore : Z;
    writtenCommentsScore : Z;
    publicScore : Z;
    chnaHits : list ElementHit.t;
    isHits : list ElementHit.t;
    wcHits : list ElementHit.t;
    publicSnippet : text }.
End ChnaEval.

(** The scenario cache [state.model] that [runTier3] stores: its computed
    numeric fields. *)
Module Model.
Record t : Type :=
  { months : num;
    annual_touchpoints : num;
    prevented_disruptions : num;
    units_annual : num;
    total_cost_horizon : num;
    annual_cost : num;
    gross_annual_benefit : num;
    net_annual : num }.
End Model.

Module State.
Record t : Type :=
  { docs : list Doc.t;
    evidence : list Evidence.t;
    findings : list Finding.t;
    opportunities : list Opportunity.t;
    selectedOpp : option Opportunity.t;
    transport : Transport.t;
    chnaEval : list ChnaEval.t;
    model : option Model.t }.

(** The initial value of [state]. *)
Definition init : t :=
  {| docs := []; evidence := []; findings := []; opportunities := [];
     selectedOpp := None; transport := Transport.empty; chnaEval := [];
     model := None |}.

Definition with_evidence (v : list Evidence.t) (s : t) : t :=
  {| docs := docs s; evidence := v; findings := findings s;
     opportunities := opportunities s; selectedOpp := selectedOpp s;
     transport := transport s; chnaEval := chnaEval s; model := model s |}.

Definition with_findings (v : list Finding.t) (s : t) : t :=
  {| docs := docs s; evidence := evidence s; findings := v;
     opportunities := opportunities s; selectedOpp := selectedOpp s;
     transport := transport s; chnaEval := chnaEval s; model := model s |}.

Definition with_transport (v : Transport.t) (s : t) : t :=
  {| docs := docs s; evidence := evidence s; findings := findings s;
     opportunities := opportunities s; selectedOpp := selectedOpp s;
     transport := v; chnaEval := chnaEval s; model := model s |}.

Definition with_opportunities (v : list Opportunity.t)
  (sel : option Opportunity.t) (s : t) : t :=
  {| docs := docs s; evidence := evidence s; findings := findings s;
     opportunities := v; selectedOpp := sel;
     transport := transport s; chnaEval := chnaEval s; model := model s |}.

Definition with_model (v : option Model.t) (s : t) : t :=
  {| docs := docs s; evidence := evidence s; findings := findings s;
     opportunities := opportunities s; selectedOpp := selectedOpp s;
     transport := transport s; chnaEval := chnaEval s; model := v |}.
End State.

(** The table [DISPARITIES]. *)
Module Disparity.
Record t : Type :=
  { key : string; label : string; keywords : list text; metric : string }.
End Disparity.

Definition DISPARITIES : list Disparity.t :=
  [ {| Disparity.key := "transport";
       Disparity.label := "Transportation barrier";
       Disparity.keywords := [lit "transportation"; lit "transit"];
       Disparity.metric := "% reporting transportation problems" |};
    {| Disparity.key := "access";
       Disparity.label := "Access to care barrier";
       Disparity.keywords :=
         [lit "could not get an appointment"; lit "delayed care"];
       Disparity.metric := "% delaying needed care" |};
    {| Disparity.key := "food";
       Disparity.label := "Food insecurity";
       Disparity.keywords := [lit "food insecurity"; lit "food shelf"];
       Disparity.metric := "% reporting food insecurity" |};
    {| Disparity.key := "housing";
       Disparity.label := "Housing need";
       Disparity.keywords := [lit "housing needs"; lit "housing"];
       Disparity.metric := "% reporting housing needs" |};
    {| Disparity.key := "financial";
       Disparity.label := "Financial need";
       Disparity.keywords := [lit "financial needs"; lit "cost too much"];
       Disparity.metric := "% reporting financial needs" |} ].

(** The segment label of the age band; its dash is U+2013. *)
Definition seg_overall : string := "Overall".
Definition seg_age6574 : string := "Age 65–74".

(* ================================================================== *)
(** ** Extraction and aggregation *)
(* ================================================================== *)

Definition recordEvidence (disparityLabel : string) (snip : text)
  (doc : string) (page : nat) (st : State.t) : State.t :=
  State.with_evidence
    (State.evidence st ++
       [ {| Evidence.disparity := disparityLabel; Evidence.snippet := snip;
            Evidence.doc := doc; Evidence.page := page |} ]) st.

(** Assignment through the object [Array.prototype.find] returned: the first
    element that satisfies [p] is the one that changes. *)
Fixpoint replace_first {A : Type} (p : A -> bool) (y : A) (l : list A)
  : list A :=
  match l with
  | [] => []
  | x :: l' => if p x then y :: l' else x :: replace_first p y l'
  end.

(** [`${key}__${segment}`]. *)
Definition finding_id (key segment : string) : string :=
  key +:+ "__" +:+ segment.

Definition addFinding (key disparity segment : string) (magnitude : Q)
  (prominence : nat) (evidenceRef : string) (st : State.t) : State.t :=
  let id := finding_id key segment in
  match List.find (Finding.has_id id) (State.findings st) with
  | Some ex =>
      if Qgtb magnitude (Finding.magnitude ex) then
        let ex' :=
          {| Finding.id := Finding.id ex;
             Finding.key := Finding.key ex;
             Finding.disparity := Finding.disparity ex;
             Finding.segment := Finding.segment ex;
             Finding.magnitude := magnitude;
             Finding.prominence := Nat.max (Finding.prominence ex) prominence;
             Finding.concentration := Finding.concentration ex;
             Finding.score := Finding.score ex;
             Finding.recommend := Finding.recommend ex;
             Finding.evidenceRef := evidenceRef |} in
        State.with_findings
          (replace_first (Finding.has_id id) ex' (State.findings st)) st
      else st
  | None =>
      State.with_findings
        (State.findings st ++
           [ {| Finding.id := id;
                Finding.key := key;
                Finding.disparity := disparity;
                Finding.segment := segment;
                Finding.magnitude := magnitude;
                Finding.prominence := prominence;
                Finding.concentration := 0;
                Finding.score := 0%Z;
                Finding.recommend := "";
                Finding.evidenceRef := evidenceRef |} ]) st
  end.

(** The per-document counter object [prominence]. *)
Definition prominence_init : gmap string nat :=
  foldl (fun m d => <[Disparity.key d := 0%nat]> m) ∅ DISPARITIES.

Definition prominence_get (m : gmap string nat) (k : string) : nat :=
  default 0%nat (m !! k).

(** The keyword loop of one page: a disparity counts once per page, on its
    first keyword found. *)
Definition count_keywords (lower : text) (m : gmap string nat)
  : gmap string nat :=
  foldl
    (fun m d =>
       if existsb (fun kw => includes lower (toLowerCase kw))
            (Disparity.keywords d)
       then <[Disparity.key d := S (prominence_get m (Disparity.key d))]> m
       else m)
    m DISPARITIES.

(** [`${doc.name} p.${i+1}`]. *)
Definition evidence_ref (name : string) (i : nat) : string :=
  name +:+ " p." +:+ pretty (i + 1)%nat.

(** The block "Transportation overall" of the page loop. *)
Definition scan_overall (name : string) (i : nat) (t : text)
  (prom : gmap string nat) (st : State.t) : State.t :=
  match findPercentNear t (lit "transportation") with
  | Some tr =>
      let st1 :=
        recordEvidence "Transportation barrier" (snippet tr) name (i + 1) st in
      let st2 :=
        addFinding "transport" "Transportation barrier" seg_overall (val tr)
          (prominence_get prom "transport") (evidence_ref name i) st1 in
      match Transport.overall (State.transport st2) with
      | None =>
          State.with_transport
            {| Transport.overall := Some (val tr);
               Transport.age6574 := Transport.age6574 (State.transport st2) |}
            st2
      | Some _ => st2
      end
  | None => st
  end.

(** The block "Transportation 65-74" of the page loop. *)
Definition scan_age6574 (name : string) (i : nat) (t : text)
  (prom : gmap string nat) (st : State.t) : State.t :=
  match findAge6574Transport t with
  | Some tr =>
      let st1 :=
        recordEvidence "Transportation barrier" (snippet tr) name (i + 1) st in
      let st2 :=
        addFinding "transport" "Transportation barrier" seg_age6574 (val tr)
          (prominence_get prom "transport") (evidence_ref name i) st1 in
      State.with_transport
        {| Transport.overall := Transport.overall (State.transport st2);
           Transport.age6574 := Some (val tr) |}
        st2
  | None => st
  end.

(** The block "Other disparities": the primary keyword [d.keywords[0]] is
    escaped before it goes into the pattern, so it matches literally. *)
Definition scan_other (name : string) (i : nat) (t : text)
  (prom : gmap string nat) (st : State.t) (d : Disparity.t) : State.t :=
  if String.eqb (Disparity.key d) "transport" then st
  else
    match findPercentNear t (hd [] (Disparity.keywords d)) with
    | Some p =>
        addFinding (Disparity.key d) (Disparity.label d) seg_overall (val p)
          (prominence_get prom (Disparity.key d)) (evidence_ref name i)
          (recordEvidence (Disparity.label d) (snippet p) name (i + 1) st)
    | None => st
    end.

(** The body of the page loop, page index [i] (from 0). *)
Definition scanPage (name : string) (i : nat) (t : text)
  (prom : gmap string nat) (st : State.t) : gmap string nat * State.t :=
  let prom' := count_keywords (toLowerCase t) prom in
  let st1 := scan_overall name i t prom' st in
  let st2 := scan_age6574 name i t prom' st1 in
  (prom', foldl (scan_other name i t prom') st2 DISPARITIES).

Fixpoint scanPages (name : string) (i : nat) (pages : list text)
  (prom : gmap string nat) (st : State.t) : State.t :=
  match pages with
  | [] => st
  | t :: rest =>
      let '(prom', st') := scanPage name i t prom st in
      scanPages name (S i) rest prom' st'
  end.

Definition scanDoc (doc : Doc.t) (st : State.t) : State.t :=
  scanPages (Doc.name doc) 0 (Doc.textByPage doc) prominence_init st.

(** [for(const d of state.docs){ scanDoc(d); }]. *)
Definition scanDocs (ds : list Doc.t) (st : State.t) : State.t :=
  foldl (fun s d => scanDoc d s) st ds.

(* ================================================================== *)
(** ** Documentation gap evaluator *)
(* ================================================================== *)

Module Element.
Record t : Type := { id : string; label : string; pats : list text }.
End Element.

Definition element (i l : string) (ps : list string) : Element.t :=
  {| Element.id := i; Element.label := l; Element.pats := List.map lit ps |}.

Definition CHNA_ELEMENTS : list Element.t :=
  [ element "community_def" "Definition of community served + how determined"
      ["definition of the community"; "community served"; "service area";
       "community definition"; "how the community was determined"];
    element "methods" "Process and methods used to conduct CHNA"
      ["methods"; "methodology"; "data sources"; "process used"; "approach";
       "survey methodology"; "focus group"];
    element "input"
      "How input was solicited and taken into account (broad interests)"
      ["input from persons who represent"; "broad interests of the community";
       "community input"; "stakeholder input"; "community representatives"];
    element "underserved"
      "Description of medically underserved / low-income / minority populations represented by input"
      ["medically underserved"; "low-income"; "minority populations";
       "priority populations"; "vulnerable populations";
       "underserved populations"];
    element "priorities" "Prioritized description of significant health needs"
      ["prioritized"; "priority health needs"; "significant health needs";
       "ranked"; "top needs"; "prioritization"];
    element "resources"
      "Resources potentially available to address identified needs"
      ["resources available"; "available resources"; "community resources";
       "assets"; "existing programs"; "capacity"];
    element "impact_eval"
      "Evaluation of impact since the immediately preceding CHNA"
      ["evaluation of impact"; "impact of actions"; "progress since";
       "results since last"; "prior CHNA"; "evaluation since"] ].

Definition IS_ELEMENTS : list Element.t :=
  [ element "is_actions" "Actions to address each health need"
      ["actions the hospital will take"; "strategy"; "interventions";
       "action plan"; "will address"];
    element "is_resources_impact" "Resources devoted + anticipated impact"
      ["resources devoted"; "anticipated impact"; "budget"; "investment";
       "expected impact"; "metrics"];
    element "is_collab" "Planned collaborations with other institutions"
      ["collaboration"; "partner"; "coalition"; "in partnership with";
       "collaborate with"; "community partners"] ].

Definition WRITTEN_COMMENT_ELEMENTS : list Element.t :=
  [ element "wc_solicit"
      "How written comments were solicited (most recent CHNA/IS)"
      ["written comments"; "public comment"; "comment period"; "solicit";
       "feedback form"; "survey"; "web-based"; "paper survey";
       "community forum"; "open house"; "telephone"];
    element "wc_received" "At least 1 written comment received"
      ["we received"; "comments were received"; "comment(s) received";
       "written comment"; "responses received"; "feedback received"];
    element "wc_used"
      "How comments were taken into account in current CHNA/IS"
      ["taken into account"; "incorporated"; "informed"; "used to update";
       "we considered"; "resulting changes"; "we adjusted"; "we revised"] ].

(** [_findSnippet]: the index is taken in the lower-cased text and used on
    the text itself. *)
Definition _findSnippet (t pat : text) : option text :=
  match indexOf (toLowerCase t) (toLowerCase pat) with
  | None => None
  | Some idx =>
      Some (trim (squeeze_spaces
                    (slice t (idx - 90) (Nat.min (length t) (idx + 170)))))
  end.

(** [pages.join(" \n")]. *)
Fixpoint join_pages (pages : list text) : text :=
  match pages with
  | [] => []
  | [p] => p
  | p :: rest => p ++ [32%N; 10%N] ++ join_pages rest
  end.

(** Truthiness of what a search over phrases found. *)
Definition truthy (found : option text) : bool :=
  match found with
  | Some (_ :: _) => true
  | _ => false
  end.

(** The first phrase of [pats] that the lower-cased text includes. *)
Definition first_pat (lower : text) (pats : list text) : option text :=
  List.find (fun p => includes lower (toLowerCase p)) pats.

Definition element_hit (all lower : text) (el : Element.t) : ElementHit.t :=
  let found := first_pat lower (Element.pats el) in
  {| ElementHit.id := Element.id el;
     ElementHit.label := Element.label el;
     ElementHit.present := truthy found;
     ElementHit.trigger := if truthy found then default [] found else [];
     ElementHit.snippet :=
       if truthy found
       then default [] (_findSnippet all (default [] found))
       else [] |}.

(** What [scoreBlock] returns: [{score, hits, presentCount, total}]. *)
Module Block.
Record t : Type :=
  { score : Z; hits : list ElementHit.t; presentCount : nat; total : nat }.
End Block.

(** The inner function [scoreBlock]; it is called on the three non-empty
    tables only. *)
Definition scoreBlock (all lower : text) (block : list Element.t) : Block.t :=
  let hits := List.map (element_hit all lower) block in
  let presentCount := length (List.filter ElementHit.present hits) in
  {| Block.score :=
       round (inject_Z (Z.of_nat presentCount)
                / inject_Z (Z.of_nat (length hits)) * 100);
     Block.hits := hits;
     Block.presentCount := presentCount;
     Block.total := length hits |}.

Definition publicPats : list text :=
  List.map lit
    ["available on our website"; "posted on our website"; "publicly available";
     "public comment"; "comment period"; "available online"].

Definition evalDocForElements (doc : Doc.t) : ChnaEval.t :=
  let all := join_pages (Doc.textByPage doc) in
  let lower := toLowerCase all in
  let isCHNA :=
    includes lower (lit "community health needs assessment")
    || includes lower (lit "chna") in
  let isIS :=
    includes lower (lit "implementation strategy")
    || includes lower (lit "implementation plan")
    || includes lower (lit "implementation strategies") in
  let publicHit := first_pat lower publicPats in
  let publicSnippet :=
    if truthy publicHit then _findSnippet all (default [] publicHit)
    else None in
  let chna := scoreBlock all lower CHNA_ELEMENTS in
  let isb := scoreBlock all lower IS_ELEMENTS in
  let wc := scoreBlock all lower WRITTEN_COMMENT_ELEMENTS in
  let wcScore :=
    if (Block.presentCount wc =? 3)%nat then 100%Z
    else if (Block.presentCount wc =? 2)%nat then 67%Z
    else if (Block.presentCount wc =? 1)%nat then 33%Z
    else 0%Z in
  {| ChnaEval.doc := Doc.name doc;
     ChnaEval.isCHNA := isCHNA;
     ChnaEval.isIS := isIS;
     ChnaEval.chnaScore := Block.score chna;
     ChnaEval.isScore := Block.score isb;
     ChnaEval.writtenCommentsScore := wcScore;
     ChnaEval.publicScore := if truthy publicHit then 100%Z else 0%Z;
     ChnaEval.chnaHits := Block.hits chna;
     ChnaEval.isHits := Block.hits isb;
     ChnaEval.wcHits := Block.hits wc;
     ChnaEval.publicSnippet := default [] publicSnippet |}.

(* ================================================================== *)
(** ** Materiality scorer *)
(* ================================================================== *)

(** The object [byKey]: the findings of each key, in list order. *)
Definition group_by_key (fs : list Finding.t)
  : gmap string (list Finding.t) :=
  foldl
    (fun m f =>
       <[Finding.key f := default [] (m !! Finding.key f) ++ [f]]> m)
    ∅ fs.

(** The concentration the first loop assigns to [f], read off the group of
    its key. *)
Definition concentration_of (byKey : gmap string (list Finding.t))
  (f : Finding.t) : Q :=
  let list := default [] (byKey !! Finding.key f) in
  match List.find (fun x => String.eqb (Finding.segment x) "Overall") list with
  | Some overall =>
      if negb (String.eqb (Finding.segment f) "Overall")
      then Qmax 0 (Finding.magnitude f - Finding.magnitude overall)
      else 0
  | None => 0
  end.

Definition set_concentration (c : Q) (f : Finding.t) : Finding.t :=
  {| Finding.id := Finding.id f;
     Finding.key := Finding.key f;
     Finding.disparity := Finding.disparity f;
     Finding.segment := Finding.segment f;
     Finding.magnitude := Finding.magnitude f;
     Finding.prominence := Finding.prominence f;
     Finding.concentration := c;
     Finding.score := Finding.score f;
     Finding.recommend := Finding.recommend f;
     Finding.evidenceRef := Finding.evidenceRef f |}.

Definition set_score (s : Z) (r : string) (f : Finding.t) : Finding.t :=
  {| Finding.id := Finding.id f;
     Finding.key := Finding.key f;
     Finding.disparity := Finding.disparity f;
     Finding.segment := Finding.segment f;
     Finding.magnitude := Finding.magnitude f;
     Finding.prominence := Finding.prominence f;
     Finding.concentration := Finding.concentration f;
     Finding.score := s;
     Finding.recommend := r;
     Finding.evidenceRef := Finding.evidenceRef f |}.

(** [transportBonus]: 0 unless both scalars are known and the overall one is
    positive. *)
Definition transportBonus (tr : Transport.t) : Q :=
  match Transport.overall tr, Transport.age6574 tr with
  | Some o, Some a =>
      if Qgtb o 0 then clamp ((a / o - 1) * 8) 0 10 else 0
  | _, _ => 0
  end.

(** The score before the transportation bonus:
    [Math.round(magScore + concScore + promScore)]. *)
Definition base_score (f : Finding.t) : Z :=
  let magScore := clamp (Finding.magnitude f / 30 * 60) 0 60 in
  let concScore := clamp (Finding.concentration f / 15 * 25) 0 25 in
  let promScore :=
    clamp (inject_Z (Z.of_nat (Finding.prominence f)) / 6 * 15) 0 15 in
  round (magScore + concScore + promScore).

(** The score the second loop assigns to [f]. *)
Definition finding_score (bonus : Q) (f : Finding.t) : Z :=
  if String.eqb (Finding.key f) "transport"
  then clampZ (base_score f + round bonus) 0 100
  else base_score f.

Definition recommend_of (score : Z) : string :=
  if (70 <=? score)%Z then "Advance (high)"
  else if (55 <=? score)%Z then "Advance (moderate)"
  else "Defer/monitor".

Definition score_finding (bonus : Q) (f : Finding.t) : Finding.t :=
  let s := finding_score bonus f in
  set_score s (recommend_of s) f.

(** [Array.prototype.sort] with the comparator [(a,b) => b.score - a.score]:
    a stable sort, larger scores first. *)
Fixpoint insert_desc {A : Type} (score : A -> Z) (x : A) (l : list A)
  : list A :=
  match l with
  | [] => [x]
  | y :: l' =>
      if (score y <=? score x)%Z then x :: l
      else y :: insert_desc score x l'
  end.

Definition sort_desc {A : Type} (score : A -> Z) (l : list A) : list A :=
  fold_right (insert_desc score) [] l.

(** The loops of [computeMateriality] assign through the finding objects,
    which [byKey] shares with [state.findings]; neither loop reads a field
    it has written for another finding, so each is a map over the list. *)
Definition computeMateriality (st : State.t) : State.t :=
  let byKey := group_by_key (State.findings st) in
  let fs1 :=
    List.map (fun f => set_concentration (concentration_of byKey f) f)
      (State.findings st) in
  let bonus := transportBonus (State.transport st) in
  let fs2 := List.map (score_finding bonus) fs1 in
  State.with_findings (sort_desc Finding.score fs2) st.

(* ================================================================== *)
(** ** Opportunity synthesizer and tier gate *)
(* ================================================================== *)

Module CRA_CRITERIA.
Definition nmt_criterion : string :=
  "Community development services / community support services targeted to low- or moderate-income (LMI) individuals — transportation to medical treatments.".
Definition nmt_cite : string :=
  "Qualifying Activities: 12 CFR 25.04(c)(3) Topic L (Community support services) — example: transportation to medical treatments for LMI individuals.".
Definition food_criterion : string :=
  "Community development services / community support services targeted to LMI individuals — food access support as a community service (when structured for LMI populations).".
Definition food_cite : string :=
  "Qualifying Activities: 12 CFR 25.04(c)(3) Topic L (Community support services) — community services for LMI individuals (structure matters).".
Definition care_criterion : string :=
  "Community development services targeted to LMI individuals — health services / community services that improve access (depending on structure and beneficiaries).".
Definition care_cite : string :=
  "Qualifying Activities: 12 CFR 25.04(c)(3) Topic L (Community support services) — health/community services for LMI individuals (structure matters).".
End CRA_CRITERIA.

(** The object [bestByKey]: for each key, the first finding of the list
    that carries it. *)
Definition bestByKey (fs : list Finding.t) : gmap string Finding.t :=
  foldl
    (fun m f =>
       match m !! Finding.key f with
       | Some _ => m
       | None => <[Finding.key f := f]> m
       end)
    ∅ fs.

Definition scoreOpportunity
  (eligibilityClarity responsiveness attributionStrength docBurden : Q) : Z :=
  round ((30 # 100) * eligibilityClarity + (30 # 100) * responsiveness
         + (25 # 100) * attributionStrength
         + (15 # 100) * (100 - docBurden)).

Definition attribution : Q := 70.

Definition scope_text : string :=
  "Prefer AA attribution: document beneficiary location (ZIP/tract/county) and service delivery within AA; if broader, document proportional benefit.".

Definition strength_of (score : Z) : string :=
  if (75 <=? score)%Z then "Strong"
  else if (60 <=? score)%Z then "Moderate"
  else "Weak".

(** [clamp(f.score, 0, 100)] for the best finding [f] of a category. *)
Definition responsiveness_of (score : Z) : Q := clamp (inject_Z score) 0 100.

(** The responsiveness of the transportation block, where
    [f = bestByKey.transport || {score:55}]. *)
Definition transport_responsiveness (best : gmap string Finding.t) : Q :=
  responsiveness_of
    (match best !! "transport" with
     | Some f => Finding.score f
     | None => 55%Z
     end).

Definition transport_opportunity (best : gmap string Finding.t)
  : Opportunity.t :=
  let score :=
    scoreOpportunity 90 (transport_responsiveness best) attribution 35 in
  {| Opportunity.opp :=
       "Transportation-to-care (NEMT) — missed appointment mitigation";
     Opportunity.kind := "nmt";
     Opportunity.tests :=
       "Service • Investment (as structured) • CD Loans (as structured)";
     Opportunity.criterion :=
       CRA_CRITERIA.nmt_criterion +:+ " " +:+ CRA_CRITERIA.nmt_cite;
     Opportunity.strength := strength_of score;
     Opportunity.score := score;
     Opportunity.scope := scope_text;
     Opportunity.checklist :=
       "CHNA excerpt(s) with overall + age-band differential; target population definition (LMI and/or qualifying segments); service area map; vendor/partner agreement; invoices; ride logs; beneficiary counts; monitoring report cadence." |}.

Definition food_opportunity (f : Finding.t) : Opportunity.t :=
  let score :=
    scoreOpportunity 80 (responsiveness_of (Finding.score f)) attribution 45 in
  {| Opportunity.opp :=
       "Food access support — distribution / vouchers / meal supports";
     Opportunity.kind := "food";
     Opportunity.tests := "Investment • Service (depending on structure)";
     Opportunity.criterion :=
       CRA_CRITERIA.food_criterion +:+ " " +:+ CRA_CRITERIA.food_cite;
     Opportunity.strength := strength_of score;
     Opportunity.score := score;
     Opportunity.scope := scope_text;
     Opportunity.checklist :=
       "CHNA food measure; LMI targeting method; partner agreement; distribution logs; invoices; beneficiary counts; monitoring plan." |}.

Definition care_opportunity (f : Finding.t) : Opportunity.t :=
  let score :=
    scoreOpportunity 75 (responsiveness_of (Finding.score f)) attribution 50 in
  {| Opportunity.opp :=
       "Care navigation / referral infrastructure — access enablement";
     Opportunity.kind := "care";
     Opportunity.tests := "Service • Investment (as structured)";
     Opportunity.criterion :=
       CRA_CRITERIA.care_criterion +:+ " " +:+ CRA_CRITERIA.care_cite;
     Opportunity.strength := strength_of score;
     Opportunity.score := score;
     Opportunity.scope := scope_text;
     Opportunity.checklist :=
       "CHNA access barrier evidence; workflow description; staffing records; referral counts; LMI targeting; monitoring plan." |}.

(** The array [opps] before it is sorted. *)
Definition opps_unsorted (fs : list Finding.t) : list Opportunity.t :=
  let best := bestByKey fs in
  [transport_opportunity best]
  ++ match best !! "food" with
     | Some f => [food_opportunity f]
     | None => []
     end
  ++ match best !! "access" with
     | Some f => [care_opportunity f]
     | None => []
     end.

Definition buildOpportunities (st : State.t) : State.t :=
  let opps := sort_desc Opportunity.score (opps_unsorted (State.findings st)) in
  State.with_opportunities opps (hd_error opps) st.

Definition tier3Unlocked (st : State.t) : bool :=
  existsb (fun o => (60 <=? Opportunity.score o)%Z) (State.opportunities st).

(** What the click handler of [btn_reset] assigns to [state]; the scenario
    cache [state.model] is not among the fields it clears. *)
Definition reset (st : State.t) : State.t :=
  {| State.docs := []; State.evidence := []; State.findings := [];
     State.opportunities := []; State.selectedOpp := None;
     State.transport := Transport.empty; State.chnaEval := [];
     State.model := State.model st |}.

(** The click handler of [btn_process] once the files are parsed into
    [ds] (at least one document): clear, scan, evaluate, score,
    synthesize. *)
Definition process (ds : list Doc.t) (st : State.t) : State.t :=
  let st0 :=
    {| State.docs := ds; State.evidence := []; State.findings := [];
       State.opportunities := []; State.selectedOpp := None;
       State.transport := Transport.empty; State.chnaEval := [];
       State.model := State.model st |} in
  let st1 := scanDocs ds st0 in
  let st2 :=
    {| State.docs := State.docs st1; State.evidence := State.evidence st1;
       State.findings := State.findings st1;
       State.opportunities := State.opportunities st1;
       State.selectedOpp := State.selectedOpp st1;
       State.transport := State.transport st1;
       State.chnaEval := List.map evalDocForElements ds;
       State.model := State.model st1 |} in
  buildOpportunities (computeMateriality st2).

(* ================================================================== *)
(** ** Financial projection engine *)
(* ================================================================== *)

(** The values of the form fields [runTier3] reads. *)
Module Tier3Form.
Record t : Type :=
  { inp_months : text;
    inp_annual : text;
    inp_base : text;
    inp_share : text;
    inp_red : text;
    inp_cov : text;
    inp_weight_mode : text;
    inp_sen_share : text;
    inp_benefit : text;
    inp_startup : text;
    inp_fixed : text;
    inp_var : text;
    inp_units : text }.
End Tier3Form.

(** The constants [runTier3] declares from the form. *)
Module Tier3.
Record t : Type :=
  { months : num;
    annual : num;
    baseRate : num;
    share : num;
    red : num;
    covPct : num;
    weightMode : text;
    senSharePct : num;
    benefitPer : num;
    startup : num;
    fixed : num;
    varCost : num;
    unitsPer : num }.
End Tier3.

Definition hundred : num := Fin 100.

Definition tier3_read (f : Tier3Form.t) : Tier3.t :=
  {| Tier3.months := parseInt (or_text (Tier3Form.inp_months f) (lit "12"));
     Tier3.annual := parseFloat (or_text (Tier3Form.inp_annual f) (lit "0"));
     Tier3.baseRate :=
       div (parseFloat (or_text (Tier3Form.inp_base f) (lit "0"))) hundred;
     Tier3.share :=
       div (parseFloat (or_text (Tier3Form.inp_share f) (lit "0"))) hundred;
     Tier3.red :=
       div (parseFloat (or_text (Tier3Form.inp_red f) (lit "0"))) hundred;
     Tier3.covPct := parseFloat (or_text (Tier3Form.inp_cov f) (lit "25"));
     Tier3.weightMode := Tier3Form.inp_weight_mode f;
     Tier3.senSharePct :=
       nclamp (parseFloat (or_text (Tier3Form.inp_sen_share f) (lit "25")))
         (Fin 0) hundred;
     Tier3.benefitPer :=
       parseFloat (or_text (Tier3Form.inp_benefit f) (lit "0"));
     Tier3.startup := parseFloat (or_text (Tier3Form.inp_startup f) (lit "0"));
     Tier3.fixed := parseFloat (or_text (Tier3Form.inp_fixed f) (lit "0"));
     Tier3.varCost := parseFloat (or_text (Tier3Form.inp_var f) (lit "0"));
     Tier3.unitsPer := parseFloat (or_text (Tier3Form.inp_units f) (lit "1")) |}.

Definition text_eqb (a b : text) : bool :=
  (length a =? length b)%nat && starts_with a b.

(** [ampFactor]: the ratio of the two transportation scalars when both are
    known and the overall one is positive, 1.0 otherwise and in flat mode. *)
Definition ampFactor (tr : Transport.t) (weightMode : text) : num :=
  if text_eqb weightMode (lit "flat") then Fin 1
  else
    match Transport.overall tr, Transport.age6574 tr with
    | Some o, Some a => if Qgtb o 0 then Fin (a / o) else Fin 1
    | _, _ => Fin 1
    end.

Definition effBarrierShare (tr : Transport.t) (p : Tier3.t) : num :=
  let senShare := div (Tier3.senSharePct p) hundred in
  nclamp
    (mul (Tier3.share p)
       (add (mul (sub (Fin 1) senShare) (Fin 1))
            (mul senShare (ampFactor tr (Tier3.weightMode p)))))
    (Fin 0) (Fin 1).

(** The chain from a coverage percentage to the annual net impact; the
    break-even sweep runs it again for every coverage from 5 to 60. *)
Definition prevented_at (tr : Transport.t) (p : Tier3.t) (cov : num) : num :=
  let eligible := mul (Tier3.annual p) (div cov hundred) in
  let baselineDisrupt := mul eligible (Tier3.baseRate p) in
  let barrierDisrupt := mul baselineDisrupt (effBarrierShare tr p) in
  mul barrierDisrupt (Tier3.red p).

Definition totalCostH_at (tr : Transport.t) (p : Tier3.t) (cov : num) : num :=
  let unitsAnnual := mul (prevented_at tr p cov) (Tier3.unitsPer p) in
  add (add (Tier3.startup p) (mul (Tier3.fixed p) (Tier3.months p)))
      (mul (mul unitsAnnual (div (Tier3.months p) (Fin 12)))
           (Tier3.varCost p)).

Definition annualCost_at (tr : Transport.t) (p : Tier3.t) (cov : num) : num :=
  mul (totalCostH_at tr p cov) (div (Fin 12) (Tier3.months p)).

Definition netAnnual_at (tr : Transport.t) (p : Tier3.t) (cov : num) : num :=
  sub (mul (prevented_at tr p cov) (Tier3.benefitPer p))
      (annualCost_at tr p cov).

(** The series [nets] of the break-even chart. *)
Definition breakeven_nets (tr : Transport.t) (p : Tier3.t) : list num :=
  List.map (fun c => netAnnual_at tr p (of_Z (Z.of_nat c))) (seq 5 56).

Definition tier3_model (tr : Transport.t) (p : Tier3.t) : Model.t :=
  let prevented := prevented_at tr p (Tier3.covPct p) in
  {| Model.months := Tier3.months p;
     Model.annual_touchpoints := Tier3.annual p;
     Model.prevented_disruptions := prevented;
     Model.units_annual := mul prevented (Tier3.unitsPer p);
     Model.total_cost_horizon := totalCostH_at tr p (Tier3.covPct p);
     Model.annual_cost := annualCost_at tr p (Tier3.covPct p);
     Model.gross_annual_benefit := mul prevented (Tier3.benefitPer p);
     Model.net_annual := netAnnual_at tr p (Tier3.covPct p) |}.

(** [runTier3], as far as [state] goes: the scenario is computed from the
    form and the transportation scalars and stored in [state.model]. *)
Definition runTier3 (f : Tier3Form.t) (st : State.t) : State.t :=
  State.with_model
    (Some (tier3_model (State.transport st) (tier3_read f))) st.

(** [_normRate]. *)
Definition _normRate (x : num) : num :=
  if isNaN x then Fin 0
  else if gtb x (Fin 1) then div x hundred else x.

Module RoiForm.
Record t : Type :=
  { a_visits : text; a_noshow : text; a_share : text; a_netrev : text;
    a_margc : text; b_mitig : text; b_trip : text; b_over : text;
    c_lmi : text; c_aa : text; c_bank : text }.
End RoiForm.

Module RoiInputs.
Record t : Type :=
  { visits : num; noshow : num; share : num; netrev : num; margc : num;
    mitig : num; trip : num; over : num; lmi : num; aa : num; bank : num }.
End RoiInputs.

Definition roi_inputs (f : RoiForm.t) : RoiInputs.t :=
  {| RoiInputs.visits := or_default (parseFloat (RoiForm.a_visits f)) (Fin 0);
     RoiInputs.noshow := _normRate (parseFloat (RoiForm.a_noshow f));
     RoiInputs.share := _normRate (parseFloat (RoiForm.a_share f));
     RoiInputs.netrev := or_default (parseFloat (RoiForm.a_netrev f)) (Fin 0);
     RoiInputs.margc := or_default (parseFloat (RoiForm.a_margc f)) (Fin 0);
     RoiInputs.mitig := _normRate (parseFloat (RoiForm.b_mitig f));
     RoiInputs.trip := or_default (parseFloat (RoiForm.b_trip f)) (Fin 0);
     RoiInputs.over := _normRate (parseFloat (RoiForm.b_over f));
     RoiInputs.lmi := _normRate (parseFloat (RoiForm.c_lmi f));
     RoiInputs.aa := _normRate (parseFloat (RoiForm.c_aa f));
     RoiInputs.bank := or_default (parseFloat (RoiForm.c_bank f)) (Fin 0) |}.

(** The numeric fields of what [roi_calc] returns. *)
Module RoiOutputs.
Record t : Type :=
  { transport_no_shows : num; prevented : num; gross_rev : num;
    marginal_cost : num; transport_cost : num; overhead_cost : num;
    total_program_cost : num; net_benefit : num; be_trip_max : num;
    trips : num; lmi_trips : num; aa_trips : num; bank_per_lmi : num;
    bank_share_cost : num }.
End RoiOutputs.

Definition roi_calc (inp : RoiInputs.t) : RoiOutputs.t :=
  let transport_no_shows :=
    mul (mul (RoiInputs.visits inp) (RoiInputs.noshow inp))
        (RoiInputs.share inp) in
  let prevented := mul transport_no_shows (RoiInputs.mitig inp) in
  let gross_rev := mul prevented (RoiInputs.netrev inp) in
  let marginal_cost := mul prevented (RoiInputs.margc inp) in
  let transport_cost := mul prevented (RoiInputs.trip inp) in
  let overhead_cost := mul transport_cost (RoiInputs.over inp) in
  let total_program_cost := add transport_cost overhead_cost in
  let lmi_trips := mul prevented (RoiInputs.lmi inp) in
  {| RoiOutputs.transport_no_shows := transport_no_shows;
     RoiOutputs.prevented := prevented;
     RoiOutputs.gross_rev := gross_rev;
     RoiOutputs.marginal_cost := marginal_cost;
     RoiOutputs.transport_cost := transport_cost;
     RoiOutputs.overhead_cost := overhead_cost;
     RoiOutputs.total_program_cost := total_program_cost;
     RoiOutputs.net_benefit :=
       sub (sub gross_rev marginal_cost) total_program_cost;
     RoiOutputs.be_trip_max :=
       sub (RoiInputs.netrev inp) (RoiInputs.margc inp);
     RoiOutputs.trips := prevented;
     RoiOutputs.lmi_trips := lmi_trips;
     RoiOutputs.aa_trips := mul prevented (RoiInputs.aa inp);
     RoiOutputs.bank_per_lmi :=
       if is_zero lmi_trips then Fin 0
       else div (RoiInputs.bank inp) lmi_trips;
     RoiOutputs.bank_share_cost :=
       if is_zero total_program_cost then Fin 0
       else div (RoiInputs.bank inp) total_program_cost |}.

(* ================================================================== *)
(** ** Reading-order views used in the statements *)
(* ================================================================== *)

(** The page texts of a sequence of documents, in reading order. *)
Definition page_texts (ds : list Doc.t) : list text :=
  flat_map Doc.textByPage ds.

(** The value the overall pattern finds on a page, if any. *)
Definition overall_match (t : text) : option Q :=
  option_map val (findPercentNear t (lit "transportation")).

(** The value the age-band pattern finds on a page, if any. *)
Definition age_match (t : text) : option Q :=
  option_map val (findAge6574Transport t).

(** The successful matches of a pattern over pages, in reading order. *)
Definition matches (m : text -> option Q) (pages : list text) : list Q :=
  omap m pages.

(** "Overwritten by the latest match": the last match if there is one, the
    value held before otherwise. *)
Definition latest (before : option Q) (ms : list Q) : option Q :=
  List.last (List.map Some ms) before.

(** "Set once": the value held before if there is one, the first match
    otherwise. *)
Definition earliest (before : option Q) (ms : list Q) : option Q :=
  match before with
  | Some v => Some v
  | None => hd_error ms
  end.

(* ================================================================== *)
(** ** Sequences of submissions to the aggregator *)
(* ================================================================== *)

(** What one call of [addFinding] submits for an identity. *)
Module Submission.
Record t : Type :=
  { disparity : string; magnitude : Q; prominence : nat;
    evidenceRef : string }.
End Submission.

Definition submit (key segment : string) (st : State.t) (s : Submission.t)
  : State.t :=
  addFinding key (Submission.disparity s) segment (Submission.magnitude s)
    (Submission.prominence s) (Submission.evidenceRef s) st.

Definition submit_all (key segment : string) (subs : list Submission.t)
  (st : State.t) : State.t :=
  foldl (submit key segment) st subs.

(** The finding stored for an identity, as [addFinding] looks it up. *)
Definition stored (key segment : string) (st : State.t) : option Finding.t :=
  List.find (Finding.has_id (finding_id key segment)) (State.findings st).

(** The record [addFinding] creates for a new identity. *)
Definition fresh (key segment : string) (s : Submission.t) : Finding.t :=
  {| Finding.id := finding_id key segment;
     Finding.key := key;
     Finding.disparity := Submission.disparity s;
     Finding.segment := segment;
     Finding.magnitude := Submission.magnitude s;
     Finding.prominence := Submission.prominence s;
     Finding.concentration := 0;
     Finding.score := 0%Z;
     Finding.recommend := "";
     Finding.evidenceRef := Submission.evidenceRef s |}.

(** The stored record after [addFinding] has met it with a submission. *)
Definition absorb (ex : Finding.t) (s : Submission.t) : Finding.t :=
  if Qgtb (Submission.magnitude s) (Finding.magnitude ex) then
    {| Finding.id := Finding.id ex;
       Finding.key := Finding.key ex;
       Finding.disparity := Finding.disparity ex;
       Finding.segment := Finding.segment ex;
       Finding.magnitude := Submission.magnitude s;
       Finding.prominence :=
         Nat.max (Finding.prominence ex) (Submission.prominence s);
       Finding.concentration := Finding.concentration ex;
       Finding.score := Finding.score ex;
       Finding.recommend := Finding.recommend ex;
       Finding.evidenceRef := Submission.evidenceRef s |}
  else ex.

(** The submissions that raise the stored magnitude [cur], each strictly
    above everything accepted before it. *)
Fixpoint record_breakers (cur : Q) (subs : list Submission.t)
  : list Submission.t :=
  match subs with
  | [] => []
  | s :: rest =>
      if Qgtb (Submission.magnitude s) cur
      then s :: record_breakers (Submission.magnitude s) rest
      else record_breakers cur rest
  end.

(** The largest of a list of prominence values. *)
Definition max_prominence (subs : list Submission.t) : nat :=
  list_max (List.map Submission.prominence subs).

(* ================================================================== *)
(** ** Presence counts of the checklist blocks *)
(* ================================================================== *)

(** An element is present when the lower-cased text includes one of its
    trigger phrases. *)
Definition element_present (lower : text) (el : Element.t) : bool :=
  existsb (fun p => includes lower (toLowerCase p)) (Element.pats el).

Definition present_count (lower : text) (block : list Element.t) : nat :=
  length (List.filter (element_present lower) block).

(** The percentage law of a block: [Math.round(present / total * 100)]. *)
Definition percent_score (present total : nat) : Z :=
  round (inject_Z (Z.of_nat present) / inject_Z (Z.of_nat total) * 100).

(** The four levels of the comment-solicitation block. *)
Definition comment_level (present : nat) : Z :=
  match present with
  | 0%nat => 0%Z
  | 1%nat => 33%Z
  | 2%nat => 67%Z
  | _ => 100%Z
  end.

(** The lower-cased text of a document, as [evalDocForElements] builds it. *)
Definition doc_lower (doc : Doc.t) : text :=
  toLowerCase (join_pages (Doc.textByPage doc)).

(* ================================================================== *)
(** ** Projection scenarios with finite parameters *)
(* ================================================================== *)

(** A scenario all of whose numeric parameters are finite. *)
Module Scenario.
Record t : Type :=
  { annual : Q; baseRate : Q; share : Q; red : Q; covPct : Q;
    weightMode : text; senSharePct : Q; benefitPer : Q; varCost : Q;
    unitsPer : Q }.
End Scenario.


(** Every trigger phrase of a block is a non-empty string. *)
Definition nonempty_pats (block : list Element.t) : bool :=
  forallb
    (fun el => forallb (fun p => negb (length p =? 0)%nat) (Element.pats el))
    block.

(** Every input of [roi_calc] is a finite number. *)
Definition roi_inputs_finite (inp : RoiInputs.t) : bool :=
  forallb isFinite
    [ RoiInputs.visits inp; RoiInputs.noshow inp; RoiInputs.share inp;
      RoiInputs.netrev inp; RoiInputs.margc inp; RoiInputs.mitig inp;
      RoiInputs.trip inp; RoiInputs.over inp; RoiInputs.lmi inp;
      RoiInputs.aa inp; RoiInputs.bank inp ].

(** The document the click handler of [btn_demo] loads; the handler then runs
    the same steps as [process]. *)
Definition demoText : text :=
  lit "Why did you not get or delay getting the preventative care you thought you needed? Total: I had transportation problems 2.7%. Age 65-74: I had transportation problems 8.5%. Of patients surveyed, 7.5% reported food insecurity and 6% reported housing needs. Unweighted count 61. Martin County ZIP 56031.".

Definition demo_doc : Doc.t :=
  {| Doc.name := "Demo_CHNA.pdf"; Doc.type := "pdf"; Doc.pages := 1;
     Doc.textByPage := [demoText] |}.

(** A single-page text document. *)
Definition txt_doc (name : string) (page : string) : Doc.t :=
  {| Doc.name := name; Doc.type := "txt"; Doc.pages := 1;
     Doc.textByPage := [lit page] |}.

(** A form of [runTier3] with the given horizon and annual volume, the other
    fields holding plain decimal values. *)
Definition sample_form (months annual : string) : Tier3Form.t :=
  {| Tier3Form.inp_months := lit months;
     Tier3Form.inp_annual := lit annual;
     Tier3Form.inp_base := lit "20";
     Tier3Form.inp_share := lit "10";
     Tier3Form.inp_red := lit "30";
     Tier3Form.inp_cov := lit "25";
     Tier3Form.inp_weight_mode := lit "weighted";
     Tier3Form.inp_sen_share := lit "25";
     Tier3Form.inp_benefit := lit "150";
     Tier3Form.inp_startup := lit "1000";
     Tier3Form.inp_fixed := lit "500";
     Tier3Form.inp_var := lit "20";
     Tier3Form.inp_units := lit "1" |}.

(* ================================================================== *)
(** ** Utilities, views of the state and report *)
(* ================================================================== *)

(** [s.replaceAll(c, rep)] for a pattern of one code unit. *)
Definition replaceAll_unit (c : N) (rep s : text) : text :=
  flat_map (fun x => if (x =? c)%N then rep else [x]) s.

(** [escapeHtml]; a falsy argument reaches it as the empty string. *)
Definition escapeHtml (s : text) : text :=
  replaceAll_unit 62 (lit "&gt;")
    (replaceAll_unit 60 (lit "&lt;")
       (replaceAll_unit 38 (lit "&amp;") s)).

(** The replacement [escapeHtml] makes for one code unit. *)
Definition escape_unit (c : N) : text :=
  if (c =? 38)%N then lit "&amp;"
  else if (c =? 60)%N then lit "&lt;"
  else if (c =? 62)%N then lit "&gt;"
  else [c].


(** [arr.slice(-n)]: the last [n] elements, all of them when there are
    fewer. *)
Definition slice_last {A : Type} (n : nat) (l : list A) : list A :=
  skipn (length l - n) l.

(** The object [exportReport] serializes, without its time stamp. *)
Module Report.
Record t : Type :=
  { docs : list (string * nat * string);
    transport : Transport.t;
    tier1_findings : list Finding.t;
    tier2_opportunities : list Opportunity.t;
    evidence : list Evidence.t }.
End Report.

Definition exportReport (st : State.t) : Report.t :=
  {| Report.docs :=
       List.map (fun d => (Doc.name d, Doc.pages d, Doc.type d))
         (State.docs st);
     Report.transport := State.transport st;
     Report.tier1_findings := State.findings st;
     Report.tier2_opportunities := State.opportunities st;
     Report.evidence := slice_last 100 (State.evidence st) |}.

(** The rows [renderEvidence] shows: [state.evidence.slice(-25).reverse()]. *)
Definition evidence_rows (st : State.t) : list Evidence.t :=
  rev (slice_last 25 (State.evidence st)).

(** [Math.max(...l)] for a non-empty array [x :: l] of integers. *)
Definition max_of (x : Z) (l : list Z) : Z := fold_left Z.max l x.

(** The indicators [renderChnaGaps] derives from all evaluations. *)
Module GapKpis.
Record t : Type :=
  { chnaMax : Z; isMax : Z; wcMax : Z; pubMax : Z;
    kpi_input_req : string; kpi_public_avail : string }.
End GapKpis.

(** The aggregation of [renderChnaGaps]; with no evaluation the function
    returns before it computes anything. *)
Definition chna_kpis (evals : list ChnaEval.t) : option GapKpis.t :=
  match evals with
  | [] => None
  | e :: es =>
      let wcMax :=
        max_of (ChnaEval.writtenCommentsScore e)
          (List.map ChnaEval.writtenCommentsScore es) in
      let pubMax :=
        max_of (ChnaEval.publicScore e) (List.map ChnaEval.publicScore es) in
      Some
        {| GapKpis.chnaMax :=
             max_of (ChnaEval.chnaScore e) (List.map ChnaEval.chnaScore es);
           GapKpis.isMax :=
             max_of (ChnaEval.isScore e) (List.map ChnaEval.isScore es);
           GapKpis.wcMax := wcMax;
           GapKpis.pubMax := pubMax;
           GapKpis.kpi_input_req :=
             if (wcMax =? 100)%Z then "Meets (3/3)"
             else if (wcMax =? 67)%Z then "Partial (2/3)"
             else if (wcMax =? 33)%Z then "Weak (1/3)"
             else "Missing (0/3)";
           GapKpis.kpi_public_avail :=
             if (pubMax =? 100)%Z then "Detected" else "Not detected" |}
  end.

(** The labels of the missing elements of one block. *)
Definition missing_labels (hits : list ElementHit.t) : list string :=
  List.map ElementHit.label
    (List.filter (fun h => negb (ElementHit.present h)) hits).

(** The list [gaps] of one document in [renderChnaGaps]: the first three
    missing elements across the three blocks. *)
Definition doc_gaps (d : ChnaEval.t) : list string :=
  firstn 3
    (missing_labels (ChnaEval.chnaHits d)
     ++ missing_labels (ChnaEval.isHits d)
     ++ missing_labels (ChnaEval.wcHits d)).

(** The count [shortlist] of [renderTier1]. *)
Definition shortlist (st : State.t) : nat :=
  length (List.filter (fun f => (55 <=? Finding.score f)%Z) (State.findings st)).

(* ================================================================== *)
(** ** Optional layers of the ROI model *)
(* ================================================================== *)

(** [x >= y]; false as soon as one side is NaN. *)
Definition geb (x y : num) : bool :=
  match x, y with
  | NaN, _ | _, NaN => false
  | Fin a, Fin b => Qgeb a b
  | PInf, _ | _, NInf => true
  | _, _ => false
  end.

Module CodingForm.
Record t : Type :=
  { toggle_coding : bool; z_rate : text; z_uplift : text; cpt_rate : text;
    cpt_uplift : text; coding_base : text }.
End CodingForm.

(** The field [uplift] of what [coding_uplift] returns. *)
Definition coding_uplift (f : CodingForm.t) (preventedVisits allVisits : num)
  : num :=
  if negb (CodingForm.toggle_coding f) then Fin 0
  else
    let zRate := _normRate (parseFloat (CodingForm.z_rate f)) in
    let zUplift := or_default (parseFloat (CodingForm.z_uplift f)) (Fin 0) in
    let cptRate := _normRate (parseFloat (CodingForm.cpt_rate f)) in
    let cptUplift :=
      or_default (parseFloat (CodingForm.cpt_uplift f)) (Fin 0) in
    let n :=
      if text_eqb (CodingForm.coding_base f) (lit "all") then allVisits
      else preventedVisits in
    add (mul (mul n zRate) zUplift) (mul (mul n cptRate) cptUplift).

Module CcmForm.
Record t : Type :=
  { toggle_ccm : bool;
    ccm_patients : text; ccm_enroll : text; ccm_months : text;
    ccm_allowed : text; ccm_success : text; ccm_staff_rate : text;
    ccm_minutes : text;
    tcm_discharges : text; tcm_reach : text; tcm_high_share : text;
    tcm_allow_mod : text; tcm_allow_high : text; tcm_success : text;
    tcm_minutes : text; tcm_staff_rate : text }.
End CcmForm.

(** The numeric fields of what [ccm_tcm_calc] returns. *)
Module CcmOut.
Record t : Type :=
  { ccm_net : num; tcm_net : num; ccm_gross : num; tcm_gross : num;
    ccm_labor : num; tcm_labor : num; enabled : bool }.
End CcmOut.

(** [parseFloat(v)||0]. *)
Definition num_or_0 (v : text) : num := or_default (parseFloat v) (Fin 0).

(** [_normRate(parseFloat(v)||0)]. *)
Definition rate_or_0 (v : text) : num := _normRate (num_or_0 v).

Definition ccm_tcm_calc (f : CcmForm.t) : CcmOut.t :=
  if negb (CcmForm.toggle_ccm f) then
    {| CcmOut.ccm_net := Fin 0; CcmOut.tcm_net := Fin 0;
       CcmOut.ccm_gross := Fin 0; CcmOut.tcm_gross := Fin 0;
       CcmOut.ccm_labor := Fin 0; CcmOut.tcm_labor := Fin 0;
       CcmOut.enabled := false |}
  else
    let ccm_enrolled :=
      mul (num_or_0 (CcmForm.ccm_patients f)) (rate_or_0 (CcmForm.ccm_enroll f)) in
    let ccm_billed_months :=
      mul (mul ccm_enrolled (num_or_0 (CcmForm.ccm_months f)))
          (rate_or_0 (CcmForm.ccm_success f)) in
    let ccm_gross := mul ccm_billed_months (num_or_0 (CcmForm.ccm_allowed f)) in
    let ccm_labor :=
      mul (mul ccm_billed_months (num_or_0 (CcmForm.ccm_minutes f)))
          (num_or_0 (CcmForm.ccm_staff_rate f)) in
    let tcm_episodes :=
      mul (mul (num_or_0 (CcmForm.tcm_discharges f))
               (rate_or_0 (CcmForm.tcm_reach f)))
          (rate_or_0 (CcmForm.tcm_success f)) in
    let tcm_high_share := rate_or_0 (CcmForm.tcm_high_share f) in
    let tcm_avg_allowed :=
      add (mul tcm_high_share (num_or_0 (CcmForm.tcm_allow_high f)))
          (mul (sub (Fin 1) tcm_high_share)
               (num_or_0 (CcmForm.tcm_allow_mod f))) in
    let tcm_gross := mul tcm_episodes tcm_avg_allowed in
    let tcm_labor :=
      mul (mul tcm_episodes (num_or_0 (CcmForm.tcm_minutes f)))
          (num_or_0 (CcmForm.tcm_staff_rate f)) in
    {| CcmOut.ccm_net := sub ccm_gross ccm_labor;
       CcmOut.tcm_net := sub tcm_gross tcm_labor;
       CcmOut.ccm_gross := ccm_gross; CcmOut.tcm_gross := tcm_gross;
       CcmOut.ccm_labor := ccm_labor; CcmOut.tcm_labor := tcm_labor;
       CcmOut.enabled := true |}.

Module VbcForm.
Record t : Type :=
  { toggle_vbc : bool; vbc_type : text; vbc_at_risk : text;
    vbc_baseline : text; vbc_projected : text; vbc_threshold : text;
    vbc_bonus : text }.
End VbcForm.

(** The fields [earn] and [enabled] of what [vbc_calc] returns. *)
Definition vbc_calc (f : VbcForm.t) : num * bool :=
  if negb (VbcForm.toggle_vbc f) then (Fin 0, false)
  else
    let vbc_type := or_text (VbcForm.vbc_type f) (lit "earnback") in
    let at_risk := num_or_0 (VbcForm.vbc_at_risk f) in
    let baseline := num_or_0 (VbcForm.vbc_baseline f) in
    let projected := num_or_0 (VbcForm.vbc_projected f) in
    if text_eqb vbc_type (lit "earnback") then
      let delta := max (Fin 0) (sub projected baseline) in
      (mul (div delta hundred) at_risk, true)
    else
      let threshold := num_or_0 (VbcForm.vbc_threshold f) in
      let bonus := num_or_0 (VbcForm.vbc_bonus f) in
      let clears := geb projected threshold in
      let baseClears := geb baseline threshold in
      (if clears && negb baseClears then bonus else Fin 0, true).

(** The figures [render_roi] derives and stores in [state.model]:
    [totalNet], [roiTotal] and [allin]. *)
Module RoiTotals.
Record t : Type := { totalNet : num; roiTotal : num; allin : num }.
End RoiTotals.

Definition render_roi (rf : RoiForm.t) (cf : CodingForm.t) (mf : CcmForm.t)
  (vf : VbcForm.t) : RoiTotals.t :=
  let inp := roi_inputs rf in
  let out := roi_calc inp in
  let cu := coding_uplift cf (RoiOutputs.prevented out) (RoiInputs.visits inp) in
  let totalNet := add (RoiOutputs.net_benefit out) cu in
  let cct := ccm_tcm_calc mf in
  let vbc := vbc_calc vf in
  {| RoiTotals.totalNet := totalNet;
     RoiTotals.roiTotal :=
       if is_zero (RoiOutputs.total_program_cost out) then Fin 0
       else div totalNet (RoiOutputs.total_program_cost out);
     RoiTotals.allin :=
       add (add totalNet
              (if CcmOut.enabled cct
               then add (CcmOut.ccm_net cct) (CcmOut.tcm_net cct)
               else Fin 0))
           (if snd vbc then fst vbc else Fin 0) |}.


(** A row of the three-year pro forma: [{yr, rev, marg, prog, net}]. *)
Module ProFormaRow.
Record t : Type :=
  { yr : nat; rev : num; marg : num; prog : num; net : num }.
End ProFormaRow.



(* ================================================================== *)
(** ** Notions used in the invariants of the scan *)
(* ================================================================== *)

(** The shape of the text the capture group takes: one or two digits, then
    nothing or a dot and at least one digit. *)
Definition captured (c : text) (ip fp : text) : Prop :=
  (1 <= length ip <= 2)%nat
  /\ forallb is_digit ip = true
  /\ forallb is_digit fp = true
  /\ c = ip ++ match fp with [] => [] | _ => 46%N :: fp end.

(** What one of the two finders can return. *)
Definition is_hit (h : hit) : Prop :=
  (exists t keyword, findPercentNear t keyword = Some h)
  \/ (exists t, findAge6574Transport t = Some h).

(** The (key, label, segment) triples with which [scanDoc] calls
    [addFinding]: the two transportation segments, and the overall segment
    of every other disparity. *)
Definition call_sites : list (string * string * string) :=
  [ ("transport", "Transportation barrier", seg_overall);
    ("transport", "Transportation barrier", seg_age6574) ]
  ++ List.map
       (fun d => (Disparity.key d, Disparity.label d, seg_overall))
       (List.filter
          (fun d => negb (String.eqb (Disparity.key d) "transport"))
          DISPARITIES).

(** The identities [scanDoc] can create. *)
Definition finding_ids : list string :=
  List.map (fun c => finding_id (fst (fst c)) (snd c)) call_sites.


(** The document [doc] with further pages after its own. *)
Definition append_pages (doc : Doc.t) (more : list text) : Doc.t :=
  {| Doc.name := Doc.name doc; Doc.type := Doc.type doc;
     Doc.pages := Doc.pages doc + length more;
     Doc.textByPage := Doc.textByPage doc ++ more |}.

(** The lower-cased text includes one of the public-availability phrases. *)
Definition public_signal (lower : text) : bool :=
  existsb (fun p => includes lower (toLowerCase p)) publicPats.

(** Inputs of [roi_calc] that are all finite. *)
Definition fin_inputs (visits noshow share netrev margc mitig trip over lmi aa
                         bank : Q) : RoiInputs.t :=
  {| RoiInputs.visits := Fin visits; RoiInputs.noshow := Fin noshow;
     RoiInputs.share := Fin share; RoiInputs.netrev := Fin netrev;
     RoiInputs.margc := Fin margc; RoiInputs.mitig := Fin mitig;
     RoiInputs.trip := Fin trip; RoiInputs.over := Fin over;
     RoiInputs.lmi := Fin lmi; RoiInputs.aa := Fin aa;
     RoiInputs.bank := Fin bank |}.

(** Example values of the ROI form and of its optional layers. *)
Definition example_roi_form : RoiForm.t :=
  {| RoiForm.a_visits := lit "10000"; RoiForm.a_noshow := lit "10";
     RoiForm.a_share := lit "25"; RoiForm.a_netrev := lit "180";
     RoiForm.a_margc := lit "60"; RoiForm.b_mitig := lit "30";
     RoiForm.b_trip := lit "55"; RoiForm.b_over := lit "10";
     RoiForm.c_lmi := lit "60"; RoiForm.c_aa := lit "80";
     RoiForm.c_bank := lit "5000" |}.

Definition example_vbc_form (vbc_type : string) (baseline projected : string)
  : VbcForm.t :=
  {| VbcForm.toggle_vbc := true; VbcForm.vbc_type := lit vbc_type;
     VbcForm.vbc_at_risk := lit "100000";
     VbcForm.vbc_baseline := lit baseline;
     VbcForm.vbc_projected := lit projected;
     VbcForm.vbc_threshold := lit "75"; VbcForm.vbc_bonus := lit "5000" |}.

Definition layers_off : CodingForm.t * CcmForm.t * VbcForm.t :=
  ({| CodingForm.toggle_coding := false; CodingForm.z_rate := [];
      CodingForm.z_uplift := []; CodingForm.cpt_rate := [];
      CodingForm.cpt_uplift := []; CodingForm.coding_base := [] |},
   {| CcmForm.toggle_ccm := false;
      CcmForm.ccm_patients := []; CcmForm.ccm_enroll := [];
      CcmForm.ccm_months := []; CcmForm.ccm_allowed := [];
      CcmForm.ccm_success := []; CcmForm.ccm_staff_rate := [];
      CcmForm.ccm_minutes := []; CcmForm.tcm_discharges := [];
      CcmForm.tcm_reach := []; CcmForm.tcm_high_share := [];
      CcmForm.tcm_allow_mod := []; CcmForm.tcm_allow_high := [];
      CcmForm.tcm_success := []; CcmForm.tcm_minutes := [];
      CcmForm.tcm_staff_rate := [] |},
   {| VbcForm.toggle_vbc := false; VbcForm.vbc_type := [];
      VbcForm.vbc_at_risk := []; VbcForm.vbc_baseline := [];
      VbcForm.vbc_projected := []; VbcForm.vbc_threshold := [];
      VbcForm.vbc_bonus := [] |}).

(* ================================================================== *)
(** ** Transportation scalars (scanDoc) *)
(* ================================================================== *)

Section TransportScalars.

Lemma recordEvidence_transport l s d p st :
  State.transport (recordEvidence l s d p st) = State.transport st.
Proof. reflexivity. Qed.

Lemma addFinding_transport k d s m p e st :
  State.transport (addFinding k d s m p e st) = State.transport st.
Proof.
  unfold addFinding.
  destruct (List.find _ _) as [ex|]; [|reflexivity].
  destruct (Qgtb _ _); reflexivity.
Qed.

Lemma scan_other_transport name i t prom st d :
  State.transport (scan_other name i t prom st d) = State.transport st.
Proof.
  unfold scan_other.
  destruct (String.eqb _ _); [reflexivity|].
  destruct (findPercentNear _ _); [|reflexivity].
  now rewrite addFinding_transport, recordEvidence_transport.
Qed.

Lemma scan_others_transport name i t prom (l : list Disparity.t) st :
  State.transport (foldl (scan_other name i t prom) st l) = State.transport st.
Proof.
  revert st. induction l as [|d l IH]; intros st; simpl; [reflexivity|].
  now rewrite IH, scan_other_transport.
Qed.

Lemma scan_overall_transport name i t prom st :
  State.transport (scan_overall name i t prom st) =
  {| Transport.overall :=
       earliest (Transport.overall (State.transport st))
         (matches overall_match [t]);
     Transport.age6574 := Transport.age6574 (State.transport st) |}.
Proof.
  unfold scan_overall, matches, overall_match, earliest. simpl.
  destruct (findPercentNear t _) as [tr|]; simpl.
  - rewrite addFinding_transport, recordEvidence_transport.
    destruct (State.transport st) as [[o|] a] eqn:E; cbn.
    + now rewrite addFinding_transport, recordEvidence_transport.
    + reflexivity.
  - destruct (State.transport st) as [[o|] a]; reflexivity.
Qed.

Lemma scan_age6574_transport name i t prom st :
  State.transport (scan_age6574 name i t prom st) =
  {| Transport.overall := Transport.overall (State.transport st);
     Transport.age6574 :=
       latest (Transport.age6574 (State.transport st))
         (matches age_match [t]) |}.
Proof.
  unfold scan_age6574, matches, age_match, latest. simpl.
  destruct (findAge6574Transport t) as [tr|]; simpl.
  - now rewrite addFinding_transport, recordEvidence_transport.
  - destruct (State.transport st); reflexivity.
Qed.

Lemma earliest_app before a b :
  earliest (earliest before a) b = earliest before (a ++ b).
Proof.
  unfold earliest. destruct before; [reflexivity|].
  destruct a; reflexivity.
Qed.

Lemma latest_app before a b :
  latest (latest before a) b = latest before (a ++ b).
Proof.
  unfold latest. rewrite List.map_app.
  induction b as [|x b IH] using rev_ind; simpl.
  - now rewrite app_nil_r.
  - rewrite List.map_app, app_assoc. simpl. now rewrite !last_last.
Qed.

Lemma matches_app m a b : matches m (a ++ b) = matches m a ++ matches m b.
Proof. apply omap_app. Qed.

Lemma scanPage_transport name i t prom st :
  State.transport (snd (scanPage name i t prom st)) =
  {| Transport.overall :=
       earliest (Transport.overall (State.transport st))
         (matches overall_match [t]);
     Transport.age6574 :=
       latest (Transport.age6574 (State.transport st))
         (matches age_match [t]) |}.
Proof.
  unfold scanPage. cbn [snd].
  rewrite scan_others_transport, scan_age6574_transport,
    scan_overall_transport.
  reflexivity.
Qed.

Lemma scanPages_transport name pages : forall i prom st,
  State.transport (scanPages name i pages prom st) =
  {| Transport.overall :=
       earliest (Transport.overall (State.transport st))
         (matches overall_match pages);
     Transport.age6574 :=
       latest (Transport.age6574 (State.transport st))
         (matches age_match pages) |}.
Proof.
  induction pages as [|t pages IH]; intros i prom st.
  - cbn. destruct (State.transport st) as [[o|] a]; reflexivity.
  - cbn [scanPages].
    pose proof (scanPage_transport name i t prom st) as Hp.
    destruct (scanPage name i t prom st) as [prom' st']. cbn [snd] in Hp.
    rewrite IH, Hp. cbn [Transport.overall Transport.age6574].
    change (t :: pages) with ([t] ++ pages).
    now rewrite !matches_app, earliest_app, latest_app.
Qed.

Lemma scanDocs_transport ds : forall st,
  State.transport (scanDocs ds st) =
  {| Transport.overall :=
       earliest (Transport.overall (State.transport st))
         (matches overall_match (page_texts ds));
     Transport.age6574 :=
       latest (Transport.age6574 (State.transport st))
         (matches age_match (page_texts ds)) |}.
Proof.
  induction ds as [|d ds IH]; intros st.
  - cbn. destruct (State.transport st) as [[o|] a]; reflexivity.
  - unfold page_texts. cbn [scanDocs foldl flat_map].
    fold (scanDocs ds (scanDoc d st)). rewrite IH.
    unfold scanDoc. rewrite scanPages_transport.
    cbn [Transport.overall Transport.age6574].
    fold (page_texts ds).
    now rewrite !matches_app, earliest_app, latest_app.
Qed.

End TransportScalars.

(** C1 (amended): after scanning a sequence of documents, the age-65-74
    scalar is the value of the latest successful match in reading order
    (every new match overwrites it), while the overall scalar is assigned
    only while it is still unknown, so it is the value of the first
    successful match since it was cleared; without a match either scalar
    keeps the value it had. *)
Theorem scanDocs_transport_scalars (ds : list Doc.t) (st : State.t) :
  Transport.overall (State.transport (scanDocs ds st)) =
    earliest (Transport.overall (State.transport st))
      (matches overall_match (page_texts ds))
  /\ Transport.age6574 (State.transport (scanDocs ds st)) =
       latest (Transport.age6574 (State.transport st))
         (matches age_match (page_texts ds)).
Proof. rewrite scanDocs_transport. split; reflexivity. Qed.

(** C1, counterexample: two documents whose pages report 2.7% and then 5.0%
    for the overall pattern.  The latest match is 5.0, the overall scalar
    after the scan is 2.7. *)
Lemma scanDocs_overall_not_latest :
  let ds := [ txt_doc "a.txt" "transportation problems 2.7%";
              txt_doc "b.txt" "transportation problems 5.0%" ] in
  matches overall_match (page_texts ds) = [27 # 10; 5]
  /\ Transport.overall (State.transport (scanDocs ds State.init))
     = Some (27 # 10)
  /\ Transport.overall (State.transport (scanDocs ds State.init))
     <> latest None (matches overall_match (page_texts ds)).
Proof.
  vm_compute. repeat split; intros H; discriminate H.
Qed.

(* ================================================================== *)
(** ** Finding aggregator (addFinding) *)
(* ================================================================== *)

Section Aggregator.

Variables key segment : string.

Lemma Qgtb_true a b : Qgtb a b = true <-> b < a.
Proof.
  unfold Qgtb. rewrite negb_true_iff, <- not_true_iff_false, Qle_bool_iff.
  split; [apply Qnot_le_lt | apply Qlt_not_le].
Qed.

Lemma Qgtb_false a b : Qgtb a b = false <-> a <= b.
Proof.
  unfold Qgtb. rewrite negb_false_iff. apply Qle_bool_iff.
Qed.

Lemma find_replace_first {A : Type} (p : A -> bool) (y : A) (l : list A) x :
  p y = true -> List.find p l = Some x ->
  List.find p (replace_first p y l) = Some y.
Proof.
  intros Hy. induction l as [|a l IH]; simpl; [discriminate|].
  destruct (p a) eqn:Ea; simpl.
  - now rewrite Hy.
  - now rewrite Ea.
Qed.

Lemma find_snoc {A : Type} (p : A -> bool) (l : list A) x :
  List.find p l = None -> p x = true -> List.find p (l ++ [x]) = Some x.
Proof.
  intros Hn Hx. induction l as [|a l IH]; simpl in *.
  - now rewrite Hx.
  - destruct (p a); [discriminate|auto].
Qed.

Lemma stored_has_id st ex :
  stored key segment st = Some ex ->
  Finding.has_id (finding_id key segment) ex = true.
Proof. intros H. now apply find_some in H. Qed.

Lemma absorb_has_id ex s i :
  Finding.has_id i (absorb ex s) = Finding.has_id i ex.
Proof. unfold absorb. now destruct (Qgtb _ _). Qed.

(** One call on an identity that is stored already. *)
Lemma submit_existing st ex s :
  stored key segment st = Some ex ->
  stored key segment (submit key segment st s) = Some (absorb ex s)
  /\ (Qgtb (Submission.magnitude s) (Finding.magnitude ex) = false ->
      submit key segment st s = st).
Proof.
  intros Hex. pose proof (stored_has_id _ _ Hex) as Hid.
  unfold stored in Hex. unfold submit, addFinding, stored, absorb.
  rewrite Hex. destruct (Qgtb _ _) eqn:Eg.
  - split; [|discriminate]. cbn [State.findings State.with_findings].
    eapply find_replace_first; eauto.
  - split; [exact Hex|reflexivity].
Qed.

(** One call on an identity that is not stored yet. *)
Lemma submit_fresh st s :
  stored key segment st = None ->
  stored key segment (submit key segment st s) = Some (fresh key segment s).
Proof.
  intros Hn. unfold stored in Hn. unfold submit, addFinding, stored.
  rewrite Hn. cbn [State.findings State.with_findings].
  apply find_snoc; [exact Hn|].
  unfold Finding.has_id. cbn. apply String.eqb_refl.
Qed.

Lemma submit_all_existing subs : forall st ex,
  stored key segment st = Some ex ->
  stored key segment (submit_all key segment subs st)
  = Some (foldl absorb ex subs).
Proof.
  induction subs as [|s subs IH]; intros st ex Hex; [exact Hex|].
  cbn [submit_all foldl]. apply (IH (submit key segment st s)).
  now apply submit_existing.
Qed.

Lemma submit_all_fresh s subs st :
  stored key segment st = None ->
  stored key segment (submit_all key segment (s :: subs) st)
  = Some (foldl absorb (fresh key segment s) subs).
Proof.
  intros Hn. cbn [submit_all foldl].
  apply (submit_all_existing subs (submit key segment st s)).
  now apply submit_fresh.
Qed.

(** Where the record ends up after a run of submissions: either nobody beat
    it, or the winner is the first submission that reaches the largest
    magnitude. *)
Lemma absorb_all_winner subs : forall ex,
  let f := foldl absorb ex subs in
  (Finding.magnitude f = Finding.magnitude ex
   /\ Finding.evidenceRef f = Finding.evidenceRef ex
   /\ forall x, In x subs -> Submission.magnitude x <= Finding.magnitude ex)
  \/ (exists pre w post,
        subs = pre ++ w :: post
        /\ Finding.magnitude f = Submission.magnitude w
        /\ Finding.evidenceRef f = Submission.evidenceRef w
        /\ Finding.magnitude ex < Submission.magnitude w
        /\ (forall x, In x pre ->
              Submission.magnitude x < Submission.magnitude w)
        /\ (forall x, In x post ->
              Submission.magnitude x <= Submission.magnitude w)).
Proof.
  induction subs as [|s subs IH]; intros ex; cbn [foldl].
  - left. split; [reflexivity|]. split; [reflexivity|]. intros x [].
  - destruct (Qgtb (Submission.magnitude s) (Finding.magnitude ex)) eqn:Eg.
    + pose proof (proj1 (Qgtb_true _ _) Eg) as Hlt.
      assert (Ha : Finding.magnitude (absorb ex s) = Submission.magnitude s)
        by (unfold absorb; now rewrite Eg).
      specialize (IH (absorb ex s)). rewrite Ha in IH.
      assert (Hb : Finding.evidenceRef (absorb ex s) = Submission.evidenceRef s)
        by (unfold absorb; now rewrite Eg).
      rewrite Hb in IH. right.
      destruct IH as [(Hm & He & Hall)
                     | (pre & w & post & -> & Hm & He & Hw & Hpre & Hpost)].
      * exists [], s, subs.
        split; [reflexivity|]. split; [exact Hm|]. split; [exact He|].
        split; [exact Hlt|]. split; [intros x []|exact Hall].
      * exists (s :: pre), w, post.
        split; [reflexivity|]. split; [exact Hm|]. split; [exact He|].
        split; [eapply Qlt_trans; eauto|].
        split; [|exact Hpost].
        intros x [<-|Hx]; [exact Hw|now apply Hpre].
    + pose proof (proj1 (Qgtb_false _ _) Eg) as Hle.
      assert (Ha : absorb ex s = ex) by (unfold absorb; now rewrite Eg).
      rewrite Ha. specialize (IH ex).
      destruct IH as [(Hm & He & Hall)
                     | (pre & w & post & -> & Hm & He & Hw & Hpre & Hpost)].
      * left. split; [exact Hm|]. split; [exact He|].
        intros x [<-|Hx]; [exact Hle|now apply Hall].
      * right. exists (s :: pre), w, post.
        split; [reflexivity|]. split; [exact Hm|]. split; [exact He|].
        split; [exact Hw|]. split; [|exact Hpost].
        intros x [<-|Hx]; [eapply Qle_lt_trans; eauto|now apply Hpre].
Qed.

(** The winner of a run that starts on a new identity. *)
Lemma fresh_winner s subs :
  let f := foldl absorb (fresh key segment s) subs in
  exists pre w post,
    s :: subs = pre ++ w :: post
    /\ Finding.magnitude f = Submission.magnitude w
    /\ Finding.evidenceRef f = Submission.evidenceRef w
    /\ (forall x, In x pre -> Submission.magnitude x < Submission.magnitude w)
    /\ (forall x, In x post -> Submission.magnitude x <= Submission.magnitude w).
Proof.
  cbn zeta.
  destruct (absorb_all_winner subs (fresh key segment s))
    as [(Hm & He & Hall)
       | (pre & w & post & -> & Hm & He & Hw & Hpre & Hpost)].
  - exists [], s, subs.
    split; [reflexivity|]. split; [exact Hm|]. split; [exact He|].
    split; [intros x []|exact Hall].
  - exists (s :: pre), w, post.
    split; [reflexivity|]. split; [exact Hm|]. split; [exact He|].
    split; [|exact Hpost].
    intros x [<-|Hx]; [exact Hw|now apply Hpre].
Qed.

(** The largest magnitude of a non-empty run is reached, and bounds every
    member. *)
Lemma winner_is_max (l pre post : list Submission.t) w :
  l = pre ++ w :: post ->
  (forall x, In x pre -> Submission.magnitude x < Submission.magnitude w) ->
  (forall x, In x post -> Submission.magnitude x <= Submission.magnitude w) ->
  In w l /\ forall x, In x l -> Submission.magnitude x <= Submission.magnitude w.
Proof.
  intros -> Hpre Hpost. split.
  - apply in_or_app. right. now left.
  - intros x Hx. apply in_app_or in Hx. destruct Hx as [Hx|[<-|Hx]].
    + apply Qlt_le_weak. auto.
    + apply Qle_refl.
    + auto.
Qed.

(** The prominence of the record after a run: the largest among its own and
    those of the submissions that raised the magnitude. *)
Lemma absorb_all_prominence subs : forall ex,
  Finding.prominence (foldl absorb ex subs)
  = Nat.max (Finding.prominence ex)
      (max_prominence (record_breakers (Finding.magnitude ex) subs)).
Proof.
  unfold max_prominence.
  induction subs as [|s subs IH]; intros ex; cbn [foldl record_breakers].
  - cbn. now rewrite Nat.max_0_r.
  - rewrite IH. unfold absorb.
    destruct (Qgtb (Submission.magnitude s) (Finding.magnitude ex)) eqn:Eg.
    + cbn [Finding.prominence Finding.magnitude List.map list_max fold_right].
      now rewrite Nat.max_assoc.
    + reflexivity.
Qed.

End Aggregator.

(** C2: for a call of [addFinding] on an identity that is stored already,
    the stored magnitude and evidence reference are replaced (and the
    prominence raised) exactly when the incoming magnitude is strictly
    greater; on an equal or smaller magnitude the whole state is returned
    unchanged.  Hence, for a run of calls on a new identity, the final
    magnitude is the largest one submitted, it does not depend on the order
    of the calls, and the evidence reference kept is that of the first
    submission that reaches this magnitude. *)
Theorem addFinding_keeps_maximum (key segment : string) (st : State.t) :
  (forall ex s,
      stored key segment st = Some ex ->
      (Finding.magnitude ex < Submission.magnitude s ->
       exists ex',
         stored key segment (submit key segment st s) = Some ex'
         /\ Finding.magnitude ex' = Submission.magnitude s
         /\ Finding.evidenceRef ex' = Submission.evidenceRef s
         /\ Finding.prominence ex'
            = Nat.max (Finding.prominence ex) (Submission.prominence s))
      /\ (Submission.magnitude s <= Finding.magnitude ex ->
          submit key segment st s = st))
  /\ (forall s subs,
        stored key segment st = None ->
        exists f pre w post,
          stored key segment (submit_all key segment (s :: subs) st) = Some f
          /\ s :: subs = pre ++ w :: post
          /\ Finding.magnitude f = Submission.magnitude w
          /\ Finding.evidenceRef f = Submission.evidenceRef w
          /\ (forall x, In x pre ->
                Submission.magnitude x < Submission.magnitude w)
          /\ (forall x, In x post ->
                Submission.magnitude x <= Submission.magnitude w))
  /\ (forall subs subs' f f',
        stored key segment st = None ->
        Permutation subs subs' ->
        stored key segment (submit_all key segment subs st) = Some f ->
        stored key segment (submit_all key segment subs' st) = Some f' ->
        Finding.magnitude f == Finding.magnitude f').
Proof.
  split; [|split].
  - intros ex s Hex.
    destruct (submit_existing key segment st ex s Hex) as [Hst Hsame].
    split.
    + intros Hlt. apply Qgtb_true in Hlt.
      exists (absorb ex s). split; [exact Hst|].
      unfold absorb. rewrite Hlt. cbn. auto.
    + intros Hle. apply Hsame. now apply Qgtb_false.
  - intros s subs Hn.
    destruct (fresh_winner key segment s subs)
      as (pre & w & post & Hsplit & Hm & He & Hpre & Hpost).
    exists (foldl absorb (fresh key segment s) subs), pre, w, post.
    split; [now apply submit_all_fresh|]. auto.
  - intros subs subs' f f' Hn Hperm Hf Hf'.
    assert (Hmax : forall l g,
               stored key segment (submit_all key segment l st) = Some g ->
               exists w, In w l
                 /\ Finding.magnitude g = Submission.magnitude w
                 /\ forall x, In x l ->
                      Submission.magnitude x <= Submission.magnitude w).
    { intros l g Hg. destruct l as [|s l].
      - cbn in Hg. congruence.
      - rewrite (submit_all_fresh key segment s l st Hn) in Hg.
        injection Hg as <-.
        destruct (fresh_winner key segment s l)
          as (pre & w & post & Hsplit & Hm & _ & Hpre & Hpost).
        destruct (winner_is_max _ _ _ _ Hsplit Hpre Hpost) as [Hin Hall].
        exists w. auto. }
    destruct (Hmax _ _ Hf) as (w & Hw & -> & Hall).
    destruct (Hmax _ _ Hf') as (w' & Hw' & -> & Hall').
    apply Qle_antisym.
    + apply Hall'. eapply Permutation_in; eauto.
    + apply Hall. eapply Permutation_in; [symmetry|]; eauto.
Qed.

(** C2, witness: a tie on the stored magnitude 8.5 leaves the state as it
    is, so the reference of the earlier page stays. *)
Lemma addFinding_keeps_maximum_witness :
  let a := {| Submission.disparity := "Transportation barrier";
              Submission.magnitude := 17 # 2;
              Submission.prominence := 1;
              Submission.evidenceRef := "a.txt p.1" |} in
  let b := {| Submission.disparity := "Transportation barrier";
              Submission.magnitude := 17 # 2;
              Submission.prominence := 3;
              Submission.evidenceRef := "b.txt p.1" |} in
  let st := submit "transport" "Overall" State.init a in
  stored "transport" "Overall" st = Some (fresh "transport" "Overall" a)
  /\ Submission.magnitude b <= 17 # 2
  /\ submit "transport" "Overall" st b = st.
Proof.
  intros a b st.
  split; [reflexivity|]. split; [vm_compute; discriminate|].
  refine (proj2 (proj1 (addFinding_keeps_maximum "transport" "Overall" st)
                   (fresh "transport" "Overall" a) b _) _).
  - reflexivity.
  - vm_compute. discriminate.
Defined.

(** C3 (amended): after a run of calls on a new identity, the stored
    prominence is the largest prominence among the accepted submissions,
    that is the first one and every later one whose magnitude is strictly
    greater than the magnitude stored when it arrives; it is therefore at
    most the largest prominence submitted. *)
Theorem addFinding_prominence (key segment : string) (st : State.t)
  (s : Submission.t) (subs : list Submission.t) :
  stored key segment st = None ->
  exists f,
    stored key segment (submit_all key segment (s :: subs) st) = Some f
    /\ Finding.prominence f
       = max_prominence (s :: record_breakers (Submission.magnitude s) subs)
    /\ (Finding.prominence f <= max_prominence (s :: subs))%nat.
Proof.
  intros Hn. exists (foldl absorb (fresh key segment s) subs).
  split; [now apply submit_all_fresh|].
  rewrite absorb_all_prominence. cbn [fresh Finding.prominence Finding.magnitude].
  split; [reflexivity|].
  unfold max_prominence. cbn [List.map list_max fold_right].
  apply Nat.max_le_compat_l.
  apply list_max_le. apply List.Forall_forall. intros n Hin.
  apply List.in_map_iff in Hin. destruct Hin as (x & <- & Hx).
  assert (Hsub : forall l c y, In y (record_breakers c l) -> In y l).
  { induction l as [|z l IH]; intros c y; cbn; [tauto|].
    destruct (Qgtb _ _); cbn; intros H.
    - destruct H as [->|H]; [now left|right; eauto].
    - right; eauto. }
  apply Hsub in Hx.
  assert (Hle : forall l, In x l ->
                 (Submission.prominence x
                  <= list_max (List.map Submission.prominence l))%nat).
  { intros l Hl.
    pose proof (proj1 (list_max_le (List.map Submission.prominence l) _)
                  (Nat.le_refl _)) as Hall.
    rewrite List.Forall_forall in Hall. apply Hall.
    apply List.in_map. exact Hl. }
  now apply Hle.
Qed.

(** C3, witness: 2.7 then 8.5 on a new identity; both submissions are
    accepted and the prominence is the larger of the two. *)
Lemma addFinding_prominence_witness :
  let a := {| Submission.disparity := "Transportation barrier";
              Submission.magnitude := 27 # 10;
              Submission.prominence := 1;
              Submission.evidenceRef := "a.txt p.1" |} in
  let b := {| Submission.disparity := "Transportation barrier";
              Submission.magnitude := 17 # 2;
              Submission.prominence := 2;
              Submission.evidenceRef := "a.txt p.2" |} in
  stored "transport" "Overall" State.init = None
  /\ exists f,
       stored "transport" "Overall"
         (submit_all "transport" "Overall" [a; b] State.init) = Some f
       /\ Finding.prominence f = 2%nat.
Proof.
  intros a b. split; [reflexivity|].
  destruct (addFinding_prominence "transport" "Overall" State.init a [b]
              eq_refl) as (f & Hf & Hp & _).
  exists f. split; [exact Hf|]. rewrite Hp. reflexivity.
Defined.

(** C3, counterexample: magnitude 5 with prominence 1, then magnitude 3
    with prominence 4.  The second call is ignored, so the stored prominence
    is 1 although the largest prominence submitted is 4. *)
Lemma addFinding_prominence_not_max :
  let a := {| Submission.disparity := "Transportation barrier";
              Submission.magnitude := 5;
              Submission.prominence := 1;
              Submission.evidenceRef := "a.txt p.1" |} in
  let b := {| Submission.disparity := "Transportation barrier";
              Submission.magnitude := 3;
              Submission.prominence := 4;
              Submission.evidenceRef := "a.txt p.4" |} in
  max_prominence [a; b] = 4%nat
  /\ option_map Finding.prominence
       (stored "transport" "Overall"
          (submit_all "transport" "Overall" [a; b] State.init))
     = Some 1%nat
  /\ option_map Finding.prominence
       (stored "transport" "Overall"
          (submit_all "transport" "Overall" [a; b] State.init))
     <> Some (max_prominence [a; b]).
Proof.
  vm_compute. repeat split; intros H; discriminate H.
Qed.

(* ================================================================== *)
(** ** Materiality scorer (computeMateriality) *)
(* ================================================================== *)

Section Scorer.

Lemma insert_desc_perm {A : Type} (score : A -> Z) x l :
  Permutation (insert_desc score x l) (x :: l).
Proof.
  induction l as [|y l IH]; cbn; [reflexivity|].
  destruct (score y <=? score x)%Z; [reflexivity|].
  rewrite IH. apply perm_swap.
Qed.

Lemma sort_desc_perm {A : Type} (score : A -> Z) l :
  Permutation (sort_desc score l) l.
Proof.
  induction l as [|x l IH]; cbn; [reflexivity|].
  rewrite insert_desc_perm. now constructor.
Qed.

Lemma sort_desc_In {A : Type} (score : A -> Z) l x :
  In x (sort_desc score l) <-> In x l.
Proof.
  split; apply Permutation_in;
    [apply sort_desc_perm | symmetry; apply sort_desc_perm].
Qed.

Lemma clampZ_bounds n : (0 <= clampZ n 0 100 <= 100)%Z.
Proof. unfold clampZ. lia. Qed.

Lemma clamp_bounds x lo hi : lo <= hi -> lo <= clamp x lo hi <= hi.
Proof.
  intros H. unfold clamp. split.
  - apply Q.le_max_l.
  - apply Q.max_lub; [exact H|apply Q.le_min_l].
Qed.

Lemma round_mono x y : x <= y -> (round x <= round y)%Z.
Proof.
  intros H. unfold round. apply Qfloor_resp_le.
  apply Qplus_le_compat; [exact H|apply Qle_refl].
Qed.




End Scorer.




(* ================================================================== *)
(** ** Opportunity synthesizer and tier gate *)
(* ================================================================== *)

Section Synthesizer.

Lemma bestByKey_fold (fs : list Finding.t) : forall (m : gmap string Finding.t) k,
  foldl
    (fun m f =>
       match m !! Finding.key f with
       | Some _ => m
       | None => <[Finding.key f := f]> m
       end) m fs !! k
  = match m !! k with
    | Some g => Some g
    | None => List.find (Finding.has_key k) fs
    end.
Proof.
  induction fs as [|f fs IH]; intros m k; cbn [foldl List.find].
  - now destruct (m !! k).
  - rewrite IH. unfold Finding.has_key.
    destruct (String.eqb_spec (Finding.key f) k) as [<-|Hne].
    + destruct (m !! Finding.key f) eqn:E; [now rewrite E|].
      now rewrite lookup_insert_eq.
    + destruct (m !! Finding.key f) eqn:E; [reflexivity|].
      now rewrite lookup_insert_ne.
Qed.

(** [bestByKey[k]] is the first finding of the list with key [k]. *)
Lemma bestByKey_lookup fs k :
  bestByKey fs !! k = List.find (Finding.has_key k) fs.
Proof. unfold bestByKey. now rewrite bestByKey_fold, lookup_empty. Qed.

Lemma find_key_Some fs k :
  (exists g, List.find (Finding.has_key k) fs = Some g)
  <-> (exists f, In f fs /\ Finding.key f = k).
Proof.
  split.
  - intros (g & Hg). apply find_some in Hg. destruct Hg as [Hin Hk].
    exists g. split; [exact Hin|]. now apply String.eqb_eq.
  - intros (f & Hin & Hk).
    destruct (List.find (Finding.has_key k) fs) as [g|] eqn:E; [now exists g|].
    pose proof (find_none _ _ E f Hin) as Hf.
    unfold Finding.has_key in Hf. rewrite Hk, String.eqb_refl in Hf.
    discriminate.
Qed.

Lemma find_key_None fs k :
  (forall f, In f fs -> Finding.key f <> k) ->
  List.find (Finding.has_key k) fs = None.
Proof.
  intros H. destruct (List.find (Finding.has_key k) fs) as [g|] eqn:E;
    [|reflexivity].
  apply find_some in E. destruct E as [Hin Hk].
  apply String.eqb_eq in Hk. now apply H in Hin.
Qed.

Lemma buildOpportunities_In st o :
  In o (State.opportunities (buildOpportunities st))
  <-> In o (opps_unsorted (State.findings st)).
Proof.
  unfold buildOpportunities.
  cbn [State.opportunities State.with_opportunities].
  apply sort_desc_In.
Qed.

Lemma tier3Unlocked_spec st :
  tier3Unlocked st = true
  <-> exists o, In o (State.opportunities st) /\ (60 <= Opportunity.score o)%Z.
Proof.
  unfold tier3Unlocked. rewrite existsb_exists.
  split; intros (o & Hin & Ho); exists o; (split; [exact Hin|]);
    now apply Z.leb_le.
Qed.

End Synthesizer.

(** C5: the synthesizer always returns a non-empty list that contains a
    transportation opportunity, whatever the findings are; when no finding
    of the transportation category exists, the responsiveness that goes into
    its score is the default 55; a food (access-to-care) opportunity is in
    the output if and only if a finding of the food (access) category
    exists. *)
Theorem buildOpportunities_always_transport (st : State.t) :
  State.opportunities (buildOpportunities st) <> []
  /\ (exists o, In o (State.opportunities (buildOpportunities st))
                /\ Opportunity.kind o = "nmt")
  /\ ((forall f, In f (State.findings st) -> Finding.key f <> "transport") ->
      transport_responsiveness (bestByKey (State.findings st)) = 55
      /\ forall o, In o (State.opportunities (buildOpportunities st)) ->
           Opportunity.kind o = "nmt" ->
           Opportunity.score o = scoreOpportunity 90 55 attribution 35)
  /\ ((exists o, In o (State.opportunities (buildOpportunities st))
                 /\ Opportunity.kind o = "food")
      <-> (exists f, In f (State.findings st) /\ Finding.key f = "food"))
  /\ ((exists o, In o (State.opportunities (buildOpportunities st))
                 /\ Opportunity.kind o = "care")
      <-> (exists f, In f (State.findings st) /\ Finding.key f = "access")).
Proof.
  set (fs := State.findings st).
  assert (Ht : In (transport_opportunity (bestByKey fs))
                 (State.opportunities (buildOpportunities st))).
  { apply buildOpportunities_In. now left. }
  assert (Hcases : forall o,
             In o (State.opportunities (buildOpportunities st)) ->
             o = transport_opportunity (bestByKey fs)
             \/ (exists g, List.find (Finding.has_key "food") fs = Some g
                           /\ o = food_opportunity g)
             \/ (exists g, List.find (Finding.has_key "access") fs = Some g
                           /\ o = care_opportunity g)).
  { intros o Ho. apply buildOpportunities_In in Ho. fold fs in Ho.
    unfold opps_unsorted in Ho. rewrite !bestByKey_lookup in Ho.
    apply in_app_or in Ho. destruct Ho as [[<-|[]]|Ho]; [now left|].
    apply in_app_or in Ho. destruct Ho as [Ho|Ho].
    - destruct (List.find (Finding.has_key "food") fs) as [g|];
        [|destruct Ho].
      destruct Ho as [<-|[]]. right. left. now exists g.
    - destruct (List.find (Finding.has_key "access") fs) as [g|];
        [|destruct Ho].
      destruct Ho as [<-|[]]. right. right. now exists g. }
  split; [|split; [|split; [|split]]].
  - intros Hnil. rewrite Hnil in Ht. destruct Ht.
  - eexists. split; [exact Ht|reflexivity].
  - intros Hno.
    assert (Hr : transport_responsiveness (bestByKey fs) = 55).
    { unfold transport_responsiveness.
      rewrite bestByKey_lookup, (find_key_None fs "transport" Hno).
      reflexivity. }
    split; [exact Hr|].
    intros o Ho Hk. destruct (Hcases o Ho) as [->|[(g & _ & ->)|(g & _ & ->)]].
    + unfold transport_opportunity. cbn [Opportunity.score]. now rewrite Hr.
    + discriminate Hk.
    + discriminate Hk.
  - rewrite <- find_key_Some. split.
    + intros (o & Ho & Hk).
      destruct (Hcases o Ho) as [->|[(g & Hg & ->)|(g & _ & ->)]].
      * discriminate Hk.
      * now exists g.
      * discriminate Hk.
    + intros (g & Hg). exists (food_opportunity g). split; [|reflexivity].
      apply buildOpportunities_In. fold fs. unfold opps_unsorted.
      rewrite !bestByKey_lookup, Hg.
      apply in_or_app. right. apply in_or_app. left. now left.
  - rewrite <- find_key_Some. split.
    + intros (o & Ho & Hk).
      destruct (Hcases o Ho) as [->|[(g & _ & ->)|(g & Hg & ->)]].
      * discriminate Hk.
      * discriminate Hk.
      * now exists g.
    + intros (g & Hg). exists (care_opportunity g). split; [|reflexivity].
      apply buildOpportunities_In. fold fs. unfold opps_unsorted.
      rewrite !bestByKey_lookup, Hg.
      apply in_or_app. right. apply in_or_app. right. now left.
Qed.

(** C5, witness: on the initial state, which holds no finding, the
    responsiveness of the transportation opportunity is 55. *)
Lemma buildOpportunities_always_transport_witness :
  (forall f, In f (State.findings State.init) -> Finding.key f <> "transport")
  /\ transport_responsiveness (bestByKey (State.findings State.init)) = 55.
Proof.
  assert (H : forall f, In f (State.findings State.init) ->
                        Finding.key f <> "transport")
    by (intros f []).
  split; [exact H|].
  exact (proj1 (proj1 (proj2 (proj2
           (buildOpportunities_always_transport State.init))) H)).
Defined.

(** C6: the gate is unlocked if and only if some opportunity of the current
    list has a score of at least 60; a full reset empties the list, and the
    gate is then locked. *)
Theorem tier3Unlocked_iff_score_60 (st : State.t) :
  (tier3Unlocked st = true
   <-> exists o, In o (State.opportunities st)
                 /\ (60 <= Opportunity.score o)%Z)
  /\ State.opportunities (reset st) = []
  /\ tier3Unlocked (reset st) = false.
Proof.
  split; [apply tier3Unlocked_spec|]. split; reflexivity.
Qed.

(** C7: with an empty findings list the synthesizer yields exactly one
    opportunity, the transportation one, with score
    round(0.30*90 + 0.30*55 + 0.25*70 + 0.15*(100-35)) = 71 and strength
    "Moderate", and the gate evaluates to unlocked. *)
Theorem buildOpportunities_empty_findings (st : State.t) :
  State.findings st = [] ->
  exists o,
    State.opportunities (buildOpportunities st) = [o]
    /\ Opportunity.kind o = "nmt"
    /\ Opportunity.score o
       = round ((30 # 100) * 90 + (30 # 100) * 55 + (25 # 100) * 70
                + (15 # 100) * (100 - 35))
    /\ Opportunity.score o = 71%Z
    /\ Opportunity.strength o = "Moderate"
    /\ tier3Unlocked (buildOpportunities st) = true.
Proof.
  intros Hfs. exists (transport_opportunity ∅).
  assert (Ho : State.opportunities (buildOpportunities st)
               = [transport_opportunity ∅]).
  { unfold buildOpportunities.
    cbn [State.opportunities State.with_opportunities].
    rewrite Hfs. reflexivity. }
  split; [exact Ho|].
  split; [reflexivity|]. split; [reflexivity|]. split; [reflexivity|].
  split; [reflexivity|].
  unfold tier3Unlocked. rewrite Ho. reflexivity.
Qed.

(** C7, witness: the initial state. *)
Lemma buildOpportunities_empty_findings_witness :
  State.findings State.init = []
  /\ exists o,
       State.opportunities (buildOpportunities State.init) = [o]
       /\ Opportunity.score o = 71%Z.
Proof.
  split; [reflexivity|].
  destruct (buildOpportunities_empty_findings State.init eq_refl)
    as (o & Ho & _ & _ & Hs & _).
  exists o. split; [exact Ho|exact Hs].
Defined.

(* ================================================================== *)
(** ** Financial projection engine (runTier3) *)
(* ================================================================== *)

Section Projection.

Lemma mul_Fin a b : mul (Fin a) (Fin b) = Fin (a * b).
Proof. reflexivity. Qed.

Lemma add_Fin a b : add (Fin a) (Fin b) = Fin (a + b).
Proof. reflexivity. Qed.

Lemma sub_Fin a b : sub (Fin a) (Fin b) = Fin (a + - b).
Proof. reflexivity. Qed.

Lemma div_Fin_pos a b : 0 < b -> div (Fin a) (Fin b) = Fin (a / b).
Proof.
  intros H. unfold div, sgn.
  now rewrite (proj1 (Qgt_alt b 0) H).
Qed.





End Projection.



Section ProjectionGuards.

Lemma is_zero_false_sgn q : is_zero (Fin q) = false -> sgn q <> Eq.
Proof.
  unfold is_zero, sgn. intros H E.
  apply Qeq_alt, Qeq_bool_iff in E. congruence.
Qed.

Lemma div_Fin_nonzero a b :
  is_zero (Fin b) = false -> exists q, div (Fin a) (Fin b) = Fin q.
Proof.
  intros H. apply is_zero_false_sgn in H. unfold div.
  destruct (sgn b); [contradiction|eauto|eauto].
Qed.

(** The two divisions of [roi_calc] are guarded: on finite inputs the bank
    contribution per trip and the bank share of the cost are finite. *)
Lemma roi_calc_bank_finite inp :
  roi_inputs_finite inp = true ->
  isFinite (RoiOutputs.bank_per_lmi (roi_calc inp)) = true
  /\ isFinite (RoiOutputs.bank_share_cost (roi_calc inp)) = true.
Proof.
  destruct inp as [v n s r c m t o l a b]. unfold roi_inputs_finite.
  cbn [RoiInputs.visits RoiInputs.noshow RoiInputs.share RoiInputs.netrev
       RoiInputs.margc RoiInputs.mitig RoiInputs.trip RoiInputs.over
       RoiInputs.lmi RoiInputs.aa RoiInputs.bank forallb].
  intros H.
  repeat match goal with
         | H : _ && _ = true |- _ => apply andb_prop in H; destruct H
         end.
  repeat match goal with
         | H : isFinite ?x = true |- _ =>
             destruct x; try discriminate H; clear H
         end.
  unfold roi_calc.
  cbn [RoiInputs.visits RoiInputs.noshow RoiInputs.share RoiInputs.netrev
       RoiInputs.margc RoiInputs.mitig RoiInputs.trip RoiInputs.over
       RoiInputs.lmi RoiInputs.aa RoiInputs.bank
       RoiOutputs.bank_per_lmi RoiOutputs.bank_share_cost].
  rewrite !mul_Fin, !add_Fin.
  split;
    (destruct (is_zero (Fin _)) eqn:E; [reflexivity|];
     match goal with
     | |- context [div (Fin ?x) (Fin ?y)] =>
         destruct (div_Fin_nonzero x y E) as (z & ->)
     end; reflexivity).
Qed.

(** [roi_inputs] turns fields that do not hold a number into zeros. *)
Lemma roi_inputs_non_numeric :
  let f := {| RoiForm.a_visits := lit "abc"; RoiForm.a_noshow := [];
              RoiForm.a_share := lit "n/a"; RoiForm.a_netrev := [];
              RoiForm.a_margc := lit "-"; RoiForm.b_mitig := lit "x";
              RoiForm.b_trip := []; RoiForm.b_over := lit "%";
              RoiForm.c_lmi := []; RoiForm.c_aa := lit "?";
              RoiForm.c_bank := lit "none" |} in
  roi_inputs f
  = {| RoiInputs.visits := Fin 0; RoiInputs.noshow := Fin 0;
       RoiInputs.share := Fin 0; RoiInputs.netrev := Fin 0;
       RoiInputs.margc := Fin 0; RoiInputs.mitig := Fin 0;
       RoiInputs.trip := Fin 0; RoiInputs.over := Fin 0;
       RoiInputs.lmi := Fin 0; RoiInputs.aa := Fin 0;
       RoiInputs.bank := Fin 0 |}.
Proof. reflexivity. Qed.

End ProjectionGuards.

(** C9, the code at the failing inputs: [runTier3] divides by the horizon
    without a guard and keeps the NaN of a field that is not a number.  With
    the months field at "0" the annualized cost is +Infinity and the net
    impact -Infinity; with "abc" as the annual volume every computed figure
    is NaN. *)
Theorem runTier3_not_guarded :
  (let m := State.model (runTier3 (sample_form "0" "10000") State.init) in
   option_map Model.months m = Some (Fin 0)
   /\ option_map Model.annual_cost m = Some PInf
   /\ option_map Model.net_annual m = Some NInf
   /\ option_map (fun x => isFinite (Model.total_cost_horizon x)) m
      = Some true)
  /\ (let m := State.model (runTier3 (sample_form "12" "abc") State.init) in
      option_map Model.annual_touchpoints m = Some NaN
      /\ option_map Model.prevented_disruptions m = Some NaN
      /\ option_map Model.annual_cost m = Some NaN
      /\ option_map Model.net_annual m = Some NaN).
Proof. vm_compute. repeat split. Qed.

(* ================================================================== *)
(** ** Documentation gap evaluator (evalDocForElements) *)
(* ================================================================== *)

Section GapEvaluator.

Lemma truthy_first_pat lower pats :
  forallb (fun p => negb (length p =? 0)%nat) pats = true ->
  truthy (first_pat lower pats)
  = existsb (fun p => includes lower (toLowerCase p)) pats.
Proof.
  unfold first_pat. induction pats as [|p pats IH]; cbn; [reflexivity|].
  intros H. apply andb_prop in H. destruct H as [Hp Hps].
  destruct (includes lower (toLowerCase p)).
  - destruct p; [discriminate|reflexivity].
  - now apply IH.
Qed.

Lemma length_filter_map {A B : Type} (f : A -> B) (p : B -> bool) l :
  length (List.filter p (List.map f l))
  = length (List.filter (fun x => p (f x)) l).
Proof.
  induction l as [|x l IH]; cbn; [reflexivity|].
  destruct (p (f x)); cbn; now rewrite IH.
Qed.

Lemma filter_ext_In' {A : Type} (p q : A -> bool) l :
  (forall x, In x l -> p x = q x) -> List.filter p l = List.filter q l.
Proof.
  induction l as [|x l IH]; intros H; cbn; [reflexivity|].
  rewrite (H x (or_introl eq_refl)), IH; [reflexivity|].
  intros y Hy. apply H. now right.
Qed.

(** [scoreBlock] counts the elements one of whose phrases occurs, and
    scores their share. *)
Lemma scoreBlock_spec all lower block :
  nonempty_pats block = true ->
  Block.presentCount (scoreBlock all lower block) = present_count lower block
  /\ Block.total (scoreBlock all lower block) = length block
  /\ Block.score (scoreBlock all lower block)
     = percent_score (present_count lower block) (length block).
Proof.
  intros Hne.
  assert (Hc : length (List.filter ElementHit.present
                         (List.map (element_hit all lower) block))
               = present_count lower block).
  { rewrite length_filter_map. unfold present_count. f_equal.
    apply filter_ext_In'. intros el Hel.
    unfold element_hit, element_present. cbn [ElementHit.present].
    apply truthy_first_pat.
    unfold nonempty_pats in Hne. rewrite forallb_forall in Hne.
    now apply Hne. }
  unfold scoreBlock.
  cbn [Block.presentCount Block.total Block.score].
  rewrite Hc, length_map. auto.
Qed.

Lemma present_count_le lower block :
  (present_count lower block <= length block)%nat.
Proof. unfold present_count. apply List.filter_length_le. Qed.

End GapEvaluator.

(** C10: for every document, the assessment block and the
    implementation-plan block score round(present/total * 100), with 7 and
    3 elements; the comment-solicitation block, which has 3 elements, scores
    0, 33, 67 or 100 when exactly 0, 1, 2 or 3 of them are present; with
    exactly 2 present the score is 67, not 66. *)
Theorem evalDocForElements_scores (doc : Doc.t) :
  ChnaEval.chnaScore (evalDocForElements doc)
  = percent_score (present_count (doc_lower doc) CHNA_ELEMENTS) 7
  /\ ChnaEval.isScore (evalDocForElements doc)
     = percent_score (present_count (doc_lower doc) IS_ELEMENTS) 3
  /\ (present_count (doc_lower doc) WRITTEN_COMMENT_ELEMENTS <= 3)%nat
  /\ ChnaEval.writtenCommentsScore (evalDocForElements doc)
     = comment_level (present_count (doc_lower doc) WRITTEN_COMMENT_ELEMENTS)
  /\ (present_count (doc_lower doc) WRITTEN_COMMENT_ELEMENTS = 2%nat ->
      ChnaEval.writtenCommentsScore (evalDocForElements doc) = 67%Z
      /\ ChnaEval.writtenCommentsScore (evalDocForElements doc) <> 66%Z).
Proof.
  set (all := join_pages (Doc.textByPage doc)).
  destruct (scoreBlock_spec all (doc_lower doc) CHNA_ELEMENTS eq_refl)
    as (_ & _ & Hc).
  destruct (scoreBlock_spec all (doc_lower doc) IS_ELEMENTS eq_refl)
    as (_ & _ & Hi).
  destruct (scoreBlock_spec all (doc_lower doc) WRITTEN_COMMENT_ELEMENTS
              eq_refl) as (Hw & _ & _).
  pose proof (present_count_le (doc_lower doc) WRITTEN_COMMENT_ELEMENTS) as Hle.
  change (length WRITTEN_COMMENT_ELEMENTS) with 3%nat in Hle.
  assert (Hwc : ChnaEval.writtenCommentsScore (evalDocForElements doc)
                = comment_level
                    (present_count (doc_lower doc) WRITTEN_COMMENT_ELEMENTS)).
  { unfold evalDocForElements. cbn zeta. cbn [ChnaEval.writtenCommentsScore].
    change (toLowerCase (join_pages (Doc.textByPage doc)))
      with (doc_lower doc).
    change (join_pages (Doc.textByPage doc)) with all.
    rewrite Hw.
    destruct (present_count (doc_lower doc) WRITTEN_COMMENT_ELEMENTS)
      as [|[|[|[|n]]]]; try reflexivity. lia. }
  split; [exact Hc|]. split; [exact Hi|]. split; [exact Hle|].
  split; [exact Hwc|].
  intros H2. rewrite Hwc, H2. split; [reflexivity|discriminate].
Qed.

(** C10, witness: a page that mentions a survey and received comments, and
    nothing on how they were used, has exactly 2 of the 3 comment elements
    and scores 67. *)
Lemma evalDocForElements_scores_witness :
  let doc := txt_doc "chna.txt" "Our survey was open in May; we received 12 replies." in
  present_count (doc_lower doc) WRITTEN_COMMENT_ELEMENTS = 2%nat
  /\ ChnaEval.writtenCommentsScore (evalDocForElements doc) = 67%Z.
Proof.
  intros doc.
  assert (H : present_count (doc_lower doc) WRITTEN_COMMENT_ELEMENTS = 2%nat)
    by reflexivity.
  split; [exact H|].
  exact (proj1 (proj2 (proj2 (proj2 (proj2
           (evalDocForElements_scores doc)))) H)).
Defined.

(* ================================================================== *)
(** ** The demonstration run *)
(* ================================================================== *)

(** The built-in demonstration end to end: three evidence records, the two
    transportation scalars, three scored findings in descending order, two
    opportunities, and an unlocked gate. *)
Example demo_run :
  let st := process [demo_doc] State.init in
  length (State.evidence st) = 3%nat
  /\ State.transport st
     = {| Transport.overall := Some (27 # 10);
          Transport.age6574 := Some (17 # 2) |}
  /\ List.map
       (fun f => (Finding.id f, Finding.prominence f, Finding.score f,
                  Finding.recommend f))
       (State.findings st)
     = [ (finding_id "transport" seg_age6574, 1%nat, 39%Z, "Defer/monitor");
         (finding_id "transport" seg_overall, 1%nat, 18%Z, "Defer/monitor");
         (finding_id "food" seg_overall, 1%nat, 15%Z, "Defer/monitor") ]
  /\ List.map
       (fun o => (Opportunity.kind o, Opportunity.score o,
                  Opportunity.strength o))
       (State.opportunities st)
     = [ ("nmt", 66%Z, "Moderate"); ("food", 54%Z, "Weak") ]
  /\ option_map Opportunity.kind (State.selectedOpp st) = Some "nmt"
  /\ tier3Unlocked st = true.
Proof. vm_compute. repeat split. Qed.

(* ================================================================== *)
(** ** Further properties of the scorer *)
(* ================================================================== *)

Section ScorerInvariants.

Lemma concentration_of_nonneg byKey f : 0 <= concentration_of byKey f.
Proof.
  unfold concentration_of.
  destruct (List.find _ _); [|apply Qle_refl].
  destruct (negb _); [apply Q.le_max_l|apply Qle_refl].
Qed.

Lemma base_score_bounds f : (0 <= base_score f <= 100)%Z.
Proof.
  unfold base_score.
  set (m := clamp (Finding.magnitude f / 30 * 60) 0 60).
  set (c := clamp (Finding.concentration f / 15 * 25) 0 25).
  set (p := clamp (inject_Z (Z.of_nat (Finding.prominence f)) / 6 * 15) 0 15).
  assert (Hm : 0 <= m <= 60) by (apply clamp_bounds; discriminate).
  assert (Hc : 0 <= c <= 25) by (apply clamp_bounds; discriminate).
  assert (Hp : 0 <= p <= 15) by (apply clamp_bounds; discriminate).
  split.
  - change 0%Z with (round 0). apply round_mono. lra.
  - change 100%Z with (round 100). apply round_mono. lra.
Qed.

Lemma finding_score_bounds bonus f : (0 <= finding_score bonus f <= 100)%Z.
Proof.
  unfold finding_score. destruct (String.eqb _ _).
  - apply clampZ_bounds.
  - apply base_score_bounds.
Qed.

(** Every finding of the scored list comes from a finding of the state: its
    concentration is set from the groups, then its score and tag. *)
Lemma computeMateriality_origin st f :
  In f (State.findings (computeMateriality st)) ->
  exists h,
    In h (State.findings st)
    /\ f = score_finding (transportBonus (State.transport st))
             (set_concentration
                (concentration_of (group_by_key (State.findings st)) h) h).
Proof.
  unfold computeMateriality. cbn [State.findings State.with_findings].
  rewrite sort_desc_In, List.in_map_iff.
  intros (g & <- & Hg). apply List.in_map_iff in Hg.
  destruct Hg as (h & <- & Hh). now exists h.
Qed.

Lemma insert_desc_sorted {A : Type} (score : A -> Z) x l :
  StronglySorted (fun a b => (score b <= score a)%Z) l ->
  StronglySorted (fun a b => (score b <= score a)%Z) (insert_desc score x l).
Proof.
  induction 1 as [|y l Hs IH Hall]; cbn.
  - repeat constructor.
  - destruct (score y <=? score x)%Z eqn:E.
    + apply Z.leb_le in E. constructor; [now constructor|].
      constructor; [exact E|].
      apply List.Forall_forall. intros w Hw.
      rewrite List.Forall_forall in Hall. specialize (Hall w Hw). lia.
    + apply Z.leb_gt in E. constructor; [exact IH|].
      assert (HP : Permutation (insert_desc score x l) (x :: l))
        by apply insert_desc_perm.
      apply List.Forall_forall. intros z Hz.
      eapply Permutation_in in Hz; [|exact HP].
      destruct Hz as [<-|Hz]; [lia|].
      rewrite List.Forall_forall in Hall. now apply Hall.
Qed.

Lemma sort_desc_sorted {A : Type} (score : A -> Z) l :
  StronglySorted (fun a b => (score b <= score a)%Z) (sort_desc score l).
Proof.
  induction l as [|x l IH]; cbn; [constructor|].
  now apply insert_desc_sorted.
Qed.

(** The sort is stable: the elements of one score keep their order. *)
Lemma insert_desc_filter {A : Type} (score : A -> Z) z x l :
  List.filter (fun a => (score a =? z)%Z) (insert_desc score x l)
  = List.filter (fun a => (score a =? z)%Z) (x :: l).
Proof.
  induction l as [|y l IH]; [reflexivity|].
  cbn [insert_desc]. destruct (score y <=? score x)%Z eqn:E; [reflexivity|].
  apply Z.leb_gt in E.
  cbn [List.filter] in *. rewrite IH.
  destruct (score x =? z)%Z eqn:Ex, (score y =? z)%Z eqn:Ey; try reflexivity.
  apply Z.eqb_eq in Ex, Ey. lia.
Qed.

Lemma sort_desc_filter {A : Type} (score : A -> Z) z l :
  List.filter (fun a => (score a =? z)%Z) (sort_desc score l)
  = List.filter (fun a => (score a =? z)%Z) l.
Proof.
  induction l as [|x l IH]; [reflexivity|].
  cbn [sort_desc fold_right]. fold (sort_desc score l).
  rewrite insert_desc_filter. cbn [List.filter]. now rewrite IH.
Qed.

Lemma filter_map_sublist {A B : Type} (g : A -> B) (p : A -> bool) l :
  sublist (List.map g (List.filter p l)) (List.map g l).
Proof.
  induction l as [|x l IH]; cbn; [constructor|].
  destruct (p x); cbn; now constructor.
Qed.

End ScorerInvariants.

(** X1: after [computeMateriality], every finding has a score between 0 and
    100 and a non-negative concentration, and its recommendation tag follows
    the thresholds 70 and 55 of its score. *)
Theorem computeMateriality_score_range (st : State.t) (f : Finding.t) :
  In f (State.findings (computeMateriality st)) ->
  (0 <= Finding.score f <= 100)%Z
  /\ 0 <= Finding.concentration f
  /\ ((70 <= Finding.score f)%Z -> Finding.recommend f = "Advance (high)")
  /\ ((55 <= Finding.score f < 70)%Z ->
      Finding.recommend f = "Advance (moderate)")
  /\ ((Finding.score f < 55)%Z -> Finding.recommend f = "Defer/monitor").
Proof.
  intros Hin. destruct (computeMateriality_origin st f Hin) as (h & _ & ->).
  unfold score_finding.
  cbn [set_score set_concentration Finding.score Finding.concentration
       Finding.recommend].
  split; [apply finding_score_bounds|].
  split; [apply concentration_of_nonneg|].
  unfold recommend_of. repeat split; intros H.
  - now rewrite (proj2 (Z.leb_le _ _) H).
  - rewrite (proj2 (Z.leb_gt _ _) (proj2 H)).
    now rewrite (proj2 (Z.leb_le _ _) (proj1 H)).
  - rewrite (proj2 (Z.leb_gt 70 _)) by lia.
    now rewrite (proj2 (Z.leb_gt 55 _) H).
Qed.

(** X1, witness: the top finding of the demonstration run. *)
Lemma computeMateriality_score_range_witness :
  exists f,
    hd_error (State.findings (computeMateriality (scanDoc demo_doc State.init)))
    = Some f
    /\ (0 <= Finding.score f <= 100)%Z.
Proof.
  destruct (State.findings (computeMateriality (scanDoc demo_doc State.init)))
    as [|f l] eqn:E; [vm_compute in E; discriminate E|].
  exists f. split; [reflexivity|].
  refine (proj1 (computeMateriality_score_range
                   (scanDoc demo_doc State.init) f _)).
  rewrite E. now left.
Defined.

(** X2: [computeMateriality] leaves the findings sorted by descending score;
    it neither drops nor duplicates a finding (the identities are a
    permutation of those before); and findings of equal score keep the
    relative order they had in the list. *)
Theorem computeMateriality_sorted_stable (st : State.t) :
  StronglySorted (fun a b => (Finding.score b <= Finding.score a)%Z)
    (State.findings (computeMateriality st))
  /\ Permutation
       (List.map Finding.id (State.findings (computeMateriality st)))
       (List.map Finding.id (State.findings st))
  /\ forall z,
       sublist
         (List.map Finding.id
            (List.filter (fun f => (Finding.score f =? z)%Z)
               (State.findings (computeMateriality st))))
         (List.map Finding.id (State.findings st)).
Proof.
  unfold computeMateriality. cbn [State.findings State.with_findings].
  set (fs2 := List.map _ (List.map _ (State.findings st))).
  assert (Hid : List.map Finding.id fs2 = List.map Finding.id (State.findings st)).
  { unfold fs2. rewrite !List.map_map. apply List.map_ext. reflexivity. }
  split; [apply sort_desc_sorted|]. split.
  - rewrite <- Hid. apply Permutation_map, sort_desc_perm.
  - intros z. rewrite sort_desc_filter, <- Hid. apply filter_map_sublist.
Qed.

(* ================================================================== *)
(** ** What the patterns capture *)
(* ================================================================== *)

Section RegexFacts.

(** A match on code-unit literals that the unit [c] escapes. *)
Ltac not_unit c :=
  destruct c as [|c]; [discriminate|];
  repeat first [discriminate | congruence | destruct c as [c|c|]].

Lemma search_Some {A : Type} (k : text -> option A) s s' r :
  Regex.search k s = Some (s', r) ->
  k s' = Some r /\ exists pre, s = pre ++ s'.
Proof.
  induction s as [|c s IH]; cbn.
  - destruct (k []) eqn:E; [|discriminate].
    intros [= <- <-]. split; [exact E|now exists []].
  - destruct (k (c :: s)) eqn:E.
    + intros [= <- <-]. split; [exact E|now exists []].
    + intros H. destruct (IH H) as (Hk & pre & ->).
      split; [exact Hk|now exists (c :: pre)].
Qed.

Lemma lazy_gap_Some {A : Type} (k : text -> option A) n : forall s r,
  Regex.lazy_gap n k s = Some r ->
  exists pre s', s = pre ++ s' /\ k s' = Some r.
Proof.
  induction n as [|n IH]; intros s r; cbn.
  - destruct (k s) eqn:E; [|discriminate].
    intros [= <-]. now exists [], s.
  - destruct (k s) eqn:E.
    + intros [= <-]. now exists [], s.
    + destruct s as [|c s]; [discriminate|].
      intros H. destruct (IH _ _ H) as (pre & s' & -> & Hk).
      now exists (c :: pre), s'.
Qed.

Lemma greedy_gap_Some {A : Type} (k : text -> option A) n : forall s r,
  Regex.greedy_gap n k s = Some r ->
  exists pre s', s = pre ++ s' /\ k s' = Some r.
Proof.
  induction n as [|n IH]; intros s r; cbn.
  - intros H. now exists [], s.
  - destruct s as [|c s]; [intros H; now exists [], []|].
    destruct (Regex.greedy_gap n k s) eqn:E.
    + intros [= <-]. destruct (IH _ _ E) as (pre & s' & -> & Hk).
      now exists (c :: pre), s'.
    + intros H. now exists [], (c :: s).
Qed.

Lemma match_ci_Some p : forall s s1,
  Regex.match_ci p s = Some s1 -> exists m, s = m ++ s1.
Proof.
  induction p as [|a p IH]; intros s s1; cbn.
  - intros [= <-]. now exists [].
  - destruct s as [|b s]; [discriminate|].
    destruct (ci_eq a b); [|discriminate].
    intros H. destruct (IH _ _ H) as (m & ->). now exists (b :: m).
Qed.

Lemma span_digits_spec s : forall ds r,
  span_digits s = (ds, r) ->
  s = ds ++ r /\ forallb is_digit ds = true.
Proof.
  induction s as [|c s IH]; intros ds r; cbn.
  - intros [= <- <-]. now split.
  - destruct (is_digit c) eqn:E.
    + destruct (span_digits s) as [ds' r'] eqn:Es.
      intros [= <- <-]. destruct (IH _ _ eq_refl) as [-> Hd].
      cbn. now rewrite E.
    + intros [= <- <-]. now split.
Qed.

(** A run of digits followed by something that is not a digit is what
    [span_digits] splits off. *)
Lemma span_digits_app ds r :
  forallb is_digit ds = true ->
  match r with c :: _ => is_digit c = false | [] => True end ->
  span_digits (ds ++ r) = (ds, r).
Proof.
  intros Hd Hr. induction ds as [|d ds IH]; cbn in *.
  - destruct r as [|c r]; [reflexivity|]. cbn. now rewrite Hr.
  - apply andb_prop in Hd. destruct Hd as [Hd Hds].
    now rewrite Hd, (IH Hds).
Qed.

Lemma match_fraction_percent_Some s f r :
  Regex.match_fraction_percent s = Some (f, r) ->
  s = f ++ 37%N :: r
  /\ exists fp, forallb is_digit fp = true
                /\ f = match fp with [] => [] | _ => 46%N :: fp end.
Proof.
  unfold Regex.match_fraction_percent.
  destruct s as [|c s]; [discriminate|].
  destruct (N.eq_dec c 46%N) as [->|H46].
  - destruct (span_digits s) as [ds r'] eqn:E.
    destruct (span_digits_spec _ _ _ E) as [-> Hd].
    destruct ds as [|d ds]; [discriminate|].
    destruct r' as [|p r']; [discriminate|].
    destruct (N.eq_dec p 37%N) as [->|H37].
    + intros [= <- <-]. split; [reflexivity|].
      now exists (d :: ds).
    + intros H. exfalso. revert H. clear -H37. not_unit p.
  - destruct (N.eq_dec c 37%N) as [->|H37].
    + intros [= <- <-]. split; [reflexivity|]. now exists [].
    + intros H. exfalso. revert H. clear -H46 H37. not_unit c.
Qed.

Lemma match_percent_Some s c r :
  Regex.match_percent s = Some (c, r) ->
  s = c ++ 37%N :: r /\ exists ip fp, captured c ip fp.
Proof.
  unfold Regex.match_percent.
  destruct s as [|d1 s1]; [discriminate|].
  destruct (is_digit d1) eqn:E1; [|discriminate].
  destruct s1 as [|d2 s2]; [discriminate|].
  destruct (is_digit d2) eqn:E2.
  - destruct (Regex.match_fraction_percent s2) as [[f r']|] eqn:Ef;
      [|discriminate].
    intros [= <- <-].
    destruct (match_fraction_percent_Some _ _ _ Ef) as (-> & fp & Hfp & ->).
    split; [reflexivity|]. exists [d1; d2], fp.
    unfold captured. cbn. rewrite E1, E2. repeat split; auto.
  - destruct (Regex.match_fraction_percent (d2 :: s2)) as [[f r']|] eqn:Ef;
      [|discriminate].
    intros [= <- <-].
    destruct (match_fraction_percent_Some _ _ _ Ef) as (-> & fp & Hfp & Hf).
    split; [reflexivity|]. exists [d1], fp.
    unfold captured. cbn. rewrite E1. repeat split; auto. now rewrite Hf.
Qed.

Lemma digit_cases c :
  is_digit c = true ->
  (c = 48 \/ c = 49 \/ c = 50 \/ c = 51 \/ c = 52 \/ c = 53 \/ c = 54
   \/ c = 55 \/ c = 56 \/ c = 57)%N.
Proof.
  unfold is_digit. intros H. apply andb_prop in H. destruct H as [H1 H2].
  apply N.leb_le in H1, H2. lia.
Qed.

Lemma dot_not_digit : is_digit 46 = false.
Proof. reflexivity. Qed.

(** A digit is neither white space nor a sign, and does not start
    [Infinity]: [parseFloat] goes straight to the digits. *)
Lemma parseFloat_digit_head d t :
  is_digit d = true ->
  parseFloat (d :: t)
  = let '(ip, r1) := span_digits (d :: t) in
    let '(fp, r2) :=
      match r1 with
      | 46%N :: r => span_digits r
      | _ => ([], r1)
      end in
    match ip ++ fp with
    | [] => NaN
    | ds =>
        Fin (Qred (inject_Z (Z.of_N (digits_value ds))
                   * Qpower 10 (parse_exponent r2 - Z.of_nat (length fp))))
    end.
Proof.
  intros H. apply digit_cases in H.
  destruct H as [->|[->|[->|[->|[->|[->|[->|[->|[->| ->]]]]]]]]];
    reflexivity.
Qed.

Lemma digits_value_snoc ds c :
  digits_value (ds ++ [c]) = (10 * digits_value ds + (c - 48))%N.
Proof. unfold digits_value. now rewrite fold_left_app. Qed.

Lemma digits_value_bound ds :
  forallb is_digit ds = true ->
  (digits_value ds < 10 ^ N.of_nat (length ds))%N.
Proof.
  induction ds as [|c ds IH] using rev_ind; intros H.
  - cbn. lia.
  - rewrite forallb_app in H. apply andb_prop in H. destruct H as [Hds Hc].
    cbn in Hc. rewrite andb_true_r in Hc.
    specialize (IH Hds). rewrite digits_value_snoc, length_app.
    cbn [length]. rewrite Nat.add_1_r, Nat2N.inj_succ, N.pow_succ_r'.
    unfold is_digit in Hc. apply andb_prop in Hc. destruct Hc as [H1 H2].
    apply N.leb_le in H1, H2. lia.
Qed.

Lemma parseFloat_captured c ip fp :
  captured c ip fp ->
  parseFloat c
  = Fin (Qred (inject_Z (Z.of_N (digits_value (ip ++ fp)))
               * Qpower 10 (0 - Z.of_nat (length fp)))).
Proof.
  intros (Hlen & Hip & Hfp & ->).
  destruct ip as [|d ip]; [cbn in Hlen; lia|].
  cbn [forallb] in Hip. apply andb_prop in Hip. destruct Hip as [Hd Hip].
  cbn [app]. rewrite (parseFloat_digit_head d _ Hd).
  change (d :: ip ++ match fp with [] => [] | _ :: _ => 46%N :: fp end)
    with ((d :: ip) ++ match fp with [] => [] | _ :: _ => 46%N :: fp end).
  rewrite span_digits_app.
  - destruct fp as [|x fp].
    + cbn [app length]. rewrite app_nil_r. reflexivity.
    + rewrite <- (app_nil_r (x :: fp)) at 1.
      rewrite (span_digits_app (x :: fp) [] Hfp I). reflexivity.
  - cbn. now rewrite Hd, Hip.
  - destruct fp; [exact I|exact dot_not_digit].
Qed.

(** The captured number is a percentage below 100. *)
Lemma captured_value c ip fp :
  captured c ip fp -> exists v, parseFloat c = Fin v /\ 0 <= v /\ v < 100.
Proof.
  intros Hc. rewrite (parseFloat_captured c ip fp Hc).
  destruct Hc as (Hlen & Hip & Hfp & _).
  eexists. split; [reflexivity|].
  set (n := digits_value (ip ++ fp)).
  set (k := length fp).
  assert (Hn : (n < 10 ^ N.of_nat (length (ip ++ fp)))%N).
  { apply digits_value_bound. rewrite forallb_app. now rewrite Hip, Hfp. }
  rewrite length_app in Hn. fold k in Hn.
  assert (Hpow : Qpower 10 (0 - Z.of_nat k) == / inject_Z (10 ^ Z.of_nat k)).
  { change (0 - Z.of_nat k)%Z with (- Z.of_nat k)%Z.
    rewrite Qpower_opp. apply Qinv_comp.
    symmetry. apply (Zpower_Qpower 10). lia. }
  rewrite Qred_correct, Hpow.
  assert (Hp : (0 < 10 ^ Z.of_nat k)%Z) by (apply Z.pow_pos_nonneg; lia).
  assert (Hnz : (Z.of_N n < 100 * 10 ^ Z.of_nat k)%Z).
  { assert (Hle : (10 ^ N.of_nat (length ip + k)
                   <= 100 * 10 ^ N.of_nat k)%N).
    { rewrite Nat2N.inj_add, N.pow_add_r.
      apply N.mul_le_mono_r.
      destruct ip as [|a [|b [|? ?]]]; cbn in Hlen |- *; lia. }
    assert (Hz : (Z.of_N (100 * 10 ^ N.of_nat k)
                  = 100 * 10 ^ Z.of_nat k)%Z).
    { rewrite N2Z.inj_mul, N2Z.inj_pow, nat_N_Z. reflexivity. }
    lia. }
  split.
  - apply Qmult_le_0_compat.
    + change 0 with (inject_Z 0). rewrite <- Zle_Qle. lia.
    + apply Qinv_le_0_compat.
      change 0 with (inject_Z 0). rewrite <- Zle_Qle. lia.
  - apply Qlt_shift_div_r.
    + change 0 with (inject_Z 0). now rewrite <- Zlt_Qlt.
    + change 100 with (inject_Z 100). rewrite <- inject_Z_mult.
      now rewrite <- Zlt_Qlt.
Qed.

(** What is behind a hit: the capture group of a match of the percentage
    pattern somewhere in the text, which therefore holds a percent sign. *)
Lemma hit_of_Some m h :
  hit_of m = Some h ->
  exists s m1 rest,
    m = Some (s, (m1, rest))
    /\ parseFloat m1 = Fin (val h)
    /\ snippet h = slice (Regex.matched s rest) 0 280.
Proof.
  unfold hit_of. destruct m as [[s [m1 rest]]|]; [|discriminate].
  destruct (parseFloat m1) eqn:E; try discriminate.
  intros [= <-]. now exists s, m1, rest.
Qed.

Lemma percent_after_gap s m1 rest :
  (exists pre s', s = pre ++ s' /\ Regex.match_percent s' = Some (m1, rest)) ->
  In 37%N s /\ exists ip fp, captured m1 ip fp.
Proof.
  intros (pre & s' & -> & Hm).
  destruct (match_percent_Some _ _ _ Hm) as (-> & Hc).
  split; [|exact Hc].
  apply in_or_app. right. apply in_or_app. right. now left.
Qed.

Lemma percent_near_Some keyword s m1 rest :
  Regex.percent_near keyword s = Some (m1, rest) ->
  In 37%N s /\ exists ip fp, captured m1 ip fp.
Proof.
  unfold Regex.percent_near.
  destruct (Regex.match_ci keyword s) as [s1|] eqn:E; [|discriminate].
  intros H. destruct (match_ci_Some _ _ _ E) as (m & ->).
  destruct (percent_after_gap s1 m1 rest (lazy_gap_Some _ _ _ _ H))
    as [Hin Hc].
  split; [|exact Hc]. apply in_or_app. now right.
Qed.

Lemma age6574_transport_Some s m1 rest :
  Regex.age6574_transport s = Some (m1, rest) ->
  In 37%N s /\ exists ip fp, captured m1 ip fp.
Proof.
  unfold Regex.age6574_transport.
  destruct (Regex.match_ci (lit "65") s) as [s1|] eqn:E1; [|discriminate].
  destruct (match_ci_Some _ _ _ E1) as (m & ->).
  assert (Hdrop : forall x, exists w, x = w ++ drop_spaces x).
  { induction x as [|c x IH]; [now exists []|]. cbn.
    destruct (is_space c); [|now exists []].
    destruct IH as (w & Hw). exists (c :: w). cbn. now rewrite <- Hw. }
  destruct (drop_spaces s1) as [|c s2] eqn:E2; [discriminate|].
  destruct (Regex.is_dash c); [|discriminate].
  destruct (Regex.match_ci (lit "74") (drop_spaces s2)) as [s3|] eqn:E3;
    [|discriminate].
  intros H. apply greedy_gap_Some in H. destruct H as (pre & s4 & -> & H).
  destruct (Regex.match_ci (lit "transportation") s4) as [s5|] eqn:E5;
    [|discriminate].
  destruct (percent_after_gap s5 m1 rest (lazy_gap_Some _ _ _ _ H))
    as [Hin Hc].
  split; [|exact Hc].
  destruct (match_ci_Some _ _ _ E5) as (m5 & ->).
  destruct (match_ci_Some _ _ _ E3) as (m3 & E3').
  destruct (Hdrop s2) as (w2 & Hw2). destruct (Hdrop s1) as (w1 & Hw1).
  rewrite Hw1, E2, Hw2, E3'.
  repeat (apply in_or_app; right). 
  right. repeat (apply in_or_app; right). exact Hin.
Qed.

(** Facts on a hit: the text holds a percent sign, the value is a
    percentage below 100, and the snippet is at most 280 units long. *)
Lemma search_hit (k : text -> option (text * text)) t h :
  (forall s m1 rest, k s = Some (m1, rest) ->
     In 37%N s /\ exists ip fp, captured m1 ip fp) ->
  hit_of (Regex.search k t) = Some h ->
  In 37%N t /\ 0 <= val h /\ val h < 100 /\ (length (snippet h) <= 280)%nat.
Proof.
  intros Hk H. destruct (hit_of_Some _ _ H) as (s & m1 & rest & Hs & Hv & Hsn).
  apply search_Some in Hs. destruct Hs as (Hks & pre & ->).
  destruct (Hk _ _ _ Hks) as (Hin & ip & fp & Hc).
  destruct (captured_value _ _ _ Hc) as (v & Hv' & H0 & H100).
  rewrite Hv in Hv'. injection Hv' as <-.
  split; [apply in_or_app; now right|].
  split; [exact H0|]. split; [exact H100|].
  rewrite Hsn. unfold slice. apply firstn_le_length.
Qed.

Lemma findPercentNear_hit t keyword h :
  findPercentNear t keyword = Some h ->
  In 37%N t /\ 0 <= val h /\ val h < 100 /\ (length (snippet h) <= 280)%nat.
Proof. apply search_hit. apply percent_near_Some. Qed.

Lemma findAge6574Transport_hit t h :
  findAge6574Transport t = Some h ->
  In 37%N t /\ 0 <= val h /\ val h < 100 /\ (length (snippet h) <= 280)%nat.
Proof. apply search_hit. apply age6574_transport_Some. Qed.

Lemma is_hit_facts h :
  is_hit h ->
  0 <= val h /\ val h < 100 /\ (length (snippet h) <= 280)%nat.
Proof.
  intros [(t & kw & H)|(t & H)].
  - now apply findPercentNear_hit in H.
  - now apply findAge6574Transport_hit in H.
Qed.

End RegexFacts.

(* ================================================================== *)
(** ** Invariants of the scan *)
(* ================================================================== *)

Section ScanInvariants.

(** Whatever holds of a state and survives every step of the page loop
    holds after a scan: a step records one piece of evidence and submits it
    to [addFinding], or sets one of the two transportation scalars to the
    value of a hit. *)
Lemma scanDocs_ind (P : State.t -> Prop) (names : list string) :
  (forall k d seg h name i prom st,
      In (k, d, seg) call_sites -> is_hit h -> In name names -> P st ->
      P (addFinding k d seg (val h) prom (evidence_ref name i)
           (recordEvidence d (snippet h) name (i + 1) st))) ->
  (forall h st,
      is_hit h -> P st ->
      Transport.overall (State.transport st) = None ->
      P (State.with_transport
           {| Transport.overall := Some (val h);
              Transport.age6574 := Transport.age6574 (State.transport st) |}
           st)) ->
  (forall h st,
      is_hit h -> P st ->
      P (State.with_transport
           {| Transport.overall := Transport.overall (State.transport st);
              Transport.age6574 := Some (val h) |}
           st)) ->
  forall ds st,
    incl (List.map Doc.name ds) names -> P st -> P (scanDocs ds st).
Proof.
  intros Hstep Hov Hage.
  assert (Hoverall : forall name i t prom st,
             In name names -> P st -> P (scan_overall name i t prom st)).
  { intros name i t prom st Hn HP. unfold scan_overall.
    destruct (findPercentNear t (lit "transportation")) as [tr|] eqn:E;
      [|exact HP].
    assert (Hh : is_hit tr) by (left; eauto).
    assert (HP' : P (addFinding "transport" "Transportation barrier"
                       seg_overall (val tr) (prominence_get prom "transport")
                       (evidence_ref name i)
                       (recordEvidence "Transportation barrier" (snippet tr)
                          name (i + 1) st))).
    { apply Hstep; auto. now left. }
    destruct (Transport.overall (State.transport _)) eqn:Eo; [exact HP'|].
    now apply Hov. }
  assert (Hag : forall name i t prom st,
             In name names -> P st -> P (scan_age6574 name i t prom st)).
  { intros name i t prom st Hn HP. unfold scan_age6574.
    destruct (findAge6574Transport t) as [tr|] eqn:E; [|exact HP].
    assert (Hh : is_hit tr) by (right; eauto).
    apply Hage; [exact Hh|].
    apply Hstep; auto. right. now left. }
  assert (Hother : forall name i t prom l st,
             In name names -> incl l DISPARITIES -> P st ->
             P (foldl (scan_other name i t prom) st l)).
  { intros name i t prom l. induction l as [|d l IH]; intros st Hn Hl HP;
      [exact HP|].
    cbn [foldl]. apply IH; [exact Hn|intros x Hx; apply Hl; now right|].
    unfold scan_other.
    destruct (String.eqb (Disparity.key d) "transport") eqn:Ek; [exact HP|].
    destruct (findPercentNear t _) as [p|] eqn:E; [|exact HP].
    apply Hstep; auto; [|left; eauto].
    unfold call_sites. apply in_or_app. right.
    apply (List.in_map
             (fun d => (Disparity.key d, Disparity.label d, seg_overall))).
    apply List.filter_In. split; [apply Hl; now left|]. now rewrite Ek. }
  assert (Hpages : forall name pages i prom st,
             In name names -> P st -> P (scanPages name i pages prom st)).
  { intros name pages. induction pages as [|t pages IH];
      intros i prom st Hn HP; [exact HP|].
    cbn [scanPages]. unfold scanPage. apply IH; [exact Hn|].
    apply Hother; [exact Hn|apply incl_refl|].
    apply Hag; [exact Hn|]. now apply Hoverall. }
  intros ds. induction ds as [|d ds IH]; intros st Hn HP; [exact HP|].
  cbn [scanDocs foldl]. fold (scanDocs ds (scanDoc d st)).
  apply IH; [intros x Hx; apply Hn; now right|].
  unfold scanDoc. apply Hpages; [apply Hn; now left|exact HP].
Qed.

(** The identities after one call of [addFinding]. *)
Lemma map_id_replace_first i y l x :
  List.find (Finding.has_id i) l = Some x ->
  Finding.id y = Finding.id x ->
  List.map Finding.id (replace_first (Finding.has_id i) y l)
  = List.map Finding.id l.
Proof.
  intros Hf Hy. induction l as [|a l IH]; [discriminate|].
  cbn in *. destruct (Finding.has_id i a) eqn:Ea.
  - injection Hf as ->. cbn. now rewrite Hy.
  - cbn. now rewrite IH.
Qed.

Lemma addFinding_ids k d s m p e st :
  List.map Finding.id (State.findings (addFinding k d s m p e st))
  = match stored k s st with
    | Some _ => List.map Finding.id (State.findings st)
    | None => List.map Finding.id (State.findings st) ++ [finding_id k s]
    end.
Proof.
  unfold addFinding, stored.
  destruct (List.find _ _) as [ex|] eqn:E.
  - destruct (Qgtb _ _); [|reflexivity].
    cbn [State.findings State.with_findings].
    now apply map_id_replace_first with (x := ex).
  - cbn [State.findings State.with_findings].
    now rewrite List.map_app.
Qed.

Lemma stored_None_not_In k s st :
  stored k s st = None ->
  ~ In (finding_id k s) (List.map Finding.id (State.findings st)).
Proof.
  intros Hn Hin. apply List.in_map_iff in Hin.
  destruct Hin as (f & Hid & Hf).
  pose proof (find_none _ _ Hn f Hf) as H.
  unfold Finding.has_id in H. rewrite Hid, String.eqb_refl in H.
  discriminate.
Qed.

Lemma recordEvidence_findings l s d p st :
  State.findings (recordEvidence l s d p st) = State.findings st.
Proof. reflexivity. Qed.

Lemma stored_recordEvidence k s l sn d p st :
  stored k s (recordEvidence l sn d p st) = stored k s st.
Proof. reflexivity. Qed.



Lemma addFinding_nonempty k d s m p e st :
  State.findings (addFinding k d s m p e st) <> [].
Proof.
  unfold addFinding. destruct (List.find _ _) as [ex|] eqn:E.
  - assert (Hne : State.findings st <> [])
      by (destruct (State.findings st); [discriminate E|discriminate]).
    destruct (Qgtb _ _); [|exact Hne].
    cbn [State.findings State.with_findings].
    destruct (State.findings st) as [|a l]; [contradiction|].
    cbn. destruct (Finding.has_id _ a); discriminate.
  - cbn [State.findings State.with_findings].
    destruct (State.findings st); discriminate.
Qed.

Lemma addFinding_evidence k d s m p e st :
  State.evidence (addFinding k d s m p e st) = State.evidence st.
Proof.
  unfold addFinding. destruct (List.find _ _); [|reflexivity].
  destruct (Qgtb _ _); reflexivity.
Qed.

Lemma call_site_label k d seg :
  In (k, d, seg) call_sites -> In d (List.map Disparity.label DISPARITIES).
Proof.
  intros H. vm_compute in H.
  repeat (destruct H as [H|H]; [injection H as <- <- <-; vm_compute; tauto|]).
  destruct H.
Qed.

End ScanInvariants.

(** X3: a scan keeps at most one finding per identity: if the identities of
    the stored findings are pairwise distinct and among the six that
    [scanDoc] can create, they stay so, and no more than six findings are
    stored. *)
Theorem scanDocs_one_finding_per_identity (ds : list Doc.t) (st : State.t) :
  NoDup (List.map Finding.id (State.findings st)) ->
  incl (List.map Finding.id (State.findings st)) finding_ids ->
  NoDup (List.map Finding.id (State.findings (scanDocs ds st)))
  /\ incl (List.map Finding.id (State.findings (scanDocs ds st))) finding_ids
  /\ (length (State.findings (scanDocs ds st)) <= 6)%nat.
Proof.
  intros Hnd Hincl.
  assert (H : NoDup (List.map Finding.id (State.findings (scanDocs ds st)))
              /\ incl (List.map Finding.id (State.findings (scanDocs ds st)))
                   finding_ids).
  { apply (scanDocs_ind
             (fun s => NoDup (List.map Finding.id (State.findings s))
                       /\ incl (List.map Finding.id (State.findings s))
                            finding_ids)
             (List.map Doc.name ds)); auto using incl_refl.
    intros k d seg h name i prom s Hc _ _ [Hn Hi].
    rewrite addFinding_ids, stored_recordEvidence, recordEvidence_findings.
    destruct (stored k seg s) eqn:E; [now split|]. split.
    - apply NoDup_app. split; [exact Hn|]. split.
      + intros x Hx [<-|[]]%list_elem_of_In.
        apply (stored_None_not_In _ _ _ E). now apply list_elem_of_In.
      + apply NoDup_singleton.
    - apply incl_app; [exact Hi|]. intros x [<-|[]].
      unfold finding_ids.
      apply (List.in_map (fun c => finding_id (fst (fst c)) (snd c))
               call_sites (k, d, seg) Hc). }
  destruct H as [Hn Hi]. split; [exact Hn|]. split; [exact Hi|].
  rewrite <- (length_map Finding.id).
  change 6%nat with (length finding_ids).
  apply NoDup_incl_length; [|exact Hi].
  now apply NoDup_ListNoDup.
Qed.

(** X3, witness: a scan of the demonstration document from the initial
    state. *)
Lemma scanDocs_one_finding_per_identity_witness :
  NoDup (List.map Finding.id (State.findings State.init))
  /\ incl (List.map Finding.id (State.findings State.init)) finding_ids
  /\ (length (State.findings (scanDocs [demo_doc] State.init)) <= 6)%nat.
Proof.
  assert (H1 : NoDup (List.map Finding.id (State.findings State.init)))
    by constructor.
  assert (H2 : incl (List.map Finding.id (State.findings State.init))
                 finding_ids) by (intros x []).
  split; [exact H1|]. split; [exact H2|].
  exact (proj2 (proj2 (scanDocs_one_finding_per_identity
                         [demo_doc] State.init H1 H2))).
Defined.

Section AggregatorFrame.

Lemma find_replace_first_other {A : Type} (p q : A -> bool) y l x :
  List.find p l = Some x -> q x = false -> q y = false ->
  List.find q (replace_first p y l) = List.find q l.
Proof.
  intros Hf Hx Hy. induction l as [|a l IH]; [discriminate|].
  cbn in *. destruct (p a) eqn:Ea.
  - injection Hf as ->. cbn. now rewrite Hx, Hy.
  - cbn. destruct (q a); [reflexivity|]. now apply IH.
Qed.

Lemma find_snoc_other {A : Type} (q : A -> bool) l x :
  q x = false -> List.find q (l ++ [x]) = List.find q l.
Proof.
  intros Hx. induction l as [|a l IH]; cbn.
  - now rewrite Hx.
  - destruct (q a); [reflexivity|exact IH].
Qed.

Lemma length_replace_first {A : Type} (p : A -> bool) y l :
  length (replace_first p y l) = length l.
Proof.
  induction l as [|a l IH]; cbn; [reflexivity|].
  destruct (p a); cbn; [reflexivity|now rewrite IH].
Qed.

End AggregatorFrame.

(** X4: a call of [addFinding] for one identity leaves the finding stored
    for any other identity as it is, never removes a finding, and adds at
    most one. *)
Theorem addFinding_other_identity (k s k' s' d e : string) (m : Q) (p : nat)
  (st : State.t) :
  finding_id k' s' <> finding_id k s ->
  stored k' s' (addFinding k d s m p e st) = stored k' s' st
  /\ (length (State.findings st)
      <= length (State.findings (addFinding k d s m p e st))
      <= S (length (State.findings st)))%nat.
Proof.
  intros Hne.
  assert (Hq : forall x, Finding.id x = finding_id k s ->
                 Finding.has_id (finding_id k' s') x = false).
  { intros x Hx. unfold Finding.has_id. rewrite Hx.
    apply String.eqb_neq. congruence. }
  unfold stored, addFinding.
  destruct (List.find (Finding.has_id (finding_id k s)) (State.findings st))
    as [ex|] eqn:E.
  - assert (Hex : Finding.id ex = finding_id k s).
    { apply find_some in E. destruct E as [_ E].
      now apply String.eqb_eq in E. }
    destruct (Qgtb _ _); [|split; [reflexivity|lia]].
    cbn [State.findings State.with_findings]. split.
    + eapply find_replace_first_other; eauto.
    + rewrite length_replace_first. lia.
  - cbn [State.findings State.with_findings]. split.
    + apply find_snoc_other. now apply Hq.
    + rewrite length_app. cbn. lia.
Qed.

(** X4, witness: submitting the food finding does not touch the stored
    transportation finding of the demonstration scan. *)
Lemma addFinding_other_identity_witness :
  let st := scanDoc demo_doc State.init in
  finding_id "transport" seg_overall <> finding_id "food" seg_overall
  /\ stored "transport" seg_overall
       (addFinding "food" "Food insecurity" seg_overall 50 9 "x p.1" st)
     = stored "transport" seg_overall st.
Proof.
  intros st.
  assert (H : finding_id "transport" seg_overall
              <> finding_id "food" seg_overall) by discriminate.
  split; [exact H|].
  exact (proj1 (addFinding_other_identity "food" seg_overall "transport"
                  seg_overall "Food insecurity" "x p.1" 50 9 st H)).
Defined.

(** X5: the evidence list is append-only under a scan: the records held
    before stay in front, and every record added has a page number of at
    least 1, a snippet of at most 280 code units, the name of one of the
    scanned documents and the label of one of the disparities. *)
Theorem scanDocs_evidence_append_only (ds : list Doc.t) (st : State.t) :
  exists added,
    State.evidence (scanDocs ds st) = State.evidence st ++ added
    /\ Forall
         (fun e =>
            (1 <= Evidence.page e)%nat
            /\ (length (Evidence.snippet e) <= 280)%nat
            /\ In (Evidence.doc e) (List.map Doc.name ds)
            /\ In (Evidence.disparity e)
                 (List.map Disparity.label DISPARITIES))
         added.
Proof.
  apply (scanDocs_ind
           (fun s =>
              exists added,
                State.evidence s = State.evidence st ++ added
                /\ Forall
                     (fun e =>
                        (1 <= Evidence.page e)%nat
                        /\ (length (Evidence.snippet e) <= 280)%nat
                        /\ In (Evidence.doc e) (List.map Doc.name ds)
                        /\ In (Evidence.disparity e)
                             (List.map Disparity.label DISPARITIES))
                     added)
           (List.map Doc.name ds)).
  - intros k d seg h name i prom s Hc Hh Hn (added & Ha & Hall).
    exists (added ++ [ {| Evidence.disparity := d;
                          Evidence.snippet := snippet h;
                          Evidence.doc := name;
                          Evidence.page := i + 1 |} ]).
    split.
    + rewrite addFinding_evidence. unfold recordEvidence.
      cbn [State.evidence State.with_evidence]. now rewrite Ha, app_assoc.
    + apply Forall_app. split; [exact Hall|].
      constructor; [|constructor]. cbn.
      split; [lia|]. split; [apply (is_hit_facts h Hh)|].
      split; [exact Hn|]. eapply call_site_label; eauto.
  - intros h s _ H _. exact H.
  - intros h s _ H. exact H.
  - apply incl_refl.
  - exists []. split; [now rewrite app_nil_r|constructor].
Qed.

(** X6: after the handler of "Process Files" has run, the evidence list is
    empty exactly when the findings list is: the "no signals" state it
    reports on empty evidence is the state without findings. *)
Theorem process_no_signal (ds : list Doc.t) (st : State.t) :
  State.evidence (process ds st) = []
  <-> State.findings (process ds st) = [].
Proof.
  set (st0 := {| State.docs := ds; State.evidence := [];
                 State.findings := []; State.opportunities := [];
                 State.selectedOpp := None;
                 State.transport := Transport.empty; State.chnaEval := [];
                 State.model := State.model st |}).
  assert (Hscan : State.evidence (scanDocs ds st0) = []
                  <-> State.findings (scanDocs ds st0) = []).
  { apply (scanDocs_ind
             (fun s => State.evidence s = [] <-> State.findings s = [])
             (List.map Doc.name ds)); auto using incl_refl.
    - intros k d seg h name i prom s _ _ _ _. split.
      + rewrite addFinding_evidence. unfold recordEvidence.
        cbn [State.evidence State.with_evidence]. intros H.
        destruct (State.evidence s); discriminate H.
      + intros H. now apply addFinding_nonempty in H.
    - now split. }
  unfold process. fold st0.
  cbn [buildOpportunities computeMateriality State.evidence State.findings
       State.with_opportunities State.with_findings State.transport].
  rewrite Hscan. split.
  - intros ->. reflexivity.
  - intros H.
    match type of H with
    | sort_desc _ ?l = [] =>
        pose proof (sort_desc_perm Finding.score l) as HP;
        rewrite H in HP; apply Permutation_nil in HP; rename HP into Hl
    end.
    apply map_eq_nil in Hl. now apply map_eq_nil in Hl.
Qed.

Section NoPercentSign.

Lemma findPercentNear_no_percent t keyword :
  ~ In 37%N t -> findPercentNear t keyword = None.
Proof.
  intros Hn. destruct (findPercentNear t keyword) as [h|] eqn:E;
    [|reflexivity].
  apply findPercentNear_hit in E. tauto.
Qed.

Lemma findAge6574Transport_no_percent t :
  ~ In 37%N t -> findAge6574Transport t = None.
Proof.
  intros Hn. destruct (findAge6574Transport t) as [h|] eqn:E; [|reflexivity].
  apply findAge6574Transport_hit in E. tauto.
Qed.

Lemma scanPage_no_percent name i t prom st :
  ~ In 37%N t -> snd (scanPage name i t prom st) = st.
Proof.
  intros Hn. unfold scanPage, scan_overall, scan_age6574. cbn [snd].
  rewrite (findPercentNear_no_percent t _ Hn),
    (findAge6574Transport_no_percent t Hn).
  induction DISPARITIES as [|d l IH]; [reflexivity|].
  cbn [foldl]. unfold scan_other at 2.
  rewrite (findPercentNear_no_percent t _ Hn).
  destruct (String.eqb _ _); exact IH.
Qed.

Lemma scanPages_no_percent name pages : forall i prom st,
  (forall t, In t pages -> ~ In 37%N t) ->
  scanPages name i pages prom st = st.
Proof.
  induction pages as [|t pages IH]; intros i prom st Hn; [reflexivity|].
  cbn [scanPages].
  pose proof (scanPage_no_percent name i t prom st (Hn t (or_introl eq_refl)))
    as Hp.
  destruct (scanPage name i t prom st) as [prom' st']. cbn [snd] in Hp.
  subst st'. apply IH. intros t' Ht'. apply Hn. now right.
Qed.

End NoPercentSign.

(** X7: documents whose pages hold no percent sign yield no signal at all:
    the scan returns the state it was given, with the same evidence, findings
    and transportation scalars. *)
Theorem scanDocs_without_percent_sign (ds : list Doc.t) (st : State.t) :
  (forall d t, In d ds -> In t (Doc.textByPage d) -> ~ In 37%N t) ->
  scanDocs ds st = st.
Proof.
  revert st. induction ds as [|d ds IH]; intros st Hn; [reflexivity|].
  cbn [scanDocs foldl]. fold (scanDocs ds (scanDoc d st)).
  unfold scanDoc. rewrite scanPages_no_percent.
  - apply IH. intros d' t Hd. apply Hn. now right.
  - intros t Ht. apply (Hn d t); [now left|exact Ht].
Qed.

(** X7, witness: a page that mentions transportation without any figure. *)
Lemma scanDocs_without_percent_sign_witness :
  scanDocs [txt_doc "scan.txt" "Many residents lack transportation to care."]
    State.init
  = State.init.
Proof.
  apply scanDocs_without_percent_sign.
  intros d t [<-|[]] [<-|[]]. vm_compute.
  intros H. repeat (destruct H as [H|H]; [discriminate H|]). exact H.
Defined.



(* ================================================================== *)
(** ** Further properties of the synthesizer and the gate *)
(* ================================================================== *)

Section SynthesizerRanking.

Lemma In_optional {A B : Type} (x : option A) (f : A -> B) o :
  In o (match x with Some a => [f a] | None => [] end)
  <-> exists g, x = Some g /\ o = f g.
Proof.
  destruct x as [a|]; cbn; split.
  - intros [<-|[]]. now exists a.
  - intros (g & [= <-] & ->). now left.
  - intros [].
  - intros (g & Hg & _). discriminate.
Qed.

(** The opportunities of the output, one by one. *)
Lemma buildOpportunities_cases st o :
  In o (State.opportunities (buildOpportunities st))
  <-> o = transport_opportunity (bestByKey (State.findings st))
      \/ (exists g, List.find (Finding.has_key "food") (State.findings st)
                    = Some g /\ o = food_opportunity g)
      \/ (exists g, List.find (Finding.has_key "access") (State.findings st)
                    = Some g /\ o = care_opportunity g).
Proof.
  rewrite buildOpportunities_In. unfold opps_unsorted.
  rewrite !bestByKey_lookup, !in_app_iff, !In_optional.
  cbn [In]. intuition congruence.
Qed.

Lemma responsiveness_of_bounds z : 0 <= responsiveness_of z <= 100.
Proof. apply clamp_bounds. discriminate. Qed.

Lemma responsiveness_of_mono z1 z2 :
  (z1 <= z2)%Z -> responsiveness_of z1 <= responsiveness_of z2.
Proof.
  intros H. unfold responsiveness_of, clamp.
  apply Q.max_le_compat_l, Q.min_le_compat_l. now rewrite <- Zle_Qle.
Qed.

Lemma scoreOpportunity_mono e a b r1 r2 :
  r1 <= r2 -> (scoreOpportunity e r1 a b <= scoreOpportunity e r2 a b)%Z.
Proof. intros H. unfold scoreOpportunity. apply round_mono. lra. Qed.

Lemma scoreOpportunity_range e a b r :
  0 <= r <= 100 ->
  (scoreOpportunity e 0 a b <= scoreOpportunity e r a b
   <= scoreOpportunity e 100 a b)%Z.
Proof. intros [H0 H1]. split; now apply scoreOpportunity_mono. Qed.

(** A score reaches 60 from a threshold of the finding's score on. *)
Lemma scoreOpportunity_threshold e b t z :
  (scoreOpportunity e (responsiveness_of (t - 1)) attribution b < 60)%Z ->
  (60 <= scoreOpportunity e (responsiveness_of t) attribution b)%Z ->
  (60 <= scoreOpportunity e (responsiveness_of z) attribution b)%Z
  <-> (t <= z)%Z.
Proof.
  intros Hlo Hhi. split.
  - intros H. destruct (Z_lt_le_dec z t) as [Hlt|Hle]; [|exact Hle].
    exfalso.
    pose proof (scoreOpportunity_mono e attribution b _ _
                  (responsiveness_of_mono z (t - 1) ltac:(lia))).
    lia.
  - intros H.
    pose proof (scoreOpportunity_mono e attribution b _ _
                  (responsiveness_of_mono t z H)).
    lia.
Qed.

Lemma sorted_head_max {A : Type} (score : A -> Z) x l :
  StronglySorted (fun a b => (score b <= score a)%Z) (x :: l) ->
  forall o, In o (x :: l) -> (score o <= score x)%Z.
Proof.
  intros H o [<-|Ho]; [lia|].
  apply StronglySorted_inv in H. destruct H as [_ H].
  rewrite List.Forall_forall in H. now apply H.
Qed.

End SynthesizerRanking.

(** X9: the output of [buildOpportunities] holds between one and three
    opportunities, sorted by descending score; the selected opportunity is
    the first one and no other has a larger score; the transportation score
    lies between 54 and 84, the food score between 50 and 80 and the
    access-to-care score between 48 and 78. *)
Theorem buildOpportunities_ranked (st : State.t) :
  StronglySorted
    (fun a b => (Opportunity.score b <= Opportunity.score a)%Z)
    (State.opportunities (buildOpportunities st))
  /\ (1 <= length (State.opportunities (buildOpportunities st)) <= 3)%nat
  /\ (exists top,
        State.selectedOpp (buildOpportunities st) = Some top
        /\ hd_error (State.opportunities (buildOpportunities st)) = Some top
        /\ forall o, In o (State.opportunities (buildOpportunities st)) ->
             (Opportunity.score o <= Opportunity.score top)%Z)
  /\ forall o, In o (State.opportunities (buildOpportunities st)) ->
       (Opportunity.kind o = "nmt"
        /\ (54 <= Opportunity.score o <= 84)%Z)
       \/ (Opportunity.kind o = "food"
           /\ (50 <= Opportunity.score o <= 80)%Z)
       \/ (Opportunity.kind o = "care"
           /\ (48 <= Opportunity.score o <= 78)%Z).
Proof.
  assert (Hs : StronglySorted
                 (fun a b => (Opportunity.score b <= Opportunity.score a)%Z)
                 (State.opportunities (buildOpportunities st)))
    by apply sort_desc_sorted.
  assert (Hlen : length (State.opportunities (buildOpportunities st))
                 = length (opps_unsorted (State.findings st))).
  { apply Permutation_length. unfold buildOpportunities.
    cbn [State.opportunities State.with_opportunities].
    apply sort_desc_perm. }
  split; [exact Hs|]. split; [|split].
  - rewrite Hlen. unfold opps_unsorted.
    destruct (_ !! "food"); destruct (_ !! "access"); cbn; lia.
  - assert (Hsel : State.selectedOpp (buildOpportunities st)
                   = hd_error (State.opportunities (buildOpportunities st)))
      by reflexivity.
    destruct (State.opportunities (buildOpportunities st)) as [|top l].
    + unfold opps_unsorted in Hlen. cbn in Hlen. lia.
    + exists top. split; [exact Hsel|].
      split; [reflexivity|]. now apply sorted_head_max.
  - intros o Ho. apply buildOpportunities_cases in Ho.
    destruct Ho as [->|[(g & _ & ->)|(g & _ & ->)]].
    + left. split; [reflexivity|].
      apply (scoreOpportunity_range 90 attribution 35).
      apply responsiveness_of_bounds.
    + right. left. split; [reflexivity|].
      apply (scoreOpportunity_range 80 attribution 45).
      apply responsiveness_of_bounds.
    + right. right. split; [reflexivity|].
      apply (scoreOpportunity_range 75 attribution 50).
      apply responsiveness_of_bounds.
Qed.

(** X10: after [buildOpportunities] the gate is unlocked exactly when the
    first transportation finding of the list is missing or scores at least
    18, or the first food finding scores at least 33, or the first
    access-to-care finding scores at least 40. *)
Theorem gate_thresholds (st : State.t) :
  tier3Unlocked (buildOpportunities st) = true
  <-> match List.find (Finding.has_key "transport") (State.findings st) with
      | Some f => (18 <= Finding.score f)%Z
      | None => True
      end
      \/ (exists f, List.find (Finding.has_key "food") (State.findings st)
                    = Some f /\ (33 <= Finding.score f)%Z)
      \/ (exists f, List.find (Finding.has_key "access") (State.findings st)
                    = Some f /\ (40 <= Finding.score f)%Z).
Proof.
  assert (Ht : forall z,
             (60 <= scoreOpportunity 90 (responsiveness_of z) attribution 35)%Z
             <-> (18 <= z)%Z)
    by (intros z; now apply scoreOpportunity_threshold).
  assert (Hf : forall z,
             (60 <= scoreOpportunity 80 (responsiveness_of z) attribution 45)%Z
             <-> (33 <= z)%Z)
    by (intros z; now apply scoreOpportunity_threshold).
  assert (Hc : forall z,
             (60 <= scoreOpportunity 75 (responsiveness_of z) attribution 50)%Z
             <-> (40 <= z)%Z)
    by (intros z; now apply scoreOpportunity_threshold).
  assert (Hto : (60 <= Opportunity.score
                         (transport_opportunity (bestByKey (State.findings st))))%Z
                <-> match List.find (Finding.has_key "transport")
                            (State.findings st) with
                    | Some f => (18 <= Finding.score f)%Z
                    | None => True
                    end).
  { unfold transport_opportunity, transport_responsiveness.
    cbn [Opportunity.score]. rewrite bestByKey_lookup.
    destruct (List.find _ _) as [f|]; [apply Ht|].
    split; [trivial|]. intros _. now apply Ht. }
  rewrite tier3Unlocked_spec. split.
  - intros (o & Ho & H60). apply buildOpportunities_cases in Ho.
    destruct Ho as [->|[(g & Hg & ->)|(g & Hg & ->)]].
    + left. now apply Hto.
    + right. left. exists g. split; [exact Hg|]. now apply Hf.
    + right. right. exists g. split; [exact Hg|]. now apply Hc.
  - intros [H|[(g & Hg & H)|(g & Hg & H)]].
    + exists (transport_opportunity (bestByKey (State.findings st))).
      split; [apply buildOpportunities_cases; now left|]. now apply Hto.
    + exists (food_opportunity g).
      split; [apply buildOpportunities_cases; right; left; eauto|].
      now apply Hf.
    + exists (care_opportunity g).
      split; [apply buildOpportunities_cases; right; right; eauto|].
      now apply Hc.
Qed.


(* ================================================================== *)
(** ** Further properties of the gap evaluator *)
(* ================================================================== *)

Section GapEvaluatorFacts.

(** The four scores of a document in terms of what its text includes. *)
Lemma evalDocForElements_fields doc :
  ChnaEval.chnaScore (evalDocForElements doc)
  = percent_score (present_count (doc_lower doc) CHNA_ELEMENTS) 7
  /\ ChnaEval.isScore (evalDocForElements doc)
     = percent_score (present_count (doc_lower doc) IS_ELEMENTS) 3
  /\ ChnaEval.writtenCommentsScore (evalDocForElements doc)
     = comment_level (present_count (doc_lower doc) WRITTEN_COMMENT_ELEMENTS)
  /\ ChnaEval.publicScore (evalDocForElements doc)
     = (if public_signal (doc_lower doc) then 100 else 0)%Z.
Proof.
  set (all := join_pages (Doc.textByPage doc)).
  destruct (scoreBlock_spec all (doc_lower doc) CHNA_ELEMENTS eq_refl)
    as (_ & _ & Hc).
  destruct (scoreBlock_spec all (doc_lower doc) IS_ELEMENTS eq_refl)
    as (_ & _ & Hi).
  destruct (scoreBlock_spec all (doc_lower doc) WRITTEN_COMMENT_ELEMENTS
              eq_refl) as (Hw & _ & _).
  pose proof (present_count_le (doc_lower doc) WRITTEN_COMMENT_ELEMENTS) as Hle.
  change (length WRITTEN_COMMENT_ELEMENTS) with 3%nat in Hle.
  split; [exact Hc|]. split; [exact Hi|]. split.
  - unfold evalDocForElements. cbn zeta. cbn [ChnaEval.writtenCommentsScore].
    change (toLowerCase (join_pages (Doc.textByPage doc)))
      with (doc_lower doc).
    change (join_pages (Doc.textByPage doc)) with all.
    rewrite Hw.
    destruct (present_count (doc_lower doc) WRITTEN_COMMENT_ELEMENTS)
      as [|[|[|[|n]]]]; try reflexivity. lia.
  - unfold evalDocForElements. cbn zeta. cbn [ChnaEval.publicScore].
    change (toLowerCase (join_pages (Doc.textByPage doc)))
      with (doc_lower doc).
    unfold public_signal. now rewrite truthy_first_pat.
Qed.

Lemma percent_score_7 p :
  (p <= 7)%nat ->
  (0 <= percent_score p 7 <= 100)%Z
  /\ (percent_score p 7 = 100%Z <-> p = 7%nat).
Proof.
  intros H.
  destruct p as [|[|[|[|[|[|[|[|p]]]]]]]]; try lia;
    (split; [split; apply Z.leb_le; reflexivity|]);
    (split; intros E;
     [try reflexivity; vm_compute in E; discriminate E
     |try discriminate E; reflexivity]).
Qed.

Lemma percent_score_3 p :
  (p <= 3)%nat ->
  (0 <= percent_score p 3 <= 100)%Z
  /\ (percent_score p 3 = 100%Z <-> p = 3%nat).
Proof.
  intros H.
  destruct p as [|[|[|[|p]]]]; try lia;
    (split; [split; apply Z.leb_le; reflexivity|]);
    (split; intros E;
     [try reflexivity; vm_compute in E; discriminate E
     |try discriminate E; reflexivity]).
Qed.

Lemma comment_level_3 p :
  (p <= 3)%nat -> comment_level p = 100%Z <-> p = 3%nat.
Proof.
  intros H. destruct p as [|[|[|[|p]]]]; try lia; cbn; split; try lia;
    discriminate.
Qed.

Lemma percent_score_mono p1 p2 n :
  (p1 <= p2)%nat -> (percent_score p1 n <= percent_score p2 n)%Z.
Proof.
  intros H. unfold percent_score. apply round_mono.
  apply Qmult_le_compat_r; [|discriminate].
  unfold Qdiv. apply Qmult_le_compat_r.
  - rewrite <- Zle_Qle. lia.
  - apply Qinv_le_0_compat. change 0 with (inject_Z 0).
    rewrite <- Zle_Qle. lia.
Qed.

Lemma comment_level_mono p1 p2 :
  (p1 <= p2)%nat -> (comment_level p1 <= comment_level p2)%Z.
Proof.
  intros H.
  destruct p1 as [|[|[|p1]]], p2 as [|[|[|p2]]]; cbn; lia.
Qed.

Lemma starts_with_app p s t :
  starts_with p s = true -> starts_with p (s ++ t) = true.
Proof.
  revert s. induction p as [|a p IH]; intros s; [reflexivity|].
  destruct s as [|b s]; [discriminate|]. cbn.
  intros H. apply andb_prop in H. destruct H as [-> H]. cbn. now apply IH.
Qed.

Lemma indexOf_eq s p :
  indexOf s p
  = if starts_with p s then Some 0%nat
    else match s with
         | [] => None
         | _ :: s' => option_map S (indexOf s' p)
         end.
Proof. destruct s; reflexivity. Qed.

Lemma indexOf_app s t p : indexOf s p <> None -> indexOf (s ++ t) p <> None.
Proof.
  induction s as [|c s IH]; intros H; rewrite indexOf_eq in H;
    rewrite indexOf_eq.
  - destruct (starts_with p []) eqn:E; [|contradiction].
    now rewrite (starts_with_app p [] t E).
  - destruct (starts_with p (c :: s)) eqn:E.
    + now rewrite (starts_with_app p (c :: s) t E).
    + destruct (starts_with p ((c :: s) ++ t)); [discriminate|].
      cbn [app]. destruct (indexOf s p) eqn:Ei; [|contradiction].
      assert (Hs : indexOf (s ++ t) p <> None) by (apply IH; discriminate).
      destruct (indexOf (s ++ t) p); [discriminate|contradiction].
Qed.

Lemma includes_app s t p : includes s p = true -> includes (s ++ t) p = true.
Proof.
  unfold includes. intros H.
  assert (Hs : indexOf s p <> None)
    by (destruct (indexOf s p); [discriminate|discriminate H]).
  apply (indexOf_app s t p) in Hs.
  destruct (indexOf (s ++ t) p); [reflexivity|contradiction].
Qed.

Lemma join_pages_app pages more :
  exists x, join_pages (pages ++ more) = join_pages pages ++ x.
Proof.
  induction pages as [|q pages IH].
  - now exists (join_pages more).
  - destruct IH as (x & Hx). destruct pages as [|q' pages].
    + cbn [app]. destruct more as [|m more].
      * exists []. cbn. now rewrite app_nil_r.
      * exists ([32%N; 10%N] ++ join_pages (m :: more)). reflexivity.
    + exists x.
      change (join_pages ((q :: q' :: pages) ++ more))
        with (q ++ [32%N; 10%N] ++ join_pages ((q' :: pages) ++ more)).
      change (join_pages (q :: q' :: pages))
        with (q ++ [32%N; 10%N] ++ join_pages (q' :: pages)).
      rewrite Hx. now rewrite <- !app_assoc.
Qed.

Lemma doc_lower_append doc more :
  exists y, doc_lower (append_pages doc more) = doc_lower doc ++ y.
Proof.
  unfold doc_lower, append_pages. cbn [Doc.textByPage].
  destruct (join_pages_app (Doc.textByPage doc) more) as (x & ->).
  exists (toLowerCase x). unfold toLowerCase. apply flat_map_app.
Qed.

Lemma existsb_impl {A : Type} (p q : A -> bool) l :
  (forall x, p x = true -> q x = true) ->
  existsb p l = true -> existsb q l = true.
Proof.
  intros H. rewrite !existsb_exists. intros (x & Hx & Hp). eauto.
Qed.

Lemma filter_length_impl {A : Type} (p q : A -> bool) l :
  (forall x, p x = true -> q x = true) ->
  (length (List.filter p l) <= length (List.filter q l))%nat.
Proof.
  intros H. induction l as [|x l IH]; cbn; [lia|].
  destruct (p x) eqn:Ep.
  - rewrite (H x Ep). cbn. lia.
  - destruct (q x); cbn; lia.
Qed.

Lemma present_count_app lower y block :
  (present_count lower block <= present_count (lower ++ y) block)%nat.
Proof.
  apply filter_length_impl. intros el. unfold element_present.
  apply existsb_impl. intros p. apply includes_app.
Qed.

Lemma max_of_spec x l :
  (forall y, In y (x :: l) -> (y <= max_of x l)%Z) /\ In (max_of x l) (x :: l).
Proof.
  unfold max_of. revert x. induction l as [|a l IH]; intros x; cbn.
  - split; [intros y [<-|[]]; lia|now left].
  - destruct (IH (Z.max x a)) as [Hle Hin]. split.
    + intros y [<-|[<-|Hy]].
      * specialize (Hle (Z.max x a) (or_introl eq_refl)). lia.
      * specialize (Hle (Z.max x a) (or_introl eq_refl)). lia.
      * apply Hle. now right.
    + destruct Hin as [Hin|Hin]; [|now right; right].
      rewrite <- Hin. destruct (Z.max_spec x a) as [[_ ->]|[_ ->]]; auto.
Qed.

End GapEvaluatorFacts.

(** X12: for every document the assessment and implementation-plan scores
    lie between 0 and 100 and equal 100 exactly when all 7, respectively all
    3, elements are present; the comment score is 100 exactly when all 3
    elements are present; and the public-availability score is 100 when the
    text includes one of the six availability phrases and 0 otherwise. *)
Theorem evalDocForElements_score_ranges (doc : Doc.t) :
  (0 <= ChnaEval.chnaScore (evalDocForElements doc) <= 100)%Z
  /\ (0 <= ChnaEval.isScore (evalDocForElements doc) <= 100)%Z
  /\ (ChnaEval.chnaScore (evalDocForElements doc) = 100%Z
      <-> present_count (doc_lower doc) CHNA_ELEMENTS = 7%nat)
  /\ (ChnaEval.isScore (evalDocForElements doc) = 100%Z
      <-> present_count (doc_lower doc) IS_ELEMENTS = 3%nat)
  /\ (ChnaEval.writtenCommentsScore (evalDocForElements doc) = 100%Z
      <-> present_count (doc_lower doc) WRITTEN_COMMENT_ELEMENTS = 3%nat)
  /\ ChnaEval.publicScore (evalDocForElements doc)
     = (if public_signal (doc_lower doc) then 100 else 0)%Z.
Proof.
  destruct (evalDocForElements_fields doc) as (-> & -> & -> & ->).
  pose proof (present_count_le (doc_lower doc) CHNA_ELEMENTS) as H7.
  pose proof (present_count_le (doc_lower doc) IS_ELEMENTS) as H3.
  pose proof (present_count_le (doc_lower doc) WRITTEN_COMMENT_ELEMENTS) as Hw.
  change (length CHNA_ELEMENTS) with 7%nat in H7.
  change (length IS_ELEMENTS) with 3%nat in H3.
  change (length WRITTEN_COMMENT_ELEMENTS) with 3%nat in Hw.
  destruct (percent_score_7 _ H7) as [Hb7 Hi7].
  destruct (percent_score_3 _ H3) as [Hb3 Hi3].
  split; [exact Hb7|]. split; [exact Hb3|]. split; [exact Hi7|].
  split; [exact Hi3|]. split; [now apply comment_level_3|reflexivity].
Qed.

(** X13: a document never scores lower for having more pages: appending
    pages keeps or raises each of the four scores and keeps the two document
    kind flags once they are set. *)
Theorem evalDocForElements_monotone (doc : Doc.t) (more : list text) :
  (ChnaEval.chnaScore (evalDocForElements doc)
   <= ChnaEval.chnaScore (evalDocForElements (append_pages doc more)))%Z
  /\ (ChnaEval.isScore (evalDocForElements doc)
      <= ChnaEval.isScore (evalDocForElements (append_pages doc more)))%Z
  /\ (ChnaEval.writtenCommentsScore (evalDocForElements doc)
      <= ChnaEval.writtenCommentsScore
           (evalDocForElements (append_pages doc more)))%Z
  /\ (ChnaEval.publicScore (evalDocForElements doc)
      <= ChnaEval.publicScore (evalDocForElements (append_pages doc more)))%Z
  /\ (ChnaEval.isCHNA (evalDocForElements doc) = true ->
      ChnaEval.isCHNA (evalDocForElements (append_pages doc more)) = true)
  /\ (ChnaEval.isIS (evalDocForElements doc) = true ->
      ChnaEval.isIS (evalDocForElements (append_pages doc more)) = true).
Proof.
  destruct (evalDocForElements_fields doc) as (-> & -> & -> & ->).
  destruct (evalDocForElements_fields (append_pages doc more))
    as (-> & -> & -> & ->).
  destruct (doc_lower_append doc more) as (y & Hy). rewrite Hy.
  split; [apply percent_score_mono, present_count_app|].
  split; [apply percent_score_mono, present_count_app|].
  split; [apply comment_level_mono, present_count_app|].
  split.
  - destruct (public_signal (doc_lower doc)) eqn:E.
    + unfold public_signal in *.
      rewrite (existsb_impl _
                 (fun p => includes (doc_lower doc ++ y) (toLowerCase p))
                 publicPats (fun p => includes_app _ y _) E).
      cbv iota. lia.
    + destruct (public_signal (doc_lower doc ++ y)); cbv iota; lia.
  - unfold evalDocForElements. cbn zeta.
    cbn [ChnaEval.isCHNA ChnaEval.isIS].
    change (toLowerCase (join_pages (Doc.textByPage (append_pages doc more))))
      with (doc_lower (append_pages doc more)).
    change (toLowerCase (join_pages (Doc.textByPage doc)))
      with (doc_lower doc).
    rewrite Hy. rewrite !orb_true_iff. split.
    + intros [H|H]; [left|right]; now apply includes_app.
    + intros [[H|H]|H]; [left; left|left; right|right];
        now apply includes_app.
Qed.

(** X13, witness: a one-page assessment document stays an assessment
    document when a page is appended. *)
Lemma evalDocForElements_monotone_witness :
  let doc := txt_doc "chna.txt" "CHNA 2024: methods and data sources" in
  ChnaEval.isCHNA (evalDocForElements doc) = true
  /\ ChnaEval.isCHNA
       (evalDocForElements (append_pages doc [lit "Appendix A"])) = true.
Proof.
  intros doc.
  assert (H : ChnaEval.isCHNA (evalDocForElements doc) = true) by reflexivity.
  split; [exact H|].
  exact (proj1 (proj2 (proj2 (proj2 (proj2
           (evalDocForElements_monotone doc [lit "Appendix A"]))))) H).
Defined.

Section GapReport.

Lemma firstn_nil_iff {A : Type} (n : nat) (l : list A) :
  firstn (S n) l = [] <-> l = [].
Proof. destruct l; cbn; split; congruence. Qed.

Lemma missing_labels_nil hits :
  missing_labels hits = []
  <-> length (List.filter ElementHit.present hits) = length hits.
Proof.
  unfold missing_labels.
  pose proof (List.filter_length ElementHit.present hits) as Hl.
  split.
  - intros H. apply map_eq_nil in H. rewrite H in Hl. cbn in Hl. lia.
  - intros H.
    destruct (List.filter (fun h => negb (ElementHit.present h)) hits) eqn:E;
      [reflexivity|].
    cbn in Hl. lia.
Qed.

(** The hits a block reports, counted. *)
Lemma scoreBlock_hits all lower block :
  nonempty_pats block = true ->
  length (List.filter ElementHit.present
            (Block.hits (scoreBlock all lower block)))
  = present_count lower block
  /\ length (Block.hits (scoreBlock all lower block)) = length block.
Proof.
  intros H. destruct (scoreBlock_spec all lower block H) as (Hp & Ht & _).
  split; [exact Hp|exact Ht].
Qed.

End GapReport.

(** X14: the gap list that [renderChnaGaps] shows for a document names at
    most three missing elements, and it is empty exactly when the three
    scores of the document are all 100. *)
Theorem doc_gaps_empty_iff_complete (doc : Doc.t) :
  (length (doc_gaps (evalDocForElements doc)) <= 3)%nat
  /\ (doc_gaps (evalDocForElements doc) = []
      <-> ChnaEval.chnaScore (evalDocForElements doc) = 100%Z
          /\ ChnaEval.isScore (evalDocForElements doc) = 100%Z
          /\ ChnaEval.writtenCommentsScore (evalDocForElements doc) = 100%Z).
Proof.
  split; [apply firstn_le_length|].
  destruct (evalDocForElements_fields doc) as (-> & -> & -> & _).
  pose proof (present_count_le (doc_lower doc) CHNA_ELEMENTS) as H7.
  pose proof (present_count_le (doc_lower doc) IS_ELEMENTS) as H3.
  pose proof (present_count_le (doc_lower doc) WRITTEN_COMMENT_ELEMENTS) as Hw.
  change (length CHNA_ELEMENTS) with 7%nat in H7.
  change (length IS_ELEMENTS) with 3%nat in H3.
  change (length WRITTEN_COMMENT_ELEMENTS) with 3%nat in Hw.
  rewrite (proj2 (percent_score_7 _ H7)), (proj2 (percent_score_3 _ H3)),
    (comment_level_3 _ Hw).
  unfold doc_gaps. rewrite firstn_nil_iff.
  set (all := join_pages (Doc.textByPage doc)).
  destruct (scoreBlock_hits all (doc_lower doc) CHNA_ELEMENTS eq_refl)
    as [Hc1 Hc2].
  destruct (scoreBlock_hits all (doc_lower doc) IS_ELEMENTS eq_refl)
    as [Hi1 Hi2].
  destruct (scoreBlock_hits all (doc_lower doc) WRITTEN_COMMENT_ELEMENTS
              eq_refl) as [Hw1 Hw2].
  change (ChnaEval.chnaHits (evalDocForElements doc))
    with (Block.hits (scoreBlock all (doc_lower doc) CHNA_ELEMENTS)).
  change (ChnaEval.isHits (evalDocForElements doc))
    with (Block.hits (scoreBlock all (doc_lower doc) IS_ELEMENTS)).
  change (ChnaEval.wcHits (evalDocForElements doc))
    with (Block.hits (scoreBlock all (doc_lower doc) WRITTEN_COMMENT_ELEMENTS)).
  rewrite <- Hc1, <- Hi1, <- Hw1.
  change 7%nat with (length CHNA_ELEMENTS).
  change 3%nat with (length IS_ELEMENTS) at 1.
  change 3%nat with (length WRITTEN_COMMENT_ELEMENTS).
  rewrite <- Hc2, <- Hi2 at 1. rewrite <- Hw2.
  rewrite <- !missing_labels_nil.
  split.
  - intros H. apply app_eq_nil in H. destruct H as [Ha H].
    apply app_eq_nil in H. tauto.
  - intros (-> & -> & ->). reflexivity.
Qed.

(** The indicators over arbitrary evaluations. *)
Lemma chna_kpis_spec (e : ChnaEval.t) (es : list ChnaEval.t) :
  exists k,
    chna_kpis (e :: es) = Some k
    /\ (forall d, In d (e :: es) ->
          (ChnaEval.chnaScore d <= GapKpis.chnaMax k)%Z
          /\ (ChnaEval.isScore d <= GapKpis.isMax k)%Z
          /\ (ChnaEval.writtenCommentsScore d <= GapKpis.wcMax k)%Z
          /\ (ChnaEval.publicScore d <= GapKpis.pubMax k)%Z)
    /\ (exists d, In d (e :: es) /\ ChnaEval.chnaScore d = GapKpis.chnaMax k)
    /\ (exists d, In d (e :: es) /\ ChnaEval.isScore d = GapKpis.isMax k)
    /\ (exists d, In d (e :: es)
                  /\ ChnaEval.writtenCommentsScore d = GapKpis.wcMax k)
    /\ (exists d, In d (e :: es) /\ ChnaEval.publicScore d = GapKpis.pubMax k)
    /\ (GapKpis.kpi_input_req k = "Meets (3/3)"
        <-> exists d, In d (e :: es)
                      /\ ChnaEval.writtenCommentsScore d = 100%Z
                      /\ forall d', In d' (e :: es) ->
                           (ChnaEval.writtenCommentsScore d' <= 100)%Z).
Proof.
  eexists. split; [reflexivity|].
  cbn [GapKpis.chnaMax GapKpis.isMax GapKpis.wcMax GapKpis.pubMax
       GapKpis.kpi_input_req].
  assert (Hmax : forall (g : ChnaEval.t -> Z),
             (forall d, In d (e :: es) ->
                (g d <= max_of (g e) (List.map g es))%Z)
             /\ exists d, In d (e :: es)
                          /\ g d = max_of (g e) (List.map g es)).
  { intros g. destruct (max_of_spec (g e) (List.map g es)) as [Hle Hin].
    split.
    - intros d Hd. apply Hle. change (g e :: List.map g es)
        with (List.map g (e :: es)). now apply List.in_map.
    - change (g e :: List.map g es) with (List.map g (e :: es)) in Hin.
      apply List.in_map_iff in Hin. destruct Hin as (d & Hd & Hin).
      now exists d. }
  destruct (Hmax ChnaEval.chnaScore) as [Hc1 Hc2].
  destruct (Hmax ChnaEval.isScore) as [Hi1 Hi2].
  destruct (Hmax ChnaEval.writtenCommentsScore) as [Hw1 Hw2].
  destruct (Hmax ChnaEval.publicScore) as [Hp1 Hp2].
  split; [intros d Hd; repeat split; auto|].
  split; [exact Hc2|]. split; [exact Hi2|]. split; [exact Hw2|].
  split; [exact Hp2|].
  set (w := max_of (ChnaEval.writtenCommentsScore e)
              (List.map ChnaEval.writtenCommentsScore es)) in *.
  destruct (w =? 100)%Z eqn:E.
  - apply Z.eqb_eq in E. split; [intros _|reflexivity].
    destruct Hw2 as (d & Hd & Hdw). exists d. split; [exact Hd|].
    split; [lia|]. intros d' Hd'. specialize (Hw1 d' Hd'). lia.
  - apply Z.eqb_neq in E. split.
    + destruct (w =? 67)%Z; [discriminate|].
      destruct (w =? 33)%Z; discriminate.
    + intros (d & Hd & Hdw & Hall). exfalso.
      destruct Hw2 as (d2 & Hd2 & Hd2w).
      specialize (Hw1 d Hd). specialize (Hall d2 Hd2). lia.
Qed.

(** X15: over the evaluated documents, each indicator that [renderChnaGaps]
    aggregates is the score of one of the documents and no document scores
    higher; the comment indicator reads "Meets (3/3)" exactly when some
    document has a comment score of 100. *)
Theorem chna_kpis_of_documents (doc : Doc.t) (docs : list Doc.t) :
  exists k,
    chna_kpis (List.map evalDocForElements (doc :: docs)) = Some k
    /\ (forall d, In d (doc :: docs) ->
          (ChnaEval.chnaScore (evalDocForElements d) <= GapKpis.chnaMax k)%Z
          /\ (ChnaEval.isScore (evalDocForElements d) <= GapKpis.isMax k)%Z
          /\ (ChnaEval.writtenCommentsScore (evalDocForElements d)
              <= GapKpis.wcMax k)%Z
          /\ (ChnaEval.publicScore (evalDocForElements d)
              <= GapKpis.pubMax k)%Z)
    /\ (exists d, In d (doc :: docs)
                  /\ ChnaEval.chnaScore (evalDocForElements d)
                     = GapKpis.chnaMax k)
    /\ (exists d, In d (doc :: docs)
                  /\ ChnaEval.isScore (evalDocForElements d) = GapKpis.isMax k)
    /\ (exists d, In d (doc :: docs)
                  /\ ChnaEval.writtenCommentsScore (evalDocForElements d)
                     = GapKpis.wcMax k)
    /\ (exists d, In d (doc :: docs)
                  /\ ChnaEval.publicScore (evalDocForElements d)
                     = GapKpis.pubMax k)
    /\ (GapKpis.kpi_input_req k = "Meets (3/3)"
        <-> exists d, In d (doc :: docs)
                      /\ ChnaEval.writtenCommentsScore (evalDocForElements d)
                         = 100%Z).
Proof.
  destruct (chna_kpis_spec (evalDocForElements doc)
              (List.map evalDocForElements docs))
    as (k & Hk & Hle & Hc & Hi & Hw & Hp & Hm).
  change (evalDocForElements doc :: List.map evalDocForElements docs)
    with (List.map evalDocForElements (doc :: docs)) in *.
  assert (Hex : forall (g : ChnaEval.t -> Z) z,
             (exists e, In e (List.map evalDocForElements (doc :: docs))
                        /\ g e = z)
             -> exists d, In d (doc :: docs) /\ g (evalDocForElements d) = z).
  { intros g z (e & He & Hg). apply List.in_map_iff in He.
    destruct He as (d & <- & Hd). now exists d. }
  exists k. split; [exact Hk|].
  split; [intros d Hd; apply Hle; now apply List.in_map|].
  split; [now apply Hex|]. split; [now apply Hex|].
  split; [now apply Hex|]. split; [now apply Hex|].
  rewrite Hm. split.
  - intros (e & He & Hs & _). apply (Hex ChnaEval.writtenCommentsScore).
    now exists e.
  - intros (d & Hd & Hs). exists (evalDocForElements d).
    split; [now apply List.in_map|]. split; [exact Hs|].
    intros e He. apply List.in_map_iff in He. destruct He as (d' & <- & _).
    destruct (evalDocForElements_fields d') as (_ & _ & -> & _).
    destruct (present_count _ _) as [|[|[|n]]]; cbn; lia.
Qed.

(* ================================================================== *)
(** ** Escaping, selection and export *)
(* ================================================================== *)

Section Escaping.

Lemma replaceAll_unit_flat_map c rep (f : N -> text) s :
  replaceAll_unit c rep (flat_map f s)
  = flat_map (fun x => replaceAll_unit c rep (f x)) s.
Proof.
  unfold replaceAll_unit. induction s as [|x s IH]; cbn; [reflexivity|].
  now rewrite flat_map_app, IH.
Qed.

(** The three replacements in a row amount to one pass over the string. *)
Lemma escapeHtml_one_pass s : escapeHtml s = flat_map escape_unit s.
Proof.
  unfold escapeHtml.
  change (replaceAll_unit 38 (lit "&amp;") s)
    with (flat_map (fun x => if (x =? 38)%N then lit "&amp;" else [x]) s).
  rewrite !replaceAll_unit_flat_map. apply flat_map_ext. intros x.
  unfold escape_unit.
  destruct (N.eqb_spec x 38) as [->|H38]; [reflexivity|].
  unfold replaceAll_unit at 2. cbn [flat_map app].
  destruct (N.eqb_spec x 60) as [->|H60]; [reflexivity|].
  unfold replaceAll_unit. cbn [flat_map app].
  destruct (N.eqb_spec x 62) as [->|H62]; reflexivity.
Qed.

Lemma escape_unit_cases x :
  (x = 38 /\ escape_unit x = [38; 97; 109; 112; 59])%N
  \/ (x = 60 /\ escape_unit x = [38; 108; 116; 59])%N
  \/ (x = 62 /\ escape_unit x = [38; 103; 116; 59])%N
  \/ (x <> 38 /\ x <> 60 /\ x <> 62 /\ escape_unit x = [x])%N.
Proof.
  unfold escape_unit.
  destruct (N.eqb_spec x 38) as [->|H38]; [now left|].
  destruct (N.eqb_spec x 60) as [->|H60]; [now right; left|].
  destruct (N.eqb_spec x 62) as [->|H62]; [now right; right; left|].
  right. right. right. auto.
Qed.

Lemma escape_flat_injective s1 : forall s2,
  flat_map escape_unit s1 = flat_map escape_unit s2 -> s1 = s2.
Proof.
  induction s1 as [|x s1 IH]; intros [|y s2]; cbn [flat_map].
  - reflexivity.
  - destruct (escape_unit_cases y) as [[_ ->]|[[_ ->]|[[_ ->]|(_ & _ & _ & ->)]]];
      discriminate.
  - destruct (escape_unit_cases x) as [[_ ->]|[[_ ->]|[[_ ->]|(_ & _ & _ & ->)]]];
      discriminate.
  - destruct (escape_unit_cases x)
      as [[-> ->]|[[-> ->]|[[-> ->]|(Hx1 & Hx2 & Hx3 & ->)]]];
      destruct (escape_unit_cases y)
        as [[-> ->]|[[-> ->]|[[-> ->]|(Hy1 & Hy2 & Hy3 & ->)]]];
      cbn [app]; intros H; injection H; intros; subst;
      try discriminate; try congruence;
      f_equal; now apply IH.
Qed.

End Escaping.

(** X16: the output of [escapeHtml] holds neither "<" nor ">", and
    [escapeHtml] loses nothing: two strings with the same escaped form are
    equal. *)
Theorem escapeHtml_safe_and_injective (s s' : text) :
  ~ In 60%N (escapeHtml s)
  /\ ~ In 62%N (escapeHtml s)
  /\ (escapeHtml s = escapeHtml s' -> s = s').
Proof.
  rewrite !escapeHtml_one_pass.
  assert (Hno : forall c, (c = 60 \/ c = 62)%N ->
                  ~ In c (flat_map escape_unit s)).
  { intros c Hc Hin. apply in_flat_map in Hin. destruct Hin as (x & _ & Hx).
    destruct (escape_unit_cases x)
      as [[_ E]|[[_ E]|[[_ E]|(H1 & H2 & H3 & E)]]];
      rewrite E in Hx; cbn [In] in Hx; destruct Hc; subst;
      intuition congruence. }
  split; [apply Hno; now left|]. split; [apply Hno; now right|].
  apply escape_flat_injective.
Qed.

(** X16, witness: a string with an angle bracket. *)
Lemma escapeHtml_safe_and_injective_witness :
  escapeHtml (lit "a<b") = lit "a&lt;b" /\ lit "a<b" = lit "a<b".
Proof.
  split; [reflexivity|].
  exact (proj2 (proj2 (escapeHtml_safe_and_injective (lit "a<b") (lit "a<b")))
           eq_refl).
Defined.

Section Slices.

Lemma slice_last_suffix {A : Type} (n : nat) (l : list A) :
  l = firstn (length l - n) l ++ slice_last n l
  /\ length (slice_last n l) = Nat.min n (length l).
Proof.
  unfold slice_last. split.
  - symmetry. apply firstn_skipn.
  - rewrite length_skipn. lia.
Qed.

Lemma slice_last_all {A : Type} (n : nat) (l : list A) :
  (length l <= n)%nat -> slice_last n l = l.
Proof.
  intros H. unfold slice_last.
  replace (length l - n)%nat with 0%nat by lia. reflexivity.
Qed.

End Slices.

(** X17: the exported report holds the most recent evidence only: its
    evidence list is the tail of [state.evidence], of length
    min(100, number of records), so that a run with at most 100 records is
    exported in full; findings, opportunities and scalars are exported as
    they are.  The evidence table shows the last 25 records, newest
    first. *)
Theorem exportReport_recent_evidence (st : State.t) :
  (exists older,
      State.evidence st = older ++ Report.evidence (exportReport st))
  /\ length (Report.evidence (exportReport st))
     = Nat.min 100 (length (State.evidence st))
  /\ ((length (State.evidence st) <= 100)%nat ->
      Report.evidence (exportReport st) = State.evidence st)
  /\ Report.tier1_findings (exportReport st) = State.findings st
  /\ Report.tier2_opportunities (exportReport st) = State.opportunities st
  /\ (exists older,
        State.evidence st = older ++ rev (evidence_rows st))
  /\ length (evidence_rows st) = Nat.min 25 (length (State.evidence st)).
Proof.
  destruct (slice_last_suffix 100 (State.evidence st)) as [H1 H2].
  destruct (slice_last_suffix 25 (State.evidence st)) as [H3 H4].
  unfold exportReport, evidence_rows. cbn [Report.evidence
    Report.tier1_findings Report.tier2_opportunities].
  split; [eexists; exact H1|]. split; [exact H2|].
  split; [apply slice_last_all|]. split; [reflexivity|].
  split; [reflexivity|]. rewrite rev_involutive, length_rev.
  split; [eexists; exact H3|exact H4].
Qed.

(** X17, witness: the demonstration run has three records, all exported. *)
Lemma exportReport_recent_evidence_witness :
  (length (State.evidence (process [demo_doc] State.init)) <= 100)%nat
  /\ Report.evidence (exportReport (process [demo_doc] State.init))
     = State.evidence (process [demo_doc] State.init).
Proof.
  assert (H : (length (State.evidence (process [demo_doc] State.init))
               <= 100)%nat) by (vm_compute; lia).
  split; [exact H|].
  exact (proj1 (proj2 (proj2
           (exportReport_recent_evidence (process [demo_doc] State.init)))) H).
Defined.

(* ================================================================== *)
(** ** Further properties of the projection engine *)
(* ================================================================== *)

Section RoiFacts.


Lemma Qgtb_false' a b : Qgtb a b = false <-> a <= b.
Proof. unfold Qgtb. rewrite negb_false_iff. apply Qle_bool_iff. Qed.


Lemma roi_inputs_finite_form inp :
  roi_inputs_finite inp = true ->
  exists v n s r c m t o l a b, inp = fin_inputs v n s r c m t o l a b.
Proof.
  destruct inp as [v n s r c m t o l a b]. unfold roi_inputs_finite.
  cbn [RoiInputs.visits RoiInputs.noshow RoiInputs.share RoiInputs.netrev
       RoiInputs.margc RoiInputs.mitig RoiInputs.trip RoiInputs.over
       RoiInputs.lmi RoiInputs.aa RoiInputs.bank forallb].
  intros H.
  repeat match goal with
         | H : _ && _ = true |- _ => apply andb_prop in H; destruct H
         end.
  repeat match goal with
         | H : isFinite ?x = true |- _ =>
             destruct x; try discriminate H; clear H
         end.
  unfold fin_inputs. eauto 12.
Qed.

(** The figures of [roi_calc] on finite inputs. *)
Lemma roi_calc_fin v n s r c m t o l a b :
  let p := v * n * s * m in
  let out := roi_calc (fin_inputs v n s r c m t o l a b) in
  RoiOutputs.prevented out = Fin p
  /\ RoiOutputs.gross_rev out = Fin (p * r)
  /\ RoiOutputs.marginal_cost out = Fin (p * c)
  /\ RoiOutputs.total_program_cost out = Fin (p * t + p * t * o)
  /\ RoiOutputs.net_benefit out
     = Fin (p * r + - (p * c) + - (p * t + p * t * o))
  /\ RoiOutputs.be_trip_max out = Fin (r + - c).
Proof. cbn. repeat split. Qed.

End RoiFacts.

(** X18: [_normRate] never returns NaN, and a finite rate between 0 and 100
    comes out between 0 and 1, where a second application leaves it as it
    is. *)
Theorem _normRate_range (x : num) (q : Q) :
  isNaN (_normRate x) = false
  /\ (0 <= q -> q <= 100 ->
      exists r, _normRate (Fin q) = Fin r
                /\ 0 <= r /\ r <= 1
                /\ _normRate (Fin r) = Fin r).
Proof.
  split.
  - unfold _normRate. destruct x as [a| | |]; try reflexivity.
    cbn [isNaN gtb]. destruct (Qgtb a 1); reflexivity.
  - intros H0 H100. unfold _normRate. cbn [isNaN gtb].
    destruct (Qgtb q 1) eqn:E.
    + exists (q / 100). split; [reflexivity|].
      assert (Hr : q / 100 <= 1) by (apply Qle_shift_div_r; [reflexivity|lra]).
      split; [apply Qle_shift_div_l; [reflexivity|lra]|]. split; [exact Hr|].
      now rewrite (proj2 (Qgtb_false' _ _) Hr).
    + exists q. split; [reflexivity|]. split; [exact H0|].
      split; [now apply Qgtb_false'|]. now rewrite E.
Qed.

(** X18, witness: the rate 20 is read as 0.2. *)
Lemma _normRate_range_witness :
  exists r, _normRate (Fin 20) = Fin r /\ r <= 1.
Proof.
  destruct (proj2 (_normRate_range NaN 20) ltac:(discriminate)
              ltac:(discriminate)) as (r & Hr & _ & H1 & _).
  exists r. split; [exact Hr|exact H1].
Defined.





Section BarrierShare.




End BarrierShare.



Section Layers.

Lemma Qgeb_true a b : Qgeb a b = true <-> b <= a.
Proof. unfold Qgeb. apply Qle_bool_iff. Qed.

(** The outputs of [roi_calc] that the totals and the pro forma use are
    finite on finite inputs, and the net benefit is revenue minus the two
    costs. *)
Lemma roi_calc_finite_outputs inp :
  roi_inputs_finite inp = true ->
  exists g mc pc nb,
    RoiOutputs.gross_rev (roi_calc inp) = Fin g
    /\ RoiOutputs.marginal_cost (roi_calc inp) = Fin mc
    /\ RoiOutputs.total_program_cost (roi_calc inp) = Fin pc
    /\ RoiOutputs.net_benefit (roi_calc inp) = Fin nb
    /\ nb == g - mc - pc.
Proof.
  intros H. apply roi_inputs_finite_form in H.
  destruct H as (v & n & s & r & c & m & t & o & l & a & b & ->).
  destruct (roi_calc_fin v n s r c m t o l a b)
    as (_ & Hg & Hm & Hc & Hn & _).
  eexists _, _, _, _. split; [exact Hg|]. split; [exact Hm|].
  split; [exact Hc|]. split; [exact Hn|]. reflexivity.
Qed.

End Layers.

(** X22: the quality layer pays nothing without improvement.  With finite
    fields, when the projected score does not exceed the baseline the earn of
    [vbc_calc] is 0 in the earn-back model as in the cliff model; and in the
    cliff model the earn is the bonus exactly when the projected score reaches
    the threshold and the baseline does not. *)
Theorem vbc_calc_needs_improvement (f : VbcForm.t) (a b p t bo : Q) :
  num_or_0 (VbcForm.vbc_at_risk f) = Fin a ->
  num_or_0 (VbcForm.vbc_baseline f) = Fin b ->
  num_or_0 (VbcForm.vbc_projected f) = Fin p ->
  num_or_0 (VbcForm.vbc_threshold f) = Fin t ->
  num_or_0 (VbcForm.vbc_bonus f) = Fin bo ->
  (p <= b -> num_eq (fst (vbc_calc f)) (Fin 0))
  /\ (VbcForm.toggle_vbc f = true ->
      text_eqb (or_text (VbcForm.vbc_type f) (lit "earnback"))
        (lit "earnback") = false ->
      (b < t <= p -> fst (vbc_calc f) = Fin bo)
      /\ (~ b < t <= p -> fst (vbc_calc f) = Fin 0)).
Proof.
  intros Ha Hb Hp Ht Hbo. unfold vbc_calc. rewrite Ha, Hb, Hp, Ht, Hbo.
  split.
  - intros Hle. destruct (VbcForm.toggle_vbc f); cbn [negb];
      [|cbn; reflexivity].
    destruct (text_eqb _ _); cbn [fst].
    + rewrite sub_Fin. unfold max. cbn [gtb].
      assert (E : Qgtb (p + - b) 0 = false) by (apply Qgtb_false'; lra).
      rewrite E. unfold hundred. rewrite div_Fin_pos by reflexivity.
      rewrite mul_Fin. cbn [num_eq]. field.
    + cbn [geb]. destruct (Qgeb p t) eqn:E1; [|cbn; reflexivity].
      apply Qgeb_true in E1.
      assert (E2 : Qgeb b t = true) by (apply Qgeb_true; lra).
      rewrite E2. cbn. reflexivity.
  - intros Hon Hcliff. rewrite Hon, Hcliff. cbn [negb fst geb]. split.
    + intros [H1 H2].
      rewrite (proj2 (Qgeb_true p t) H2).
      destruct (Qgeb b t) eqn:E; [|reflexivity].
      apply Qgeb_true in E. lra.
    + intros Hn. destruct (Qgeb p t) eqn:E1; [|reflexivity].
      destruct (Qgeb b t) eqn:E2; [reflexivity|].
      exfalso. apply Hn. apply Qgeb_true in E1. split; [|exact E1].
      apply Qnot_le_lt. intros H. apply Qgeb_true in H. congruence.
Qed.

(** X22, witness: a cliff model with threshold 75, baseline 70 and projected
    score 78 pays the bonus of 5000. *)
Lemma vbc_calc_needs_improvement_witness :
  fst (vbc_calc (example_vbc_form "cliff" "70" "78")) = Fin 5000.
Proof.
  refine (proj1 (proj2 (vbc_calc_needs_improvement
                          (example_vbc_form "cliff" "70" "78")
                          100000 70 78 75 5000 _ _ _ _ _) _ _) _);
    try (vm_compute; reflexivity).
  split; [reflexivity|discriminate].
Defined.

(** X23: with the three optional layers switched off and finite inputs, the
    total net and the all-in net of [render_roi] both equal the net benefit
    of [roi_calc]. *)
Theorem render_roi_layers_off (rf : RoiForm.t) (cf : CodingForm.t)
    (mf : CcmForm.t) (vf : VbcForm.t) :
  CodingForm.toggle_coding cf = false ->
  CcmForm.toggle_ccm mf = false ->
  VbcForm.toggle_vbc vf = false ->
  roi_inputs_finite (roi_inputs rf) = true ->
  num_eq (RoiTotals.totalNet (render_roi rf cf mf vf))
         (RoiOutputs.net_benefit (roi_calc (roi_inputs rf)))
  /\ num_eq (RoiTotals.allin (render_roi rf cf mf vf))
            (RoiOutputs.net_benefit (roi_calc (roi_inputs rf))).
Proof.
  intros Hc Hm Hv Hfin.
  destruct (roi_calc_finite_outputs _ Hfin)
    as (g & mc & pc & nb & _ & _ & _ & Hn & _).
  unfold render_roi, coding_uplift, ccm_tcm_calc, vbc_calc.
  rewrite Hc, Hm, Hv. cbn [negb CcmOut.enabled snd fst].
  cbn [RoiTotals.totalNet RoiTotals.allin]. rewrite Hn, !add_Fin.
  cbn [num_eq]. split; ring.
Qed.

(** X23, witness: the example form with every layer off. *)
Lemma render_roi_layers_off_witness :
  num_eq
    (RoiTotals.allin
       (render_roi example_roi_form (fst (fst layers_off))
          (snd (fst layers_off)) (snd layers_off)))
    (RoiOutputs.net_benefit (roi_calc (roi_inputs example_roi_form))).
Proof.
  exact (proj2 (render_roi_layers_off example_roi_form (fst (fst layers_off))
                  (snd (fst layers_off)) (snd layers_off)
                  eq_refl eq_refl eq_refl ltac:(vm_compute; reflexivity))).
Defined.


